(** * SectorFusion inference engine: geodesic math, coverage profiler,
      neighbour finder, sector swap detector and actual-azimuth estimator.

    Shallow embedding of the Python sources
      - [azimuth_utils.py]          (modules [AzimuthUtils], [ActualAzimuth])
      - [coverage_calculator.py]    (module [CoverageCalculator])
      - [neighbor_audit_window.py]  (module [NeighborCalculator])
      - [sectorswap.py]             (modules [SectorSwapCalculator],
                                     [AzimuthTable])
    followed, for each, by modules of properties ([...Props], [...Facts]).

    Numbers.  Python floats that hold coordinates, bearings and distances are
    read as real numbers ([R]): the trigonometry of [math] has no executable
    counterpart, and rounding, signed zeros, NaN and the infinities are
    outside this model.  Where a property depends on what rounding does to an
    intermediate value (the haversine term of the distance, the two terms of
    the bearing), the code after that value is given as a function of it
    ([distance_of_term], [bearing_of_terms]) and the property is stated for
    every value.
    Sample counts are integers ([Z], [nat]); RSRP values, percentages and the
    swap thresholds are exact rationals ([Q]); module [FloatCheck] evaluates
    the threshold tests in binary64 as well and compares.  Identifiers (site,
    cell, carrier) are strings.  Python dictionaries are association lists in
    insertion order, because the code depends on that order.  A Python
    function that can raise returns an [outcome]; [try]/[except] is a match on
    it. *)

From Stdlib Require Import Reals Lra Lia ZArith QArith Qround Bool.
From Stdlib Require Import String Ascii List Permutation Sorted.
From Stdlib Require PrimFloat Uint63.
Import ListNotations.

Set Implicit Arguments.

(* ================================================================= *)
(** ** Python outcomes: a value is returned or an exception is raised *)

Inductive exn : Type :=
| ValueError
| TypeError
| KeyError.

Inductive outcome (A : Type) : Type :=
| Returned (a : A)
| Raised (e : exn).

Arguments Returned {A} a.
Arguments Raised {A} e.

Definition bind {A B : Type} (m : outcome A) (k : A -> outcome B) : outcome B :=
  match m with
  | Returned a => k a
  | Raised e => Raised e
  end.

Notation "x <- m ;; k" := (bind m (fun x => k))
  (at level 61, m at next level, right associativity).

(** [try: m except Exception: h]. *)
Definition try_except {A : Type} (m : outcome A) (h : exn -> A) : A :=
  match m with
  | Returned a => a
  | Raised e => h e
  end.

(** A table cell read from CSV: numeric, or text that [float()] rejects. *)
Inductive raw (A : Type) : Type :=
| Num (x : A)
| Bad (txt : string).

Arguments Num {A} x.
Arguments Bad {A} txt.

Definition py_float {A : Type} (v : raw A) : outcome A :=
  match v with
  | Num x => Returned x
  | Bad _ => Raised ValueError
  end.

(* ================================================================= *)
(** ** The part of Python's [math] module the sources use, over [R] *)

Module PyMath.
Local Open Scope R_scope.

Definition Rleb (x y : R) : bool := if Rle_dec x y then true else false.
Definition Rltb (x y : R) : bool := if Rlt_dec x y then true else false.

Definition radians (x : R) : R := x * PI / 180.
Definition degrees (x : R) : R := x * 180 / PI.

(** [math.sqrt] raises [ValueError] below zero. *)
Definition py_sqrt (x : R) : outcome R :=
  if Rlt_dec x 0 then Raised ValueError else Returned (sqrt x).

(** [math.atan2 y x], value in (-pi, pi]. *)
Definition atan2 (y x : R) : R :=
  if Rlt_dec 0 x then atan (y / x)
  else if Rlt_dec x 0 then
         (if Rle_dec 0 y then atan (y / x) + PI else atan (y / x) - PI)
  else if Rlt_dec 0 y then PI / 2
  else if Rlt_dec y 0 then - (PI / 2)
  else 0.

(** [x % m] on floats for a positive modulus: [x - m * floor (x / m)]. *)
Definition fmod (x m : R) : R := x - m * IZR (Int_part (x / m)).

Lemma Rleb_true x y : Rleb x y = true <-> x <= y.
Proof. unfold Rleb. destruct (Rle_dec x y); split; intros; try discriminate; auto; contradiction. Qed.

Lemma Rltb_true x y : Rltb x y = true <-> x < y.
Proof. unfold Rltb. destruct (Rlt_dec x y); split; intros; try discriminate; auto; contradiction. Qed.

Lemma Rleb_false x y : Rleb x y = false <-> y < x.
Proof.
  unfold Rleb. destruct (Rle_dec x y); split; intros; try discriminate; auto; lra.
Qed.

Lemma Rltb_false x y : Rltb x y = false <-> y <= x.
Proof.
  unfold Rltb. destruct (Rlt_dec x y); split; intros; try discriminate; auto; lra.
Qed.

Lemma fmod_small x m : 0 <= x < m -> fmod x m = x.
Proof.
  intros [H0 Hm]. unfold fmod.
  assert (Hz : 0%Z = Int_part (x / m)).
  { apply Int_part_spec. simpl.
    assert (0 < m) by lra.
    assert (0 <= x / m) by (apply Rmult_le_pos; [lra | left; apply Rinv_0_lt_compat; lra]).
    assert (x / m < 1) by (apply Rmult_lt_reg_r with m; [lra | field_simplify; lra]).
    lra. }
  rewrite <- Hz. simpl. lra.
Qed.

Lemma fmod_shift x m : 0 < m -> m <= x < 2 * m -> fmod x m = x - m.
Proof.
  intros Hm [H0 H1]. unfold fmod.
  assert (Hz : 1%Z = Int_part (x / m)).
  { apply Int_part_spec.
    assert (1 <= x / m) by (apply Rmult_le_reg_r with m; [lra | field_simplify; lra]).
    assert (x / m < 2) by (apply Rmult_lt_reg_r with m; [lra | field_simplify; lra]).
    lra. }
  rewrite <- Hz. lra.
Qed.

Lemma atan2_pos_x y x : 0 < x -> atan2 y x = atan (y / x).
Proof. intros H. unfold atan2. destruct (Rlt_dec 0 x); [reflexivity | contradiction]. Qed.

Lemma atan2_zero_pos x : 0 < x -> atan2 0 x = 0.
Proof.
  intros H. rewrite atan2_pos_x by assumption.
  replace (0 / x) with 0 by (field; lra). apply atan_0.
Qed.

Lemma atan2_zero_neg x : x < 0 -> atan2 0 x = PI.
Proof.
  intros H. unfold atan2.
  destruct (Rlt_dec 0 x); [lra |].
  destruct (Rlt_dec x 0); [| contradiction].
  destruct (Rle_dec 0 0); [| lra].
  replace (0 / x) with 0 by (field; lra). rewrite atan_0. lra.
Qed.

Lemma atan2_pos_zero y : 0 < y -> atan2 y 0 = PI / 2.
Proof.
  intros H. unfold atan2.
  destruct (Rlt_dec 0 0); [lra |].
  destruct (Rlt_dec 0 y); [reflexivity | contradiction].
Qed.

Lemma atan2_neg_zero y : y < 0 -> atan2 y 0 = - (PI / 2).
Proof.
  intros H. unfold atan2.
  destruct (Rlt_dec 0 0); [lra |].
  destruct (Rlt_dec 0 y); [lra |].
  destruct (Rlt_dec y 0); [reflexivity | contradiction].
Qed.

(** In the first quadrant [atan2] stays within [0, pi/2]. *)
Lemma atan2_quadrant y x : 0 <= y -> 0 <= x -> 0 <= atan2 y x <= PI / 2.
Proof.
  intros Hy Hx. pose proof PI_RGT_0 as Hpi. unfold atan2.
  destruct (Rlt_dec 0 x) as [Hx0 | Hx0].
  - pose proof (atan_bound (y / x)) as [_ Hb].
    assert (0 <= y / x) by (apply Rmult_le_pos; [lra | left; apply Rinv_0_lt_compat; lra]).
    split; [| lra].
    destruct (Req_dec (y / x) 0) as [E | E].
    + rewrite E, atan_0. lra.
    + rewrite <- atan_0. left. apply atan_increasing. lra.
  - destruct (Rlt_dec x 0); [lra |].
    destruct (Rlt_dec 0 y); [lra |].
    destruct (Rlt_dec y 0); lra.
Qed.

End PyMath.

(* ================================================================= *)
(** ** azimuth_utils.py: distance and bearing *)

Module AzimuthUtils.
Import PyMath.
Local Open Scope R_scope.

(** The haversine term [a] of [calculate_distance], on radians. *)
Definition haversine_a (lat1 lon1 lat2 lon2 : R) : R :=
  let dlat := lat2 - lat1 in
  let dlon := lon2 - lon1 in
  (sin (dlat / 2)) ^ 2 + cos lat1 * cos lat2 * (sin (dlon / 2)) ^ 2.

(** [calculate_distance], lines 5-14: no handler, [math.sqrt] may raise. *)
Definition calculate_distance (lat1 lon1 lat2 lon2 : R) : outcome R :=
  let R_ := 6371 in
  let lat1 := radians lat1 in
  let lon1 := radians lon1 in
  let lat2 := radians lat2 in
  let lon2 := radians lon2 in
  let a := haversine_a lat1 lon1 lat2 lon2 in
  sa <- py_sqrt a ;;
  sb <- py_sqrt (1 - a) ;;
  let c := 2 * atan2 sa sb in
  let distance := R_ * c in
  Returned (distance * 1000).

(** [calculate_azimuth], lines 16-25. *)
Definition calculate_azimuth (lat1 lon1 lat2 lon2 : R) : R :=
  let lat1 := radians lat1 in
  let lon1 := radians lon1 in
  let lat2 := radians lat2 in
  let lon2 := radians lon2 in
  let dlon := lon2 - lon1 in
  let y := sin dlon * cos lat2 in
  let x := cos lat1 * sin lat2 - sin lat1 * cos lat2 * cos dlon in
  let azimuth := atan2 y x in
  let azimuth := degrees azimuth in
  fmod (azimuth + 360) 360.

(** Lines 12-14 of [calculate_distance], as a function of the value [a] that
    line 11 produced.  Whatever rounding did to [a], the rest of the function
    depends on the coordinates through this value only. *)
Definition distance_of_term (a : R) : outcome R :=
  let R_ := 6371 in
  sa <- py_sqrt a ;;
  sb <- py_sqrt (1 - a) ;;
  let c := 2 * atan2 sa sb in
  let distance := R_ * c in
  Returned (distance * 1000).

(** Lines 18-21 of [calculate_azimuth]: the two arguments [(y, x)] that are
    handed to [math.atan2]. *)
Definition bearing_terms (lat1 lon1 lat2 lon2 : R) : R * R :=
  let lat1 := radians lat1 in
  let lon1 := radians lon1 in
  let lat2 := radians lat2 in
  let lon2 := radians lon2 in
  let dlon := lon2 - lon1 in
  let y := sin dlon * cos lat2 in
  let x := cos lat1 * sin lat2 - sin lat1 * cos lat2 * cos dlon in
  (y, x).

(** Lines 22-24 of [calculate_azimuth]: from the two terms to the bearing. *)
Definition bearing_of_terms (y x : R) : R :=
  let azimuth := atan2 y x in
  let azimuth := degrees azimuth in
  fmod (azimuth + 360) 360.

(** The haversine term always lies in [0, 1], whatever the angles:
    with u = (lat1+lat2)/2 and v = (lat2-lat1)/2,
    cos lat1 * cos lat2 = cos^2 u - sin^2 v. *)
Lemma cos_product (p q : R) :
  cos p * cos q = (cos ((p + q) / 2)) ^ 2 - (sin ((q - p) / 2)) ^ 2.
Proof.
  set (u := (p + q) / 2). set (v := (q - p) / 2).
  replace p with (u - v) at 1 by (unfold u, v; field).
  replace q with (u + v) at 1 by (unfold u, v; field).
  rewrite cos_minus, cos_plus.
  pose proof (sin2_cos2 u) as Hu. pose proof (sin2_cos2 v) as Hv.
  unfold Rsqr in Hu, Hv. nra.
Qed.

Lemma haversine_a_range (lat1 lon1 lat2 lon2 : R) :
  0 <= haversine_a lat1 lon1 lat2 lon2 <= 1.
Proof.
  unfold haversine_a. cbv zeta.
  rewrite cos_product.
  set (cu := cos ((lat1 + lat2) / 2)).
  set (sv := sin ((lat2 - lat1) / 2)).
  set (sd := sin ((lon2 - lon1) / 2)).
  assert (Hcu : 0 <= cu ^ 2 <= 1).
  { pose proof (COS_bound ((lat1 + lat2) / 2)) as [? ?]. fold cu in H, H0. nra. }
  assert (Hsv : 0 <= sv ^ 2 <= 1).
  { pose proof (SIN_bound ((lat2 - lat1) / 2)) as [? ?]. fold sv in H, H0. nra. }
  assert (Hsd : 0 <= sd ^ 2 <= 1).
  { pose proof (SIN_bound ((lon2 - lon1) / 2)) as [? ?]. fold sd in H, H0. nra. }
  nra.
Qed.

Lemma py_sqrt_nonneg x : 0 <= x -> py_sqrt x = Returned (sqrt x).
Proof. intros H. unfold py_sqrt. destruct (Rlt_dec x 0); [lra | reflexivity]. Qed.

(** Closed form: the function always returns the haversine value. *)
Lemma calculate_distance_value (lat1 lon1 lat2 lon2 : R) :
  let a := haversine_a (radians lat1) (radians lon1) (radians lat2) (radians lon2) in
  calculate_distance lat1 lon1 lat2 lon2
  = Returned (6371 * (2 * atan2 (sqrt a) (sqrt (1 - a))) * 1000).
Proof.
  intros a. unfold calculate_distance. cbv zeta. fold a.
  pose proof (haversine_a_range (radians lat1) (radians lon1) (radians lat2) (radians lon2)) as Ha.
  fold a in Ha.
  rewrite (py_sqrt_nonneg (x := a)) by lra. simpl.
  rewrite (py_sqrt_nonneg (x := 1 - a)) by lra. simpl.
  reflexivity.
Qed.

End AzimuthUtils.

(* ================================================================= *)
(** ** Helpers shared by the table-processing code *)

Module PyList.

(** [np.sum(mask)]: how many entries satisfy the mask. *)
Definition count_if {A : Type} (p : A -> bool) (l : list A) : Z :=
  Z.of_nat (length (filter p l)).

(** [DataFrame.drop_duplicates()]: the first occurrence of each row is kept. *)
Fixpoint drop_duplicates {A : Type} (eqb : A -> A -> bool) (l : list A) : list A :=
  match l with
  | [] => []
  | x :: rest => x :: filter (fun y => negb (eqb x y)) (drop_duplicates eqb rest)
  end.

Section StableSort.
Variable A : Type.
Variable leb : A -> A -> bool.

(** Python's [list.sort] and pandas' multi-column [sort_values] are stable;
    any stable sort yields the same list, insertion sort is the model. *)
Fixpoint insert (x : A) (l : list A) : list A :=
  match l with
  | [] => [x]
  | y :: rest => if leb x y then x :: l else y :: insert x rest
  end.

Fixpoint sort (l : list A) : list A :=
  match l with
  | [] => []
  | x :: rest => insert x (sort rest)
  end.

Lemma insert_perm x l : Permutation (x :: l) (insert x l).
Proof.
  induction l as [| y rest IH]; simpl.
  - apply Permutation_refl.
  - destruct (leb x y).
    + apply Permutation_refl.
    + eapply perm_trans; [apply perm_swap |]. now apply perm_skip.
Qed.

Lemma sort_perm l : Permutation l (sort l).
Proof.
  induction l as [| x rest IH]; simpl.
  - constructor.
  - eapply perm_trans; [apply perm_skip, IH | apply insert_perm].
Qed.

Lemma sort_length l : length (sort l) = length l.
Proof. symmetry. apply Permutation_length, sort_perm. Qed.

Lemma sort_In x l : In x (sort l) <-> In x l.
Proof.
  split; intros H.
  - eapply Permutation_in; [apply Permutation_sym, sort_perm | exact H].
  - eapply Permutation_in; [apply sort_perm | exact H].
Qed.

Hypothesis leb_total : forall x y, leb x y = true \/ leb y x = true.
Hypothesis leb_trans : forall x y z, leb x y = true -> leb y z = true -> leb x z = true.

Lemma insert_sorted x l :
  StronglySorted (fun a b => leb a b = true) l ->
  StronglySorted (fun a b => leb a b = true) (insert x l).
Proof.
  induction 1 as [| y rest Hs IH Hall]; simpl.
  - constructor; constructor.
  - destruct (leb x y) eqn:E.
    + constructor.
      * constructor; assumption.
      * constructor; [assumption |].
        rewrite Forall_forall in Hall |- *. intros z Hz.
        eapply leb_trans; [exact E | now apply Hall].
    + constructor; [assumption |].
      rewrite Forall_forall in Hall |- *. intros z Hz.
      assert (Hz' : In z (x :: rest)).
      { eapply Permutation_in; [apply Permutation_sym, insert_perm | exact Hz]. }
      destruct Hz' as [<- | Hz'].
      * destruct (leb_total y x) as [? | ?]; [assumption | congruence].
      * now apply Hall.
Qed.

Lemma sort_sorted l : StronglySorted (fun a b => leb a b = true) (sort l).
Proof.
  induction l as [| x rest IH]; simpl.
  - constructor.
  - now apply insert_sorted.
Qed.

(** Stability: elements selected by a predicate that is closed under
    "[x] goes before [y] only if [leb x y]" keep their input order.  The
    predicate used later is "has the same key as k". *)
Lemma insert_filter (p : A -> bool) x l :
  (forall y, In y l -> p x = true -> p y = true -> leb x y = true) ->
  filter p (insert x l) = filter p (x :: l).
Proof.
  induction l as [| y rest IH]; intros Hle; simpl.
  - reflexivity.
  - destruct (leb x y) eqn:E.
    + reflexivity.
    + simpl. rewrite IH by (intros z Hz; apply Hle; now right).
      simpl. destruct (p x) eqn:Px; destruct (p y) eqn:Py; try reflexivity.
      assert (leb x y = true) by (apply Hle; [now left | reflexivity | exact Py]).
      congruence.
Qed.

Lemma sort_stable (p : A -> bool) l :
  (forall x y, p x = true -> p y = true -> leb x y = true) ->
  filter p (sort l) = filter p l.
Proof.
  intros Hp. induction l as [| x rest IH]; simpl.
  - reflexivity.
  - rewrite insert_filter by (intros; now apply Hp).
    simpl. now rewrite IH.
Qed.
End StableSort.

(** [l[:n]] for a Python int [n]: a negative [n] counts from the end. *)
Definition slice_to {A : Type} (l : list A) (n : Z) : list A :=
  if (0 <=? n)%Z then firstn (Z.to_nat n) l
  else firstn (length l - Z.to_nat (- n)) l.

Lemma drop_duplicates_In {A : Type} (eqb : A -> A -> bool) (l : list A) x :
  In x (drop_duplicates eqb l) -> In x l.
Proof.
  induction l as [| y rest IH]; simpl; [tauto |].
  intros [-> | H]; [now left |].
  right. apply IH. now apply filter_In in H.
Qed.

End PyList.

(* ================================================================= *)
(** ** coverage_calculator.py *)

Module CoverageCalculator.
Import PyMath PyList.

(** One EP row and one MR row, with the columns this module reads. *)
Record ep_row : Type := {
  ep_site_id : string;
  ep_cell_id : string;
  ep_carrier : string;
  ep_latitude : raw R;
  ep_longitude : raw R
}.

Record mr_row : Type := {
  mr_site_id : string;
  mr_cell_id : string;
  mr_latitude : raw R;
  mr_longitude : raw R;
  mr_rsrp : raw Q
}.

(** A percentage printed with one decimal, ["12.3%"], is kept as the
    integer number of tenths (123). *)
Definition pct := Z.

Record result_row : Type := {
  res_site : string;
  res_cell : string;
  res_carrier : string;
  res_coverage : list pct;   (* 0-300m, 300-500m, 500-700m, 700-1000m, >1000m *)
  res_rsrp : list pct;       (* -40 to -70, -70 to -85, -85 to -95, -95 to -105, <-105 *)
  res_overall : pct;
  res_total : Z;
  res_status : string
}.

Definition Qltb (x y : Q) : bool := negb (Qle_bool y x).

(** [f"{x:.1f}"]: nearest tenth, halves to the even tenth. *)
Definition round_half_even (q : Q) : Z :=
  let f := Qfloor q in
  match Qcompare (q - inject_Z f) (1 # 2) with
  | Lt => f
  | Gt => (f + 1)%Z
  | Eq => if Z.even f then f else (f + 1)%Z
  end.

Definition format_1f (x : Q) : pct := round_half_even (x * 10).

(** [float(x.strip('%'))]. *)
Definition parse_pct (t : pct) : Q := inject_Z t / 10.

(** [(count / total_mr_points) * 100]. *)
Definition ratio_pct (count total : Z) : Q :=
  (inject_Z count / inject_Z total) * 100.

(** [calculate_distance], lines 160-175: the handler turns a raise into 0. *)
Definition calculate_distance (lat1 lon1 lat2 lon2 : R) : R :=
  try_except
    (let lat1 := radians lat1 in
     let lon1 := radians lon1 in
     let lat2 := radians lat2 in
     let lon2 := radians lon2 in
     let dlat := (lat2 - lat1)%R in
     let dlon := (lon2 - lon1)%R in
     let a := ((sin (dlat / 2)) ^ 2 + cos lat1 * cos lat2 * (sin (dlon / 2)) ^ 2)%R in
     sa <- py_sqrt a ;;
     sb <- py_sqrt (1 - a)%R ;;
     let c := (2 * atan2 sa sb)%R in
     Returned (6371 * c * 1000)%R)
    (fun _ => 0%R).

(** Lines 170-175, as a function of the value [a] that line 169 produced:
    the handler answers 0 when [sqrt] raises. *)
Definition distance_of_term (a : R) : R :=
  try_except
    (sa <- py_sqrt a ;;
     sb <- py_sqrt (1 - a)%R ;;
     let c := (2 * atan2 sa sb)%R in
     Returned (6371 * c * 1000)%R)
    (fun _ => 0%R).

Definition base_result (site_id cell_id carrier : string) : result_row :=
  {| res_site := site_id; res_cell := cell_id; res_carrier := carrier;
     res_coverage := [0; 0; 0; 0; 0]%Z;
     res_rsrp := [0; 0; 0; 0; 0]%Z;
     res_overall := 0%Z; res_total := 0%Z;
     res_status := "No MR Data" |}.

(** Body of the inner [try] of the measurement loop, lines 59-66. *)
Definition measurement (ep_lat ep_lon : R) (row : mr_row) : outcome (R * Q) :=
  mr_lat <- py_float (mr_latitude row) ;;
  mr_lon <- py_float (mr_longitude row) ;;
  let distance := calculate_distance ep_lat ep_lon mr_lat mr_lon in
  rsrp <- py_float (mr_rsrp row) ;;
  Returned (distance, rsrp).

(** The loop of lines 58-69: a row whose conversion raises is skipped. *)
Fixpoint collect (ep_lat ep_lon : R) (cell_mr : list mr_row) : list R * list Q :=
  match cell_mr with
  | [] => ([], [])
  | row :: rest =>
      let '(distances, rsrp_values) := collect ep_lat ep_lon rest in
      match measurement ep_lat ep_lon row with
      | Returned (distance, rsrp) => (distance :: distances, rsrp :: rsrp_values)
      | Raised _ => (distances, rsrp_values)
      end
  end.

(** [self.distance_ranges[:-1]]. *)
Definition distance_ranges_finite : list (R * R) :=
  [(0, 300); (300, 500); (500, 700); (700, 1000)]%R.

Definition distance_weights : list Q := [1; 8 # 10; 6 # 10; 4 # 10; 2 # 10].
Definition rsrp_weights : list Q := [1; 8 # 10; 6 # 10; 4 # 10; 2 # 10].

Definition Qsum (l : list Q) : Q := fold_left Qplus l 0.

Definition weighted (values weights : list Q) : Q :=
  Qsum (map (fun vw => fst vw * snd vw) (combine values weights)).

(** The five counts of [rsrp_counts], lines 102-113, as written. *)
Definition rsrp_counts (rsrp_values : list Q) : list Z :=
  let below_105_count := count_if (fun v => Qltb v (-105)) rsrp_values in
  [ count_if (fun v => Qle_bool (-70) v && Qltb (-40) v) rsrp_values;
    count_if (fun v => Qle_bool (-85) v && Qltb v (-70)) rsrp_values;
    count_if (fun v => Qle_bool (-95) v && Qltb v (-85)) rsrp_values;
    count_if (fun v => Qle_bool (-105) v && Qltb v (-95)) rsrp_values;
    below_105_count ].

Definition coverage_status (poor_rsrp_count total_mr_points : Z) : string :=
  let poor_coverage_ratio := ratio_pct poor_rsrp_count total_mr_points in
  if Qltb 50 poor_coverage_ratio then "Poor Coverage" else "Good Coverage".

(** [process_cell], lines 27-158.  Nothing outside the inner [try] can raise
    on these row types, so the outer handler is never taken. *)
Definition process_cell (site_id cell_id : string) (ep_lat ep_lon : R)
    (carrier : string) (mr_data : list mr_row) : result_row :=
  let cell_mr :=
    filter (fun row => String.eqb (mr_site_id row) site_id
                       && String.eqb (mr_cell_id row) cell_id) mr_data in
  match cell_mr with
  | [] => base_result site_id cell_id carrier
  | _ :: _ =>
    let total_mr_points := Z.of_nat (length cell_mr) in
    let '(distances, rsrp_values) := collect ep_lat ep_lon cell_mr in
    match distances with
    | [] => base_result site_id cell_id carrier
    | _ :: _ =>
      let coverage_stats :=
        map (fun range =>
               format_1f (ratio_pct
                 (count_if (fun d => Rleb (fst range) d && Rltb d (snd range)) distances)
                 total_mr_points))
            distance_ranges_finite
        ++ [format_1f (ratio_pct (count_if (fun d => Rleb 1000 d) distances)
                                 total_mr_points)] in
      let counts := rsrp_counts rsrp_values in
      let rsrp_stats := map (fun c => format_1f (ratio_pct c total_mr_points)) counts in
      let coverage_values := map parse_pct coverage_stats in
      let rsrp_values_pct := map parse_pct rsrp_stats in
      let weighted_coverage := weighted coverage_values distance_weights in
      let weighted_rsrp := weighted rsrp_values_pct rsrp_weights in
      let overall_score :=
        (weighted_coverage + weighted_rsrp) / (Qsum distance_weights + Qsum rsrp_weights) in
      let poor_rsrp_count := nth 4 counts 0%Z in
      {| res_site := site_id; res_cell := cell_id; res_carrier := carrier;
         res_coverage := coverage_stats;
         res_rsrp := rsrp_stats;
         res_overall := format_1f overall_score;
         res_total := total_mr_points;
         res_status := coverage_status poor_rsrp_count total_mr_points |}
    end
  end.

Definition no_ep_data (site_id cell_id carrier : string) : result_row :=
  {| res_site := site_id; res_cell := cell_id; res_carrier := carrier;
     res_coverage := [0; 0; 0; 0; 0]%Z;
     res_rsrp := [0; 0; 0; 0; 0]%Z;
     res_overall := 0%Z; res_total := 0%Z;
     res_status := "No EP Data" |}.

Definition combination : Type := string * string * string.

Definition combination_eqb (x y : combination) : bool :=
  let '(s1, c1, k1) := x in
  let '(s2, c2, k2) := y in
  String.eqb s1 s2 && String.eqb c1 c2 && String.eqb k1 k2.

(** [ep_data[[site, cell, carrier]].drop_duplicates()]. *)
Definition cell_combinations (ep_data : list ep_row) : list combination :=
  drop_duplicates combination_eqb
    (map (fun e => (ep_site_id e, ep_cell_id e, ep_carrier e)) ep_data).

(** Rows matching site and cell, carrier not compared (lines 200-203). *)
Definition ep_cell_data (ep_data : list ep_row) (site_id cell_id : string) : list ep_row :=
  filter (fun e => String.eqb (ep_site_id e) site_id
                   && String.eqb (ep_cell_id e) cell_id) ep_data.

(** Body of the per-cell [try], lines 195-232: the rows it appends. *)
Definition analyze_cell (mr_data : list mr_row) (ep_data : list ep_row)
    (row : combination) : outcome (list result_row) :=
  let '(site_id, cell_id, carrier) := row in
  match ep_cell_data ep_data site_id cell_id with
  | first :: _ =>
      ep_lat <- py_float (ep_latitude first) ;;
      ep_lon <- py_float (ep_longitude first) ;;
      let result := process_cell site_id cell_id ep_lat ep_lon carrier mr_data in
      Returned [result]
  | [] => Returned [no_ep_data site_id cell_id carrier]
  end.

(** [sort_values(['Site ID', 'Cell ID'])]. *)
Definition row_leb (x y : result_row) : bool :=
  match String.compare (res_site x) (res_site y) with
  | Lt => true
  | Gt => false
  | Eq => String.leb (res_cell x) (res_cell y)
  end.

(** [analyze_coverage], lines 177-257; the per-cell handler is
    [except: continue], which appends nothing. *)
Definition analyze_coverage (mr_data : list mr_row) (ep_data : list ep_row)
  : list result_row :=
  let results :=
    flat_map (fun row => try_except (analyze_cell mr_data ep_data row) (fun _ => []))
             (cell_combinations ep_data) in
  sort row_leb results.

(** *** [calculate_metrics], lines 259-296 *)

(** The dictionary the function returns.  [average_rsrp] is [None] for the
    NaN that the mean of an empty column gives. *)
Record metrics : Type := {
  total_cells : Z;
  poor_coverage_count : Z;
  poor_coverage_percentage : Q;
  average_rsrp : option Q;
  overshooting_count : Z;
  overshooting_percentage : Q
}.

(** [(count / total_cells * 100) if total_cells > 0 else 0]. *)
Definition share_of_cells (count total : Z) : Q :=
  if (0 <? total)%Z then inject_Z count / inject_Z total * 100 else 0.

(** [mr_data[mappings['MR RSRP']].astype(float)]: one text cell raises. *)
Fixpoint rsrp_column (mr_data : list mr_row) : outcome (list Q) :=
  match mr_data with
  | [] => Returned []
  | row :: rest =>
      v <- py_float (mr_rsrp row) ;;
      vs <- rsrp_column rest ;;
      Returned (v :: vs)
  end.

(** [Series.mean()]. *)
Definition series_mean (l : list Q) : option Q :=
  match l with
  | [] => None
  | _ :: _ => Some (Qsum l / inject_Z (Z.of_nat (length l)))
  end.

(** The printed [>1000m Coverage] value, [rstrip('%')] and [float], above 10. *)
Definition overshooting (r : result_row) : bool :=
  Qltb 10 (parse_pct (nth 4 (res_coverage r) 0%Z)).

Definition failed_metrics : metrics :=
  {| total_cells := 0; poor_coverage_count := 0; poor_coverage_percentage := 0;
     average_rsrp := Some 0; overshooting_count := 0; overshooting_percentage := 0 |}.

Definition calculate_metrics (result_df : list result_row) (mr_data : list mr_row)
  : metrics :=
  try_except
    (let total_cells_ := Z.of_nat (length result_df) in
     let poor_coverage_cells :=
       count_if (fun r => String.eqb (res_status r) "Poor Coverage") result_df in
     all_rsrp_values <- rsrp_column mr_data ;;
     let avg_rsrp := series_mean all_rsrp_values in
     let overshooting_cells := count_if overshooting result_df in
     Returned
       {| total_cells := total_cells_;
          poor_coverage_count := poor_coverage_cells;
          poor_coverage_percentage := share_of_cells poor_coverage_cells total_cells_;
          average_rsrp := avg_rsrp;
          overshooting_count := overshooting_cells;
          overshooting_percentage := share_of_cells overshooting_cells total_cells_ |})
    (fun _ => failed_metrics).

End CoverageCalculator.

(* ================================================================= *)
(** ** Properties of the coverage profiler *)

Module CoverageProps.
Import PyMath PyList CoverageCalculator.
Local Open Scope string_scope.

(** The MR rows [process_cell] selects: site and cell match, nothing else. *)
Definition cell_samples (site_id cell_id : string) (mr_data : list mr_row) : list mr_row :=
  filter (fun row => String.eqb (mr_site_id row) site_id
                     && String.eqb (mr_cell_id row) cell_id) mr_data.

(** RSRP values of the selected rows whose three numeric fields convert. *)
Definition valid_rsrp (ep_lat ep_lon : R) (rows : list mr_row) : list Q :=
  snd (collect ep_lat ep_lon rows).

(** Everything in a result row except the identifying columns. *)
Definition stats (r : result_row) : list pct * list pct * pct * Z * string :=
  (res_coverage r, res_rsrp r, res_overall r, res_total r, res_status r).

(** The strongest RSRP bin as the specification words it: (-70, -40]. *)
Definition spec_first_bin_count (rsrp_values : list Q) : Z :=
  count_if (fun v => Qltb (-70) v && Qle_bool v (-40)) rsrp_values.

Definition sample (site_id cell_id : string) (lat lon : R) (rsrp : Q) : mr_row :=
  {| mr_site_id := site_id; mr_cell_id := cell_id;
     mr_latitude := Num lat; mr_longitude := Num lon; mr_rsrp := Num rsrp |}.

Lemma collect_lengths ep_lat ep_lon rows :
  length (fst (collect ep_lat ep_lon rows)) = length (snd (collect ep_lat ep_lon rows)).
Proof.
  induction rows as [| row rest IH]; simpl; [reflexivity |].
  destruct (collect ep_lat ep_lon rest) as [ds rs].
  destruct (measurement ep_lat ep_lon row) as [[d r] | e]; simpl in *; congruence.
Qed.

Lemma ratio_above_50 (count total : Z) :
  (0 < total)%Z ->
  Qltb 50 (ratio_pct count total) = true <-> (total < 2 * count)%Z.
Proof.
  intros Ht. unfold Qltb, ratio_pct.
  rewrite negb_true_iff, <- not_true_iff_false, Qle_bool_iff.
  destruct total as [| t | t]; try lia.
  unfold Qle, Qdiv, Qmult, Qinv, inject_Z; cbn [Qnum Qden].
  rewrite ?Pos2Z.inj_mul. lia.
Qed.

Lemma coverage_status_poor (count total : Z) :
  (0 < total)%Z ->
  coverage_status count total = "Poor Coverage" <-> (total < 2 * count)%Z.
Proof.
  intros Ht. unfold coverage_status. cbv zeta.
  rewrite <- (ratio_above_50 count Ht).
  destruct (Qltb 50 (ratio_pct count total)); split; intros H;
    try reflexivity; discriminate.
Qed.

Lemma coverage_status_good (count total : Z) :
  (0 < total)%Z ->
  coverage_status count total = "Good Coverage" <-> (2 * count <= total)%Z.
Proof.
  intros Ht. unfold coverage_status. cbv zeta.
  pose proof (ratio_above_50 count Ht) as [Hr1 Hr2].
  destruct (Qltb 50 (ratio_pct count total)) eqn:E; split; intros H.
  - discriminate.
  - specialize (Hr1 eq_refl). lia.
  - destruct (Z.le_gt_cases (2 * count) total) as [Hle | Hgt]; [exact Hle |].
    assert (false = true) by (apply Hr2; lia). discriminate.
  - reflexivity.
Qed.

(** Shape of a computed row: status and total when a valid sample exists. *)
Lemma process_cell_status site_id cell_id ep_lat ep_lon carrier mr_data :
  let rows := cell_samples site_id cell_id mr_data in
  valid_rsrp ep_lat ep_lon rows <> [] ->
  let r := process_cell site_id cell_id ep_lat ep_lon carrier mr_data in
  res_total r = Z.of_nat (length rows) /\
  res_status r =
    coverage_status (count_if (fun v => Qltb v (-105)) (valid_rsrp ep_lat ep_lon rows))
                    (Z.of_nat (length rows)).
Proof.
  intros rows Hvalid. unfold process_cell. fold (cell_samples site_id cell_id mr_data).
  fold rows. unfold valid_rsrp in *.
  pose proof (collect_lengths ep_lat ep_lon rows) as Hlen.
  destruct rows as [| row0 rest] eqn:Erows.
  - simpl in Hvalid. congruence.
  - destruct (collect ep_lat ep_lon (row0 :: rest)) as [ds rs] eqn:Ec.
    simpl in Hvalid, Hlen.
    destruct ds as [| d ds'].
    + destruct rs; [congruence | discriminate].
    + cbv beta iota zeta delta [res_total res_status snd nth]. split; reflexivity.
Qed.

(** The row does not depend on the carrier beyond copying it. *)
Lemma process_cell_stats_carrier site_id cell_id ep_lat ep_lon carrier1 carrier2 mr_data :
  stats (process_cell site_id cell_id ep_lat ep_lon carrier1 mr_data)
  = stats (process_cell site_id cell_id ep_lat ep_lon carrier2 mr_data).
Proof.
  unfold process_cell.
  destruct (filter _ mr_data) as [| row0 rest]; [reflexivity |].
  destruct (collect ep_lat ep_lon (row0 :: rest)) as [ds rs].
  destruct ds;
    cbv beta iota zeta delta
      [stats base_result res_coverage res_rsrp res_overall res_total res_status];
    reflexivity.
Qed.

Lemma process_cell_ids site_id cell_id ep_lat ep_lon carrier mr_data :
  let r := process_cell site_id cell_id ep_lat ep_lon carrier mr_data in
  res_site r = site_id /\ res_cell r = cell_id /\ res_carrier r = carrier.
Proof.
  unfold process_cell.
  destruct (filter _ mr_data) as [| row0 rest]; [simpl; auto |].
  destruct (collect ep_lat ep_lon (row0 :: rest)) as [ds rs].
  destruct ds;
    cbv beta iota zeta delta [base_result res_site res_cell res_carrier]; auto.
Qed.

Lemma combination_eqb_eq x y : combination_eqb x y = true <-> x = y.
Proof.
  destruct x as [[s1 c1] k1], y as [[s2 c2] k2]. unfold combination_eqb.
  rewrite !andb_true_iff, !String.eqb_eq. split.
  - intros [[-> ->] ->]. reflexivity.
  - intros H. inversion H. auto.
Qed.

Lemma drop_duplicates_complete (l : list combination) x :
  In x l -> In x (drop_duplicates combination_eqb l).
Proof.
  induction l as [| y rest IH]; simpl; [tauto |].
  intros [-> | H]; [now left |].
  destruct (combination_eqb y x) eqn:E.
  - left. now apply combination_eqb_eq.
  - right. apply filter_In. split; [now apply IH | now rewrite E].
Qed.

Lemma analyze_coverage_In mr_data ep_data r :
  In r (analyze_coverage mr_data ep_data) <->
  exists row, In row (cell_combinations ep_data) /\
              In r (try_except (analyze_cell mr_data ep_data row) (fun _ => [])).
Proof.
  unfold analyze_coverage. rewrite sort_In, in_flat_map. reflexivity.
Qed.

(** Row count when every EP coordinate is numeric: one row per
    distinct (site, cell, carrier). *)
Lemma analyze_coverage_row_count mr_data ep_data :
  (forall e, In e ep_data -> exists lat lon,
       ep_latitude e = Num lat /\ ep_longitude e = Num lon) ->
  length (analyze_coverage mr_data ep_data) = length (cell_combinations ep_data).
Proof.
  intros Hnum. unfold analyze_coverage. rewrite sort_length.
  assert (Hall : forall row, In row (cell_combinations ep_data) ->
            length (try_except (analyze_cell mr_data ep_data row) (fun _ => [])) = 1%nat).
  { intros [[s c] k] _. unfold analyze_cell.
    destruct (ep_cell_data ep_data s c) as [| first rest] eqn:E; [reflexivity |].
    assert (Hin : In first ep_data).
    { assert (In first (ep_cell_data ep_data s c)) by (rewrite E; now left).
      unfold ep_cell_data in H. now apply filter_In in H. }
    destruct (Hnum first Hin) as (lat & lon & -> & ->). reflexivity. }
  induction (cell_combinations ep_data) as [| row rows IH]; [reflexivity |].
  simpl. rewrite length_app, Hall by (now left).
  rewrite IH by (intros; apply Hall; now right). reflexivity.
Qed.

(** What the mask of line 108 selects: the values above -40 dBm. *)
Lemma first_rsrp_count_above_minus_40 (rsrp_values : list Q) :
  nth 0 (rsrp_counts rsrp_values) 0%Z = count_if (fun v => Qltb (-40) v) rsrp_values.
Proof.
  unfold rsrp_counts. cbn [nth]. unfold count_if. f_equal. f_equal.
  apply filter_ext. intros v.
  destruct (Qltb (-40) v) eqn:E; [| apply andb_false_r].
  rewrite andb_true_r. apply Qle_bool_iff.
  unfold Qltb in E. apply negb_true_iff in E.
  destruct (Qlt_le_dec v (-70)) as [Hlt | Hge]; [| exact Hge].
  exfalso. assert (Hle : (v <= -40)%Q).
  { apply Qlt_le_weak. eapply Qlt_trans; [exact Hlt | reflexivity]. }
  apply Qle_bool_iff in Hle. congruence.
Qed.

(** C4 (the code departs from the claim).  One sample at -60 dBm belongs to
    the bin (-70,-40], so the first RSRP percentage should read 100.0%; the
    mask of line 108, [(v >= -70) & (v > -40)], selects only values above
    -40 dBm and the code prints 0.0%. *)
Theorem C4_first_rsrp_bin_skips_minus_60 :
  let mr_data := [sample "S1" "1" 0 0 (-60)] in
  let r := process_cell "S1" "1" 0 0 "L1800" mr_data in
  nth 0 (res_rsrp r) 0%Z = 0%Z /\
  format_1f (ratio_pct (spec_first_bin_count [(-60)%Q]) 1) = 1000%Z.
Proof. split; vm_compute; reflexivity. Qed.

(** A row is valid when its latitude, longitude and RSRP all convert. *)
Definition valid_row (row : mr_row) : bool :=
  match mr_latitude row, mr_longitude row, mr_rsrp row with
  | Num _, Num _, Num _ => true
  | _, _, _ => false
  end.

Definition rsrp_below_105 (row : mr_row) : bool :=
  match mr_rsrp row with
  | Num v => Qltb v (-105)
  | Bad _ => false
  end.

Lemma valid_rsrp_all_valid ep_lat ep_lon rows :
  forallb valid_row rows = true ->
  count_if (fun v => Qltb v (-105)) (valid_rsrp ep_lat ep_lon rows)
  = count_if rsrp_below_105 rows.
Proof.
  unfold valid_rsrp, count_if. intros Hall. f_equal.
  induction rows as [| row rest IH]; [reflexivity |].
  cbn [forallb] in Hall. apply andb_true_iff in Hall. destruct Hall as [Hrow Hrest].
  specialize (IH Hrest). cbn [collect filter].
  destruct (collect ep_lat ep_lon rest) as [ds rs].
  unfold valid_row in Hrow. unfold measurement, rsrp_below_105.
  destruct (mr_latitude row); [| discriminate].
  destruct (mr_longitude row); [| discriminate].
  destruct (mr_rsrp row) as [v |]; [| discriminate].
  cbn [py_float bind snd filter] in *.
  destruct (Qltb v (-105)); cbn [length]; rewrite IH; reflexivity.
Qed.

(** An MR row of cell S1/1 whose latitude cell holds text. *)
Definition text_latitude_sample (rsrp : Q) : mr_row :=
  {| mr_site_id := "S1"; mr_cell_id := "1";
     mr_latitude := Bad "n/a"; mr_longitude := Num 0%R; mr_rsrp := Num rsrp |}.

(** C5, the claim as stated fails.  Five MR rows of one cell: two at
    -110 dBm whose latitude is text, two valid ones at -110 dBm and a valid
    one at -60 dBm.  Four of the five samples are below -105 dBm (80%), and
    two of the three valid ones (66.7%); either way the claim's fraction is
    above 50%, yet the status is "Good Coverage": the loop skips the two text
    rows when it counts, and line 142 still divides by all five rows
    (2 / 5 = 40%). *)
Lemma C5_skipped_rows_stay_in_the_total :
  let mr_data := [text_latitude_sample (-110); text_latitude_sample (-110);
                  sample "S1" "1" 0 0 (-110); sample "S1" "1" 0 0 (-110);
                  sample "S1" "1" 0 0 (-60)] in
  let rows := cell_samples "S1" "1" mr_data in
  let valid := valid_rsrp 0 0 rows in
  valid <> [] /\
  (length rows = 5%nat /\ count_if rsrp_below_105 rows = 4%Z) /\
  (length valid = 3%nat /\ count_if (fun v => Qltb v (-105)) valid = 2%Z) /\
  res_status (process_cell "S1" "1" 0 0 "L1800" mr_data) = "Good Coverage".
Proof.
  cbv zeta. split; [discriminate |].
  split; [split; reflexivity |].
  split; [split; reflexivity |].
  vm_compute. reflexivity.
Qed.

(** C5, amended.  For a cell with at least one valid MR sample the status is
    "Poor Coverage" exactly when the samples below -105 dBm among the rows
    the measurement loop keeps are strictly more than half of all MR rows of
    the cell ([poor_coverage_ratio > 50], line 142: a row the loop skips is
    not counted but stays in the total), and "Good Coverage" otherwise, in
    particular at exactly 50%.  When every row of the cell is valid this is
    the fraction of the cell's samples with RSRP < -105. *)
Theorem C5_poor_coverage_iff_strict_majority
    (site_id cell_id carrier : string) (ep_lat ep_lon : R) (mr_data : list mr_row) :
  let rows := cell_samples site_id cell_id mr_data in
  let below_105 := count_if (fun v => Qltb v (-105)) (valid_rsrp ep_lat ep_lon rows) in
  let total := Z.of_nat (length rows) in
  let r := process_cell site_id cell_id ep_lat ep_lon carrier mr_data in
  valid_rsrp ep_lat ep_lon rows <> [] ->
  (res_status r = "Poor Coverage" <-> (total < 2 * below_105)%Z) /\
  (res_status r = "Good Coverage" <-> (2 * below_105 <= total)%Z) /\
  ((2 * below_105 = total)%Z -> res_status r = "Good Coverage") /\
  (forallb valid_row rows = true -> below_105 = count_if rsrp_below_105 rows).
Proof.
  intros rows below_105 total r Hvalid.
  destruct (process_cell_status site_id cell_id ep_lat ep_lon carrier mr_data Hvalid)
    as [_ Hst].
  fold rows in Hst. fold r in Hst. fold below_105 in Hst. fold total in Hst.
  assert (Ht : (0 < total)%Z).
  { unfold total. destruct rows; [| simpl; lia].
    exfalso. apply Hvalid. reflexivity. }
  rewrite Hst. repeat split.
  - apply coverage_status_poor; assumption.
  - apply coverage_status_poor; assumption.
  - apply coverage_status_good; assumption.
  - apply coverage_status_good; assumption.
  - intros E. apply coverage_status_good; [assumption | lia].
  - apply valid_rsrp_all_valid.
Qed.

Lemma C5_witness :
  let mr_data := [sample "S1" "1" 0 0 (-110); sample "S1" "1" 0 0 (-60)] in
  valid_rsrp 0 0 (cell_samples "S1" "1" mr_data) <> [] /\
  res_status (process_cell "S1" "1" 0 0 "L1800" mr_data) = "Good Coverage".
Proof.
  intros mr_data.
  assert (Hv : valid_rsrp 0 0 (cell_samples "S1" "1" mr_data) <> []) by discriminate.
  split; [exact Hv |].
  apply (proj1 (proj2 (proj2
    (C5_poor_coverage_iff_strict_majority "S1" "1" "L1800" 0 0 mr_data Hv)))).
  reflexivity.
Defined.

(** C7 (the code departs from the claim).  An EP row whose latitude does not
    convert makes [float()] raise inside the per-cell [try]; the handler of
    lines 234-236 is [continue], so no row is appended for that combination:
    one distinct (site, cell, carrier), zero result rows. *)
Theorem C7_unconvertible_latitude_drops_row :
  let ep_data := [ {| ep_site_id := "S1"; ep_cell_id := "1"; ep_carrier := "L1800";
                      ep_latitude := Bad "n/a"; ep_longitude := Num 0%R |} ] in
  length (cell_combinations ep_data) = 1%nat /\
  analyze_coverage [] ep_data = [].
Proof. split; reflexivity. Qed.

(** The counts behind the five distance percentages, lines 79-88. *)
Definition distance_counts (distances : list R) : list Z :=
  map (fun range => count_if (fun d => Rleb (fst range) d && Rltb d (snd range)) distances)
      distance_ranges_finite
  ++ [count_if (fun d => Rleb 1000 d) distances].

Definition valid_distances (ep_lat ep_lon : R) (rows : list mr_row) : list R :=
  fst (collect ep_lat ep_lon rows).

Lemma count_if_cons {A : Type} (p : A -> bool) (x : A) (l : list A) :
  count_if p (x :: l) = ((if p x then 1 else 0) + count_if p l)%Z.
Proof. unfold count_if. cbn [filter]. destruct (p x); cbn [length]; lia. Qed.

Lemma count_if_none {A : Type} (p : A -> bool) (l : list A) :
  (forall x, In x l -> p x = false) -> count_if p l = 0%Z.
Proof.
  intros H. unfold count_if. induction l as [| x rest IH]; [reflexivity |].
  cbn [filter]. rewrite (H x) by now left. apply IH. intros y Hy. apply H. now right.
Qed.

Lemma count_if_all {A : Type} (p : A -> bool) (l : list A) :
  (forall x, In x l -> p x = true) -> count_if p l = Z.of_nat (length l).
Proof.
  intros H. unfold count_if. induction l as [| x rest IH]; [reflexivity |].
  cbn [filter]. rewrite (H x) by now left. cbn [length].
  rewrite !Nat2Z.inj_succ. f_equal. apply IH. intros y Hy. apply H. now right.
Qed.

(** The row of a cell that has a valid sample. *)
Lemma process_cell_shares site_id cell_id ep_lat ep_lon carrier mr_data :
  let rows := cell_samples site_id cell_id mr_data in
  valid_rsrp ep_lat ep_lon rows <> [] ->
  let r := process_cell site_id cell_id ep_lat ep_lon carrier mr_data in
  let total := Z.of_nat (length rows) in
  res_coverage r
  = map (fun c => format_1f (ratio_pct c total))
        (distance_counts (valid_distances ep_lat ep_lon rows)) /\
  res_rsrp r
  = map (fun c => format_1f (ratio_pct c total)) (rsrp_counts (valid_rsrp ep_lat ep_lon rows)).
Proof.
  intros rows Hvalid. unfold process_cell. fold (cell_samples site_id cell_id mr_data).
  fold rows. unfold valid_rsrp, valid_distances in *.
  pose proof (collect_lengths ep_lat ep_lon rows) as Hlen.
  destruct rows as [| row0 rest] eqn:Erows.
  - simpl in Hvalid. congruence.
  - destruct (collect ep_lat ep_lon (row0 :: rest)) as [ds rs] eqn:Ec.
    cbn [fst snd] in Hvalid, Hlen |- *.
    destruct ds as [| d ds'].
    + destruct rs; [congruence | discriminate].
    + cbv beta iota zeta delta [res_coverage res_rsrp]. split; reflexivity.
Qed.

Lemma round_half_even_comp (q q' : Q) :
  q == q' -> round_half_even q = round_half_even q'.
Proof.
  intros E. unfold round_half_even. cbv zeta.
  rewrite (Qfloor_comp _ _ E).
  assert (E2 : q - inject_Z (Qfloor q') == q' - inject_Z (Qfloor q'))
    by (rewrite E; reflexivity).
  rewrite (Qcompare_comp _ _ E2 (1 # 2) (1 # 2) (Qeq_refl _)). reflexivity.
Qed.

(** The two shares that print the same in exact and in binary64 arithmetic:
    [0 / n * 100] is 0.0 and [n / n * 100] is 100.0. *)
Lemma format_none (total : Z) : (0 < total)%Z -> format_1f (ratio_pct 0 total) = 0%Z.
Proof. intros Ht. destruct total as [| t | t]; try lia. reflexivity. Qed.

Lemma format_all (total : Z) : (0 < total)%Z -> format_1f (ratio_pct total total) = 1000%Z.
Proof.
  intros Ht. unfold format_1f, ratio_pct.
  rewrite (@round_half_even_comp _ (inject_Z 1000)); [reflexivity |].
  assert (Hn : ~ inject_Z total == 0).
  { unfold Qeq, inject_Z. cbn [Qnum Qden]. lia. }
  field. exact Hn.
Qed.

(** The distance the loop stores for a row, line 62; 0 stands for a row
    whose coordinates are text, which the loop skips. *)
Definition row_distance (ep_lat ep_lon : R) (row : mr_row) : R :=
  match mr_latitude row, mr_longitude row with
  | Num lat, Num lon => calculate_distance ep_lat ep_lon lat lon
  | _, _ => 0%R
  end.

Lemma collect_all_valid ep_lat ep_lon rows :
  forallb valid_row rows = true ->
  valid_distances ep_lat ep_lon rows = map (row_distance ep_lat ep_lon) rows.
Proof.
  unfold valid_distances. intros Hall.
  induction rows as [| row rest IH]; [reflexivity |].
  cbn [forallb] in Hall. apply andb_true_iff in Hall. destruct Hall as [Hrow Hrest].
  specialize (IH Hrest). cbn [collect map].
  destruct (collect ep_lat ep_lon rest) as [ds rs].
  unfold valid_row in Hrow. unfold measurement, row_distance.
  destruct (mr_latitude row); [| discriminate].
  destruct (mr_longitude row); [| discriminate].
  destruct (mr_rsrp row) as [v |]; [| discriminate].
  cbn [py_float bind fst] in *. now rewrite IH.
Qed.

Lemma distance_counts_far (ds : list R) :
  (forall d, In d ds -> (1000 <= d)%R) ->
  distance_counts ds = [0; 0; 0; 0; Z.of_nat (length ds)]%Z.
Proof.
  intros H. unfold distance_counts, distance_ranges_finite. cbn [map app fst snd].
  repeat (f_equal;
          [apply count_if_none; intros d Hd; specialize (H d Hd);
           apply andb_false_iff; right; apply Rltb_false; lra |]).
  f_equal. apply count_if_all. intros d Hd. apply Rleb_true. auto.
Qed.

Lemma distance_counts_near (ds : list R) :
  (forall d, In d ds -> (0 <= d < 300)%R) ->
  distance_counts ds = [Z.of_nat (length ds); 0; 0; 0; 0]%Z.
Proof.
  intros H. unfold distance_counts, distance_ranges_finite. cbn [map app fst snd].
  f_equal.
  { apply count_if_all. intros d Hd. specialize (H d Hd).
    apply andb_true_iff. split; [apply Rleb_true | apply Rltb_true]; lra. }
  repeat (f_equal;
          [apply count_if_none; intros d Hd; specialize (H d Hd);
           apply andb_false_iff; left; apply Rleb_false; lra |]).
  f_equal. apply count_if_none. intros d Hd. specialize (H d Hd).
  apply Rleb_false. lra.
Qed.

(** In a table [before ++ first :: after] where no row of [before] has the
    site and the cell of [first], the selection of lines 200-203 starts with
    [first]. *)
Lemma first_matching_row (before after : list ep_row) (first : ep_row) :
  (forall e, In e before ->
     ~ (ep_site_id e = ep_site_id first /\ ep_cell_id e = ep_cell_id first)) ->
  ep_cell_data (before ++ first :: after)%list (ep_site_id first) (ep_cell_id first)
  = first :: ep_cell_data after (ep_site_id first) (ep_cell_id first).
Proof.
  intros Hnone. unfold ep_cell_data. rewrite filter_app.
  assert (E : filter (fun e => String.eqb (ep_site_id e) (ep_site_id first)
                               && String.eqb (ep_cell_id e) (ep_cell_id first)) before = []).
  { induction before as [| e rest IH]; [reflexivity |].
    cbn [filter].
    destruct (String.eqb (ep_site_id e) (ep_site_id first)
              && String.eqb (ep_cell_id e) (ep_cell_id first)) eqn:Em.
    - apply andb_true_iff in Em. destruct Em as [E1 E2].
      apply String.eqb_eq in E1, E2. exfalso. apply (Hnone e); [now left | auto].
    - apply IH. intros e' He'. apply Hnone. now right. }
  rewrite E. cbn [app filter]. rewrite !String.eqb_refl. reflexivity.
Qed.

(** C10.  Two EP rows with the same site and cell but different carriers.
    [first] is the first EP row of the table, in table order, with that site
    and cell (no row before it has both).  Both result rows are in the table
    and are what [process_cell] computes from the coordinates of [first];
    all their statistics coincide, and every result row of that site and
    cell carries them.  The statistics are those of all MR rows with that
    site and cell, whatever the carrier: as soon as one of them is valid the
    total is their number; when all of them are valid, the status is
    "Poor Coverage" exactly when more than half of them are below -105 dBm;
    when in addition every one of them is at least 1000 m from the
    coordinates of [first], the five distance percentages read 0.0%, 0.0%,
    0.0%, 0.0%, 100.0%, and when every one is less than 300 m from them,
    100.0%, 0.0%, 0.0%, 0.0%, 0.0%. *)
Theorem C10_same_cell_other_carrier_same_statistics
    (mr_data : list mr_row) (before after : list ep_row) (first e1 e2 : ep_row)
    (lat0 lon0 : R) :
  let ep_data := (before ++ first :: after)%list in
  let site_id := ep_site_id first in
  let cell_id := ep_cell_id first in
  (forall e, In e before -> ~ (ep_site_id e = site_id /\ ep_cell_id e = cell_id)) ->
  ep_latitude first = Num lat0 -> ep_longitude first = Num lon0 ->
  In e1 ep_data -> In e2 ep_data ->
  ep_site_id e1 = site_id -> ep_cell_id e1 = cell_id ->
  ep_site_id e2 = site_id -> ep_cell_id e2 = cell_id ->
  ep_carrier e1 <> ep_carrier e2 ->
  let rows := cell_samples site_id cell_id mr_data in
  let r1 := process_cell site_id cell_id lat0 lon0 (ep_carrier e1) mr_data in
  let r2 := process_cell site_id cell_id lat0 lon0 (ep_carrier e2) mr_data in
  (In r1 (analyze_coverage mr_data ep_data) /\
   In r2 (analyze_coverage mr_data ep_data)) /\
  stats r1 = stats r2 /\
  (forall r, In r (analyze_coverage mr_data ep_data) ->
             res_site r = site_id -> res_cell r = cell_id -> stats r = stats r1) /\
  (valid_rsrp lat0 lon0 rows <> [] ->
   res_total r1 = Z.of_nat (length rows) /\ res_total r2 = Z.of_nat (length rows)) /\
  (rows <> [] -> forallb valid_row rows = true ->
   res_total r1 = Z.of_nat (length rows) /\
   (res_status r1 = "Poor Coverage" <->
    (Z.of_nat (length rows) < 2 * count_if rsrp_below_105 rows)%Z) /\
   ((forall row, In row rows -> (1000 <= row_distance lat0 lon0 row)%R) ->
    res_coverage r1 = [0; 0; 0; 0; 1000]%Z) /\
   ((forall row, In row rows -> (0 <= row_distance lat0 lon0 row < 300)%R) ->
    res_coverage r1 = [1000; 0; 0; 0; 0]%Z)).
Proof.
  intros ep_data site_id cell_id Hnone Hlat Hlon H1 H2 Hs1 Hc1 Hs2 Hc2 Hk rows r1 r2.
  pose proof (first_matching_row before after first Hnone) as Hfirst.
  fold ep_data site_id cell_id in Hfirst.
  assert (Hrow : forall k, In (site_id, cell_id, k) (cell_combinations ep_data) ->
            try_except (analyze_cell mr_data ep_data (site_id, cell_id, k)) (fun _ => [])
            = [process_cell site_id cell_id lat0 lon0 k mr_data]).
  { intros k _. unfold analyze_cell.
    rewrite Hfirst, Hlat, Hlon. reflexivity. }
  assert (Hin : forall e, In e ep_data -> ep_site_id e = site_id -> ep_cell_id e = cell_id ->
            In (process_cell site_id cell_id lat0 lon0 (ep_carrier e) mr_data)
               (analyze_coverage mr_data ep_data)).
  { intros e He Es Ec. apply analyze_coverage_In.
    assert (Hcomb : In (site_id, cell_id, ep_carrier e) (cell_combinations ep_data)).
    { apply drop_duplicates_complete. apply in_map_iff. exists e. split; [| exact He].
      now rewrite Es, Ec. }
    exists (site_id, cell_id, ep_carrier e). split; [exact Hcomb |].
    rewrite (Hrow _ Hcomb). now left. }
  split; [split; apply Hin; auto |].
  split; [apply process_cell_stats_carrier |].
  split; [| split].
  - intros r Hr Es Ec. apply analyze_coverage_In in Hr.
    destruct Hr as ([[s c] k] & Hcomb & Hr).
    assert (Hsc : s = site_id /\ c = cell_id).
    { unfold analyze_cell in Hr.
      destruct (ep_cell_data ep_data s c) as [| f0 rest0].
      - simpl in Hr. destruct Hr as [<- | []]. simpl in Es, Ec. auto.
      - destruct (ep_latitude f0); simpl in Hr; [| contradiction].
        destruct (ep_longitude f0); simpl in Hr; [| contradiction].
        destruct Hr as [<- | []].
        destruct (process_cell_ids s c x x0 k mr_data) as (E1 & E2 & _).
        rewrite E1 in Es. rewrite E2 in Ec. auto. }
    destruct Hsc as [-> ->].
    rewrite (Hrow _ Hcomb) in Hr. destruct Hr as [<- | []].
    apply process_cell_stats_carrier.
  - intros Hvalid. split.
    + apply (process_cell_status site_id cell_id lat0 lon0 (ep_carrier e1) mr_data Hvalid).
    + apply (process_cell_status site_id cell_id lat0 lon0 (ep_carrier e2) mr_data Hvalid).
  - intros Hrows Hall.
    pose proof (collect_all_valid lat0 lon0 rows Hall) as Hds.
    assert (Hlen : length (valid_rsrp lat0 lon0 rows) = length rows).
    { unfold valid_rsrp. rewrite <- collect_lengths.
      fold (valid_distances lat0 lon0 rows). rewrite Hds. apply length_map. }
    assert (Hvalid : valid_rsrp lat0 lon0 rows <> []).
    { intros E. rewrite E in Hlen. destruct rows; [now apply Hrows | discriminate]. }
    assert (Ht : (0 < Z.of_nat (length rows))%Z).
    { destruct rows; [now elim Hrows | simpl; lia]. }
    destruct (process_cell_status site_id cell_id lat0 lon0 (ep_carrier e1) mr_data Hvalid)
      as [Htot Hst].
    destruct (process_cell_shares site_id cell_id lat0 lon0 (ep_carrier e1) mr_data Hvalid)
      as [Hcov _].
    fold rows in Htot, Hst, Hcov. fold r1 in Htot, Hst, Hcov.
    split; [exact Htot |]. split; [| split].
    + rewrite Hst, (valid_rsrp_all_valid lat0 lon0 rows Hall).
      apply coverage_status_poor. exact Ht.
    + intros Hfar. rewrite Hcov, Hds, distance_counts_far.
      * rewrite length_map. cbn [map].
        rewrite format_none, format_all by exact Ht. reflexivity.
      * intros d Hd. apply in_map_iff in Hd. destruct Hd as (row & <- & Hrow'). auto.
    + intros Hnear. rewrite Hcov, Hds, distance_counts_near.
      * rewrite length_map. cbn [map].
        rewrite format_none, format_all by exact Ht. reflexivity.
      * intros d Hd. apply in_map_iff in Hd. destruct Hd as (row & <- & Hrow'). auto.
Qed.

End CoverageProps.

(* ================================================================= *)
(** ** neighbor_audit_window.py: class NeighborCalculator *)

Module NeighborCalculator.
Import PyMath PyList.
Local Open Scope R_scope.

Record ep_row : Type := {
  ep_site_id : string;
  ep_cell_id : string;
  ep_carrier : string;
  ep_latitude : raw R;
  ep_longitude : raw R;
  ep_azimuth : raw R
}.

Record neighbor_row : Type := {
  serving_site : string;
  serving_cell : string;
  neighbor_site : string;
  neighbor_cell : string;
  distance : R;
  azimuth_difference : R;
  neighbor_type : string;
  serving_carrier : string;
  neighbor_carrier : string
}.

(** [calculate_distance], lines 212-224: metres, no handler. *)
Definition calculate_distance (lat1 lon1 lat2 lon2 : R) : outcome R :=
  let R_ := 6371000 in
  let lat1 := radians lat1 in
  let lon1 := radians lon1 in
  let lat2 := radians lat2 in
  let lon2 := radians lon2 in
  let dlat := lat2 - lat1 in
  let dlon := lon2 - lon1 in
  let a := (sin (dlat / 2)) ^ 2 + cos lat1 * cos lat2 * (sin (dlon / 2)) ^ 2 in
  sa <- py_sqrt a ;;
  sb <- py_sqrt (1 - a) ;;
  let c := 2 * atan2 sa sb in
  Returned (R_ * c).

(** [calculate_azimuth_difference], lines 226-229. *)
Definition calculate_azimuth_difference (az1 az2 : R) : R :=
  let diff := Rabs (az1 - az2) in
  Rmin diff (360 - diff).

(** Nearest integer, halves to even. *)
Definition round_half_even (x : R) : Z :=
  let f := Int_part x in
  if Rlt_dec (x - IZR f) (1 / 2) then f
  else if Rlt_dec (1 / 2) (x - IZR f) then (f + 1)%Z
  else if Z.even f then f else (f + 1)%Z.

(** [round(x, 2)]. *)
Definition round2 (x : R) : R := IZR (round_half_even (x * 100)) / 100.

(** Body of the inner [try], lines 254-283: the rows appended to
    [cell_neighbors] for one neighbour cell. *)
Definition candidate (search_radius : R) (serving_cell neighbor_cell : ep_row)
  : outcome (list neighbor_row) :=
  lat1 <- py_float (ep_latitude serving_cell) ;;
  lon1 <- py_float (ep_longitude serving_cell) ;;
  lat2 <- py_float (ep_latitude neighbor_cell) ;;
  lon2 <- py_float (ep_longitude neighbor_cell) ;;
  distance <- calculate_distance lat1 lon1 lat2 lon2 ;;
  if Rleb distance search_radius then
    az1 <- py_float (ep_azimuth serving_cell) ;;
    az2 <- py_float (ep_azimuth neighbor_cell) ;;
    let azimuth_diff := calculate_azimuth_difference az1 az2 in
    let neighbor_type :=
      if String.eqb (ep_carrier serving_cell) (ep_carrier neighbor_cell)
      then "Intra-Frequency"%string else "Inter-Frequency"%string in
    Returned
      [ {| serving_site := ep_site_id serving_cell;
           serving_cell := ep_cell_id serving_cell;
           neighbor_site := ep_site_id neighbor_cell;
           neighbor_cell := ep_cell_id neighbor_cell;
           distance := round2 distance;
           azimuth_difference := round2 azimuth_diff;
           neighbor_type := neighbor_type;
           serving_carrier := ep_carrier serving_cell;
           neighbor_carrier := ep_carrier neighbor_cell |} ]
  else Returned [].

(** [ep_data.iterrows()]: rows with their index. *)
Definition iterrows {A : Type} (l : list A) : list (nat * A) :=
  combine (seq 0 (length l)) l.

(** The inner loop, lines 251-286: candidates of one serving cell, in input
    order; a comparison that raises is skipped. *)
Definition collect_neighbors (ep_data : list ep_row) (search_radius : R)
    (idx1 : nat) (serving_cell : ep_row) : list neighbor_row :=
  flat_map
    (fun '(idx2, neighbor_cell) =>
       if Nat.eqb idx1 idx2 then []
       else try_except (candidate search_radius serving_cell neighbor_cell)
                       (fun _ => []))
    (iterrows ep_data).

(** [key=lambda x: x['Distance']]. *)
Definition distance_leb (x y : neighbor_row) : bool := Rleb (distance x) (distance y).

(** Lines 288-290: sort by the stored distance, keep [max_neighbors]. *)
Definition cell_neighbors (ep_data : list ep_row) (search_radius : R)
    (max_neighbors : Z) (idx1 : nat) (serving_cell : ep_row) : list neighbor_row :=
  slice_to (sort distance_leb (collect_neighbors ep_data search_radius idx1 serving_cell))
           max_neighbors.

(** [find_neighbors], lines 231-302, without a progress callback. *)
Definition find_neighbors (ep_data : list ep_row) (search_radius : R)
    (max_neighbors : Z) : list neighbor_row :=
  flat_map
    (fun '(idx1, serving_cell) =>
       cell_neighbors ep_data search_radius max_neighbors idx1 serving_cell)
    (iterrows ep_data).

End NeighborCalculator.

(* ================================================================= *)
(** ** Properties of the geodesic functions *)

Module GeoProps.
Import PyMath.
Local Open Scope R_scope.

Lemma coverage_distance_value (lat1 lon1 lat2 lon2 : R) :
  Returned (CoverageCalculator.calculate_distance lat1 lon1 lat2 lon2)
  = AzimuthUtils.calculate_distance lat1 lon1 lat2 lon2.
Proof.
  rewrite AzimuthUtils.calculate_distance_value. cbv zeta.
  unfold CoverageCalculator.calculate_distance.
  pose proof (AzimuthUtils.haversine_a_range
                (radians lat1) (radians lon1) (radians lat2) (radians lon2)) as Ha.
  unfold AzimuthUtils.haversine_a in *. cbv zeta in *.
  rewrite (AzimuthUtils.py_sqrt_nonneg) by lra. cbn [bind].
  rewrite (AzimuthUtils.py_sqrt_nonneg) by lra. cbn [bind try_except].
  reflexivity.
Qed.

Lemma radians_180 : radians 180 = PI.
Proof. unfold radians. field. Qed.

Lemma radians_0 : radians 0 = 0.
Proof. unfold radians. field. Qed.

Lemma radians_90 : radians 90 = PI / 2.
Proof. unfold radians. field. Qed.

Lemma radians_45 : radians 45 = PI / 4.
Proof. unfold radians. field. Qed.

Lemma degrees_radians x : degrees (radians x) = x.
Proof. unfold degrees, radians. field. apply PI_neq0. Qed.

Definition out_of_range (lat1 lon1 lat2 lon2 : R) : Prop :=
  Rabs lat1 > 90 \/ Rabs lat2 > 90 \/ Rabs lon1 > 180 \/ Rabs lon2 > 180.

Lemma haversine_a_half_turn : AzimuthUtils.haversine_a PI 0 0 0 = 1.
Proof.
  unfold AzimuthUtils.haversine_a. cbv zeta.
  replace ((0 - PI) / 2) with (- (PI / 2)) by field.
  replace ((0 - 0) / 2) with 0 by field.
  rewrite sin_neg, sin_PI2, sin_0. ring.
Qed.

Lemma distance_half_turn :
  AzimuthUtils.calculate_distance 180 0 0 0 = Returned (6371 * PI * 1000).
Proof.
  rewrite AzimuthUtils.calculate_distance_value. cbv zeta.
  rewrite radians_180, radians_0, haversine_a_half_turn.
  replace (1 - 1) with 0 by ring.
  rewrite sqrt_1, sqrt_0, atan2_pos_zero by lra.
  f_equal. field.
Qed.

(** C8, the claim as stated fails: latitude 180 is out of range, and the
    distance from (180, 0) to (0, 0) is half the circumference, not 0, in
    both variants of the function. *)
Lemma C8_out_of_range_distance_not_zero :
  out_of_range 180 0 0 0 /\
  AzimuthUtils.calculate_distance 180 0 0 0 = Returned (6371 * PI * 1000) /\
  CoverageCalculator.calculate_distance 180 0 0 0 = 6371 * PI * 1000 /\
  6371 * PI * 1000 <> 0.
Proof.
  pose proof PI_RGT_0 as Hpi.
  split; [| split; [| split]].
  - left. rewrite Rabs_pos_eq; lra.
  - apply distance_half_turn.
  - pose proof (coverage_distance_value 180 0 0 0) as H.
    rewrite distance_half_turn in H. now inversion H.
  - nra.
Qed.

Lemma atan2_pos_quadrant y x : 0 < y -> 0 <= x -> 0 < atan2 y x.
Proof.
  intros Hy Hx. pose proof PI_RGT_0 as Hpi. unfold atan2.
  destruct (Rlt_dec 0 x) as [Hx0 | Hx0].
  - rewrite <- atan_0. apply atan_increasing. apply Rdiv_lt_0_compat; assumption.
  - destruct (Rlt_dec x 0); [lra |].
    destruct (Rlt_dec 0 y); lra.
Qed.

(** C8, amended.  The function validates nothing: out-of-range coordinates
    enter the haversine term [a] of line 11 like any others, and lines 12-14
    depend on the coordinates through the computed [a] only.  Whenever that
    value lies in [0, 1], both variants return the haversine distance, which
    is between 0 and half the circumference and is 0 only for [a = 0].
    Whenever it lies outside [0, 1], [math.sqrt] raises [ValueError] in
    azimuth_utils.py, which has no handler, and the coverage profiler's
    handler answers 0.  In exact arithmetic [a] never leaves [0, 1]
    ([haversine_a_range]); in binary64 rounding puts it above 1 for some
    pairs of nearly antipodal points. *)
Theorem C8_distance_follows_the_haversine_term (lat1 lon1 lat2 lon2 a : R) :
  let a0 := AzimuthUtils.haversine_a (radians lat1) (radians lon1)
                                     (radians lat2) (radians lon2) in
  (AzimuthUtils.calculate_distance lat1 lon1 lat2 lon2
   = AzimuthUtils.distance_of_term a0 /\
   CoverageCalculator.calculate_distance lat1 lon1 lat2 lon2
   = CoverageCalculator.distance_of_term a0) /\
  (0 <= a <= 1 ->
   exists d : R,
     AzimuthUtils.distance_of_term a = Returned d /\
     CoverageCalculator.distance_of_term a = d /\
     d = 6371 * (2 * atan2 (sqrt a) (sqrt (1 - a))) * 1000 /\
     0 <= d <= 6371000 * PI /\
     (d = 0 <-> a = 0)) /\
  (a < 0 \/ 1 < a ->
   AzimuthUtils.distance_of_term a = Raised ValueError /\
   CoverageCalculator.distance_of_term a = 0).
Proof.
  intros a0. split; [split; reflexivity |]. split.
  - intros Ha.
    exists (6371 * (2 * atan2 (sqrt a) (sqrt (1 - a))) * 1000).
    unfold AzimuthUtils.distance_of_term, CoverageCalculator.distance_of_term. cbv zeta.
    rewrite (AzimuthUtils.py_sqrt_nonneg (x := a)) by lra. cbn [bind].
    rewrite (AzimuthUtils.py_sqrt_nonneg (x := 1 - a)) by lra. cbn [bind try_except].
    split; [reflexivity |]. split; [reflexivity |]. split; [reflexivity |].
    pose proof (atan2_quadrant (sqrt_pos a) (sqrt_pos (1 - a))) as [H0 H1].
    pose proof PI_RGT_0 as Hpi.
    split; [split; nra |]. split.
    + intros Hd. destruct (Req_dec a 0) as [E | E]; [exact E |].
      assert (Hs : 0 < sqrt a) by (apply sqrt_lt_R0; lra).
      pose proof (atan2_pos_quadrant Hs (sqrt_pos (1 - a))) as Hpos. nra.
    + intros ->. replace (1 - 0) with 1 by ring.
      rewrite sqrt_0, sqrt_1, atan2_zero_pos by lra. ring.
  - intros Ha.
    unfold AzimuthUtils.distance_of_term, CoverageCalculator.distance_of_term, py_sqrt.
    cbv zeta.
    destruct (Rlt_dec a 0) as [Hneg | Hpos]; [split; reflexivity |].
    cbn [bind].
    destruct (Rlt_dec (1 - a) 0) as [Hbig | Hsmall]; [split; reflexivity | lra].
Qed.

(** A term of 2 raises in azimuth_utils.py and gives 0 in the coverage
    profiler; a term of 1 (two antipodal points) gives the same distance in
    both, and not 0. *)
Lemma C8_witness :
  (1 < 2 /\
   AzimuthUtils.distance_of_term 2 = Raised ValueError /\
   CoverageCalculator.distance_of_term 2 = 0) /\
  (0 <= 1 <= 1 /\
   exists d : R,
     AzimuthUtils.distance_of_term 1 = Returned d /\
     CoverageCalculator.distance_of_term 1 = d /\ d <> 0).
Proof.
  assert (H : 1 < 2) by lra.
  assert (H1 : 0 <= 1 <= 1) by lra.
  split.
  - split; [exact H |].
    exact (proj2 (proj2 (C8_distance_follows_the_haversine_term 0 0 0 0 2)) (or_intror H)).
  - split; [exact H1 |].
    destruct (proj1 (proj2 (C8_distance_follows_the_haversine_term 0 0 0 0 1)) H1)
      as (d & E1 & E2 & _ & _ & Hzero).
    exists d. split; [exact E1 |]. split; [exact E2 |].
    intros Hd. apply Hzero in Hd. lra.
Defined.

Lemma sin_cos_PI4_pos : 0 < sin (PI / 4) /\ cos (PI / 4) = sin (PI / 4).
Proof.
  rewrite sin_PI4, cos_PI4. split; [| reflexivity].
  apply Rdiv_lt_0_compat; [lra | apply sqrt_lt_R0; lra].
Qed.

Lemma azimuth_equator_to_45_90 : AzimuthUtils.calculate_azimuth 0 0 45 90 = 45.
Proof.
  unfold AzimuthUtils.calculate_azimuth. cbv zeta.
  rewrite radians_0, radians_45, radians_90.
  destruct sin_cos_PI4_pos as [Hpos Hcos].
  replace (PI / 2 - 0) with (PI / 2) by ring.
  rewrite sin_PI2, cos_PI2, cos_0, sin_0, Hcos.
  replace (1 * sin (PI / 4) - 0 * sin (PI / 4) * 0) with (sin (PI / 4)) by ring.
  rewrite atan2_pos_x by assumption.
  replace (1 * sin (PI / 4) / sin (PI / 4)) with 1 by (field; lra).
  rewrite atan_1.
  replace (degrees (PI / 4)) with 45 by (rewrite <- radians_45, degrees_radians; reflexivity).
  rewrite fmod_shift by lra. ring.
Qed.

Lemma azimuth_45_90_to_equator : AzimuthUtils.calculate_azimuth 45 90 0 0 = 270.
Proof.
  unfold AzimuthUtils.calculate_azimuth. cbv zeta.
  rewrite radians_0, radians_45, radians_90.
  replace (0 - PI / 2) with (- (PI / 2)) by ring.
  rewrite sin_neg, cos_neg, sin_PI2, cos_PI2, cos_0, sin_0.
  replace (cos (PI / 4) * 0 - sin (PI / 4) * 1 * 0) with 0 by ring.
  replace (- (1) * 1) with (- 1) by ring.
  rewrite atan2_neg_zero by lra.
  replace (degrees (- (PI / 2))) with (- 90)
    by (unfold degrees; field; apply PI_neq0).
  replace (- 90 + 360) with 270 by ring.
  apply fmod_small. lra.
Qed.

(** C9, the claim as stated fails: (0, 0) and (45, 90) are distinct and not
    antipodal, the bearing from the first to the second is 45, the bearing
    back is 270, and the two differ by 135 degrees. *)
Lemma C9_reciprocal_bearings_differ_by_135 :
  AzimuthUtils.calculate_azimuth 0 0 45 90 = 45 /\
  AzimuthUtils.calculate_azimuth 45 90 0 0 = 270 /\
  NeighborCalculator.calculate_azimuth_difference
    (AzimuthUtils.calculate_azimuth 0 0 45 90)
    (AzimuthUtils.calculate_azimuth 45 90 0 0) = 135 /\
  135 <> 180.
Proof.
  split; [apply azimuth_equator_to_45_90 |].
  split; [apply azimuth_45_90_to_equator |].
  split; [| lra].
  rewrite azimuth_equator_to_45_90, azimuth_45_90_to_equator.
  unfold NeighborCalculator.calculate_azimuth_difference. cbv zeta.
  rewrite Rabs_minus_sym.
  replace (270 - 45) with 225 by ring.
  rewrite Rabs_pos_eq by lra.
  rewrite Rmin_right by lra. ring.
Qed.

(** Bearings along a meridian: due north is 0, due south is 180. *)
Lemma azimuth_due_north (lat1 lat2 lon : R) :
  0 < lat2 - lat1 < 180 ->
  AzimuthUtils.calculate_azimuth lat1 lon lat2 lon = 0.
Proof.
  intros Hd. unfold AzimuthUtils.calculate_azimuth. cbv zeta.
  pose proof PI_RGT_0 as Hpi.
  replace (radians lon - radians lon) with 0 by ring.
  rewrite sin_0, cos_0.
  replace (cos (radians lat1) * sin (radians lat2)
           - sin (radians lat1) * cos (radians lat2) * 1)
    with (sin (radians lat2 - radians lat1)) by (rewrite sin_minus; ring).
  replace (0 * cos (radians lat2)) with 0 by ring.
  assert (Hs : 0 < sin (radians lat2 - radians lat1)).
  { apply sin_gt_0; unfold radians; nra. }
  rewrite atan2_zero_pos by assumption.
  replace (degrees 0) with 0 by (unfold degrees; field; apply PI_neq0).
  rewrite fmod_shift by lra. ring.
Qed.

Lemma azimuth_due_south (lat1 lat2 lon : R) :
  0 < lat1 - lat2 < 180 ->
  AzimuthUtils.calculate_azimuth lat1 lon lat2 lon = 180.
Proof.
  intros Hd. unfold AzimuthUtils.calculate_azimuth. cbv zeta.
  pose proof PI_RGT_0 as Hpi.
  replace (radians lon - radians lon) with 0 by ring.
  rewrite sin_0, cos_0.
  replace (cos (radians lat1) * sin (radians lat2)
           - sin (radians lat1) * cos (radians lat2) * 1)
    with (- sin (radians lat1 - radians lat2)) by (rewrite sin_minus; ring).
  replace (0 * cos (radians lat2)) with 0 by ring.
  assert (Hs : 0 < sin (radians lat1 - radians lat2)).
  { apply sin_gt_0; unfold radians; nra. }
  rewrite atan2_zero_neg by lra.
  replace (degrees PI) with 180 by (unfold degrees; field; apply PI_neq0).
  rewrite fmod_shift by lra. ring.
Qed.

Lemma radians_opp x : radians (- x) = - radians x.
Proof. unfold radians. field. Qed.

Lemma degrees_0 : degrees 0 = 0.
Proof. unfold degrees. field. apply PI_neq0. Qed.

Lemma degrees_PI : degrees PI = 180.
Proof. unfold degrees. field. apply PI_neq0. Qed.

Lemma degrees_PI2 : degrees (PI / 2) = 90.
Proof. unfold degrees. field. apply PI_neq0. Qed.

(** The bearing when one of the two terms is zero: the four compass points. *)
Lemma bearing_of_terms_north t : 0 < t -> AzimuthUtils.bearing_of_terms 0 t = 0.
Proof.
  intros Ht. unfold AzimuthUtils.bearing_of_terms. cbv zeta.
  rewrite atan2_zero_pos, degrees_0 by assumption.
  rewrite fmod_shift by lra. ring.
Qed.

Lemma bearing_of_terms_south t : t < 0 -> AzimuthUtils.bearing_of_terms 0 t = 180.
Proof.
  intros Ht. unfold AzimuthUtils.bearing_of_terms. cbv zeta.
  rewrite atan2_zero_neg, degrees_PI by assumption.
  rewrite fmod_shift by lra. ring.
Qed.

Lemma bearing_of_terms_east t : 0 < t -> AzimuthUtils.bearing_of_terms t 0 = 90.
Proof.
  intros Ht. unfold AzimuthUtils.bearing_of_terms. cbv zeta.
  rewrite atan2_pos_zero, degrees_PI2 by assumption.
  rewrite fmod_shift by lra. ring.
Qed.

Lemma bearing_of_terms_west t : t < 0 -> AzimuthUtils.bearing_of_terms t 0 = 270.
Proof.
  intros Ht. unfold AzimuthUtils.bearing_of_terms. cbv zeta.
  rewrite atan2_neg_zero by assumption.
  replace (degrees (- (PI / 2))) with (- 90)
    by (unfold degrees; field; apply PI_neq0).
  replace (- 90 + 360) with 270 by ring.
  apply fmod_small. lra.
Qed.

Lemma azimuth_difference_half_turn (az1 az2 : R) :
  Rabs (az1 - az2) = 180 ->
  NeighborCalculator.calculate_azimuth_difference az1 az2 = 180.
Proof.
  intros H. unfold NeighborCalculator.calculate_azimuth_difference. cbv zeta.
  rewrite H. apply Rmin_left. lra.
Qed.

(** C9, amended.  [calculate_azimuth] is [bearing_of_terms] (lines 22-24)
    of the two terms [(y, x)] of lines 20-21.  For two points on one
    meridian [y] is 0 in both directions and the two [x] are opposite; for
    two points on the equator [x] is 0 in both directions and the two [y] are
    opposite; for opposite latitudes both terms are opposite.  With one term
    0 and the other one, [t], not 0, the two bearings are 0 and 180, or 90
    and 270, and their angular difference is 180.  The other term is 0 as
    well for equal points and, in binary64, for latitudes (on a meridian) or
    longitudes (on the equator) so close that it cancels; nothing is claimed
    then. *)
Theorem C9_reciprocal_bearings_on_meridian_and_equator (lat1 lon1 lat2 lon2 : R) :
  let forth := AzimuthUtils.bearing_terms lat1 lon1 lat2 lon2 in
  let back := AzimuthUtils.bearing_terms lat2 lon2 lat1 lon1 in
  (AzimuthUtils.calculate_azimuth lat1 lon1 lat2 lon2
   = AzimuthUtils.bearing_of_terms (fst forth) (snd forth) /\
   AzimuthUtils.calculate_azimuth lat2 lon2 lat1 lon1
   = AzimuthUtils.bearing_of_terms (fst back) (snd back)) /\
  (lon1 = lon2 -> fst forth = 0 /\ fst back = 0 /\ snd back = - snd forth) /\
  (lat1 = 0 -> lat2 = 0 -> snd forth = 0 /\ snd back = 0 /\ fst back = - fst forth) /\
  (lat2 = - lat1 -> fst back = - fst forth /\ snd back = - snd forth) /\
  (forall t : R, 0 < t ->
     AzimuthUtils.bearing_of_terms 0 t = 0 /\
     AzimuthUtils.bearing_of_terms 0 (- t) = 180 /\
     AzimuthUtils.bearing_of_terms t 0 = 90 /\
     AzimuthUtils.bearing_of_terms (- t) 0 = 270) /\
  (forall t : R, t <> 0 ->
     NeighborCalculator.calculate_azimuth_difference
       (AzimuthUtils.bearing_of_terms 0 t) (AzimuthUtils.bearing_of_terms 0 (- t)) = 180 /\
     NeighborCalculator.calculate_azimuth_difference
       (AzimuthUtils.bearing_of_terms t 0) (AzimuthUtils.bearing_of_terms (- t) 0) = 180).
Proof.
  intros forth back.
  split; [split; reflexivity |].
  split; [| split; [| split; [| split]]].
  - intros <-. unfold forth, back, AzimuthUtils.bearing_terms. cbn [fst snd].
    replace (radians lon1 - radians lon1) with 0 by ring.
    rewrite sin_0, cos_0. repeat split; ring.
  - intros -> ->. unfold forth, back, AzimuthUtils.bearing_terms. cbn [fst snd].
    rewrite radians_0, sin_0, cos_0.
    replace (radians lon1 - radians lon2) with (- (radians lon2 - radians lon1)) by ring.
    rewrite sin_neg. repeat split; ring.
  - intros ->. unfold forth, back, AzimuthUtils.bearing_terms. cbn [fst snd].
    rewrite radians_opp, sin_neg, cos_neg.
    replace (radians lon1 - radians lon2) with (- (radians lon2 - radians lon1)) by ring.
    rewrite sin_neg, cos_neg. split; ring.
  - intros t Ht.
    split; [apply bearing_of_terms_north; lra |].
    split; [apply bearing_of_terms_south; lra |].
    split; [apply bearing_of_terms_east; lra | apply bearing_of_terms_west; lra].
  - intros t Ht. destruct (Rlt_le_dec 0 t) as [Hpos | Hneg].
    + rewrite (bearing_of_terms_north Hpos), (bearing_of_terms_east Hpos).
      rewrite (@bearing_of_terms_south (- t)), (@bearing_of_terms_west (- t)) by lra.
      split; apply azimuth_difference_half_turn.
      * replace (0 - 180) with (- (180)) by ring. rewrite Rabs_Ropp. apply Rabs_pos_eq. lra.
      * replace (90 - 270) with (- (180)) by ring. rewrite Rabs_Ropp. apply Rabs_pos_eq. lra.
    + assert (Hlt : t < 0) by lra.
      rewrite (bearing_of_terms_south Hlt), (bearing_of_terms_west Hlt).
      rewrite (@bearing_of_terms_north (- t)), (@bearing_of_terms_east (- t)) by lra.
      split; apply azimuth_difference_half_turn.
      * replace (180 - 0) with 180 by ring. apply Rabs_pos_eq. lra.
      * replace (270 - 90) with 180 by ring. apply Rabs_pos_eq. lra.
Qed.

(** In exact arithmetic two opposite term pairs give opposite bearings,
    whatever the pair: [atan2] of the opposite pair is [atan2] of the pair
    moved by half a turn.  (In binary64 [atan2] and [degrees] round, and the
    difference of the two bearings can miss 180 by a unit in the last place;
    the four compass points above are exact.) *)
Lemma atan2_opposite (y x : R) :
  x <> 0 \/ y <> 0 ->
  (0 < atan2 y x /\ atan2 (- y) (- x) = atan2 y x - PI) \/
  (atan2 y x <= 0 /\ atan2 (- y) (- x) = atan2 y x + PI).
Proof.
  intros Hnz. pose proof PI_RGT_0 as Hpi. unfold atan2.
  destruct (Rlt_dec 0 x) as [Hx | Hx].
  - assert (E : - y / - x = y / x) by (field; lra).
    destruct (Rlt_dec 0 (- x)); [lra |].
    destruct (Rlt_dec (- x) 0); [| lra].
    rewrite E.
    destruct (Rle_dec 0 (- y)) as [Hy | Hy].
    + right. split; [| reflexivity].
      destruct (Req_dec y 0) as [-> | Hy0].
      * replace (0 / x) with 0 by (field; lra). rewrite atan_0. lra.
      * rewrite <- atan_0. left. apply atan_increasing.
        assert (0 < - y / x) by (apply Rdiv_lt_0_compat; lra).
        replace (y / x) with (- (- y / x)) by (field; lra). lra.
    + left. split; [| reflexivity].
      rewrite <- atan_0. apply atan_increasing. apply Rdiv_lt_0_compat; lra.
  - destruct (Rlt_dec x 0) as [Hx' | Hx'].
    + assert (E : - y / - x = y / x) by (field; lra).
      destruct (Rlt_dec 0 (- x)); [| lra]. rewrite E.
      pose proof (atan_bound (y / x)) as [Hlo Hhi].
      destruct (Rle_dec 0 y) as [Hy | Hy].
      * left. split; [lra | ring].
      * right. split; [lra | ring].
    + assert (E0 : x = 0) by lra. subst x.
      replace (- 0) with 0 by ring.
      destruct (Rlt_dec 0 0); [lra |].
      destruct (Rlt_dec 0 y) as [Hy | Hy].
      * left. destruct (Rlt_dec 0 (- y)); [lra |].
        destruct (Rlt_dec (- y) 0); [| lra]. split; lra.
      * destruct (Rlt_dec y 0) as [Hy' | Hy']; [| lra].
        right. destruct (Rlt_dec 0 (- y)); [| lra]. split; lra.
Qed.

Lemma atan2_range (y x : R) : - PI < atan2 y x <= PI.
Proof.
  pose proof PI_RGT_0 as Hpi. unfold atan2.
  pose proof (atan_bound (y / x)) as [Hlo Hhi].
  destruct (Rlt_dec 0 x) as [Hx | Hx]; [lra |].
  destruct (Rlt_dec x 0) as [Hx' | Hx'].
  - assert (Hinv : / x < 0) by (apply Rinv_lt_0_compat; exact Hx').
    destruct (Rle_dec 0 y) as [Hy | Hy].
    + assert (Hq : y / x <= 0) by (unfold Rdiv; nra).
      assert (atan (y / x) <= 0).
      { destruct (Req_dec (y / x) 0) as [-> | Hne]; [rewrite atan_0; lra |].
        rewrite <- atan_0. left. apply atan_increasing. lra. }
      lra.
    + assert (Hq : 0 < y / x) by (unfold Rdiv; nra).
      assert (0 < atan (y / x)) by (rewrite <- atan_0; apply atan_increasing; exact Hq).
      lra.
  - destruct (Rlt_dec 0 y); [lra |].
    destruct (Rlt_dec y 0); lra.
Qed.

Lemma bearing_of_angle (theta : R) :
  - PI < theta <= PI ->
  (0 <= theta -> fmod (degrees theta + 360) 360 = degrees theta) /\
  (theta < 0 -> fmod (degrees theta + 360) 360 = degrees theta + 360).
Proof.
  intros [Hlo Hhi]. pose proof PI_RGT_0 as Hpi.
  assert (Hd : degrees theta = theta * (180 / PI)) by (unfold degrees; field; lra).
  assert (Hk : 0 < 180 / PI) by (apply Rdiv_lt_0_compat; lra).
  assert (Hpi180 : PI * (180 / PI) = 180) by (field; lra).
  split; intros Hs.
  - assert (0 <= degrees theta <= 180) by (rewrite Hd; split; nra).
    rewrite fmod_shift by lra. ring.
  - assert (- 180 < degrees theta < 0) by (rewrite Hd; split; nra).
    apply fmod_small. lra.
Qed.

Lemma opposite_terms_give_opposite_bearings (y x : R) :
  x <> 0 \/ y <> 0 ->
  NeighborCalculator.calculate_azimuth_difference
    (AzimuthUtils.bearing_of_terms y x) (AzimuthUtils.bearing_of_terms (- y) (- x)) = 180.
Proof.
  intros Hnz. pose proof PI_RGT_0 as Hpi.
  apply azimuth_difference_half_turn.
  unfold AzimuthUtils.bearing_of_terms. cbv zeta.
  pose proof (atan2_range y x) as Hr.
  pose proof (atan2_range (- y) (- x)) as Hr'.
  destruct (bearing_of_angle Hr) as [Hpos Hneg].
  destruct (bearing_of_angle Hr') as [Hpos' Hneg'].
  assert (Hshift : forall u, degrees (u + PI) = degrees u + 180)
    by (intros u; unfold degrees; field; lra).
  assert (Hshift' : forall u, degrees (u - PI) = degrees u - 180)
    by (intros u; unfold degrees; field; lra).
  destruct (atan2_opposite Hnz) as [[Hs E] | [Hs E]].
  - rewrite Hpos by lra.
    destruct (Req_dec (atan2 y x) PI) as [Epi | Hne].
    + rewrite Hpos' by lra. rewrite E, Hshift', Epi, degrees_PI.
      replace (180 - (180 - 180)) with 180 by ring. apply Rabs_pos_eq. lra.
    + rewrite Hneg' by lra. rewrite E, Hshift'.
      replace (degrees (atan2 y x) - (degrees (atan2 y x) - 180 + 360)) with (- (180)) by ring.
      rewrite Rabs_Ropp. apply Rabs_pos_eq. lra.
  - rewrite Hpos' by lra. rewrite E, Hshift.
    destruct (Req_dec (atan2 y x) 0) as [E0 | Hne].
    + rewrite Hpos by lra. rewrite E0, degrees_0.
      replace (0 - (0 + 180)) with (- (180)) by ring.
      rewrite Rabs_Ropp. apply Rabs_pos_eq. lra.
    + rewrite Hneg by lra.
      replace (degrees (atan2 y x) + 360 - (degrees (atan2 y x) + 180)) with 180 by ring.
      apply Rabs_pos_eq. lra.
Qed.

(** From latitude 10 to latitude 20 on the meridian of longitude 5, the term
    [x] is sin (10 degrees); from longitude 0 to longitude 10 on the equator,
    the term [y] is sin (10 degrees). *)
Lemma sin_10_degrees_pos : 0 < sin (radians 10).
Proof.
  pose proof PI_RGT_0 as Hpi. apply sin_gt_0; unfold radians; lra.
Qed.

Lemma meridian_term_10_20 : snd (AzimuthUtils.bearing_terms 10 5 20 5) <> 0.
Proof.
  unfold AzimuthUtils.bearing_terms. cbn [snd].
  replace (radians 5 - radians 5) with 0 by ring. rewrite cos_0.
  replace (cos (radians 10) * sin (radians 20) - sin (radians 10) * cos (radians 20) * 1)
    with (sin (radians 20 - radians 10)) by (rewrite sin_minus; ring).
  replace (radians 20 - radians 10) with (radians 10) by (unfold radians; field).
  pose proof sin_10_degrees_pos. lra.
Qed.

Lemma equator_term_0_10 : fst (AzimuthUtils.bearing_terms 0 0 0 10) <> 0.
Proof.
  unfold AzimuthUtils.bearing_terms. cbn [fst].
  rewrite radians_0, cos_0.
  replace (radians 10 - 0) with (radians 10) by ring.
  pose proof sin_10_degrees_pos. lra.
Qed.

Lemma C9_witness :
  NeighborCalculator.calculate_azimuth_difference
    (AzimuthUtils.calculate_azimuth 10 5 20 5)
    (AzimuthUtils.calculate_azimuth 20 5 10 5) = 180 /\
  NeighborCalculator.calculate_azimuth_difference
    (AzimuthUtils.calculate_azimuth 0 0 0 10)
    (AzimuthUtils.calculate_azimuth 0 10 0 0) = 180.
Proof.
  split.
  - destruct (C9_reciprocal_bearings_on_meridian_and_equator 10 5 20 5)
      as ([E1 E2] & Hmer & _ & _ & _ & Hdiff).
    rewrite E1, E2. destruct (Hmer eq_refl) as (Y1 & Y2 & X2).
    rewrite Y1, Y2, X2. exact (proj1 (Hdiff _ meridian_term_10_20)).
  - destruct (C9_reciprocal_bearings_on_meridian_and_equator 0 0 0 10)
      as ([E1 E2] & _ & Heq & _ & _ & Hdiff).
    rewrite E1, E2. destruct (Heq eq_refl eq_refl) as (X1 & X2 & Y2).
    rewrite X1, X2, Y2. exact (proj2 (Hdiff _ equator_term_0_10)).
Defined.

End GeoProps.

(* ================================================================= *)
(** ** Properties of the neighbour finder *)

Module NeighborProps.
Import PyMath PyList NeighborCalculator.
Local Open Scope R_scope.

Definition Reqb (x y : R) : bool := if Req_dec_T x y then true else false.

Lemma Reqb_true x y : Reqb x y = true <-> x = y.
Proof. unfold Reqb. destruct (Req_dec_T x y); split; intros; try discriminate; auto; contradiction. Qed.

(** The relation row the code builds for serving cell [s], neighbour [n],
    computed distance [d] and the two planned azimuths. *)
Definition relation_of (s n : ep_row) (d az1 az2 : R) : neighbor_row :=
  {| serving_site := ep_site_id s;
     serving_cell := ep_cell_id s;
     neighbor_site := ep_site_id n;
     neighbor_cell := ep_cell_id n;
     distance := round2 d;
     azimuth_difference := round2 (calculate_azimuth_difference az1 az2);
     neighbor_type :=
       if String.eqb (ep_carrier s) (ep_carrier n)
       then "Intra-Frequency"%string else "Inter-Frequency"%string;
     serving_carrier := ep_carrier s;
     neighbor_carrier := ep_carrier n |}.

(** [n], found at row [idx2], is a neighbour of the serving cell [s] of row
    [idx1] within [search_radius], and [rel] is its relation row. *)
Definition in_range_neighbor (ep_data : list ep_row) (search_radius : R)
    (idx1 : nat) (s : ep_row) (rel : neighbor_row) : Prop :=
  exists (idx2 : nat) (n : ep_row) (lat1 lon1 lat2 lon2 d az1 az2 : R),
    nth_error ep_data idx2 = Some n /\ idx2 <> idx1 /\
    ep_latitude s = Num lat1 /\ ep_longitude s = Num lon1 /\
    ep_latitude n = Num lat2 /\ ep_longitude n = Num lon2 /\
    calculate_distance lat1 lon1 lat2 lon2 = Returned d /\
    d <= search_radius /\
    ep_azimuth s = Num az1 /\ ep_azimuth n = Num az2 /\
    rel = relation_of s n d az1 az2.

Lemma candidate_In search_radius s n rel :
  In rel (try_except (candidate search_radius s n) (fun _ => [])) <->
  exists lat1 lon1 lat2 lon2 d az1 az2 : R,
    ep_latitude s = Num lat1 /\ ep_longitude s = Num lon1 /\
    ep_latitude n = Num lat2 /\ ep_longitude n = Num lon2 /\
    calculate_distance lat1 lon1 lat2 lon2 = Returned d /\
    d <= search_radius /\
    ep_azimuth s = Num az1 /\ ep_azimuth n = Num az2 /\
    rel = relation_of s n d az1 az2.
Proof.
  unfold candidate. split.
  - destruct (ep_latitude s) as [lat1 |]; cbn [py_float bind try_except]; [| intros []].
    destruct (ep_longitude s) as [lon1 |]; cbn [py_float bind try_except]; [| intros []].
    destruct (ep_latitude n) as [lat2 |]; cbn [py_float bind try_except]; [| intros []].
    destruct (ep_longitude n) as [lon2 |]; cbn [py_float bind try_except]; [| intros []].
    destruct (calculate_distance lat1 lon1 lat2 lon2) as [d |] eqn:Ed;
      cbn [bind try_except]; [| intros []].
    destruct (Rleb d search_radius) eqn:Er; cbn [try_except]; [| intros []].
    destruct (ep_azimuth s) as [az1 |]; cbn [py_float bind try_except]; [| intros []].
    destruct (ep_azimuth n) as [az2 |]; cbn [py_float bind try_except]; [| intros []].
    intros [<- | []].
    exists lat1, lon1, lat2, lon2, d, az1, az2.
    apply Rleb_true in Er. repeat split; auto.
  - intros (lat1 & lon1 & lat2 & lon2 & d & az1 & az2 &
            -> & -> & -> & -> & Ed & Hd & -> & -> & ->).
    cbn [py_float bind]. rewrite Ed. cbn [bind].
    apply Rleb_true in Hd. rewrite Hd. cbn [bind try_except]. now left.
Qed.

Lemma iterrows_In {A : Type} (l : list A) i x :
  In (i, x) (iterrows l) <-> nth_error l i = Some x.
Proof.
  unfold iterrows.
  assert (G : forall (l : list A) k i x,
             In (i, x) (combine (seq k (length l)) l) <->
             (k <= i)%nat /\ nth_error l (i - k) = Some x).
  { clear. induction l as [| y rest IH]; intros k i x; simpl.
    - split; [tauto |]. intros [_ H]. destruct (i - k)%nat; discriminate.
    - rewrite IH. split.
      + intros [E | [Hk Hn]].
        * inversion E; subst. rewrite Nat.sub_diag. simpl. auto.
        * split; [lia |]. replace (i - k)%nat with (S (i - S k)) by lia. exact Hn.
      + intros [Hk Hn]. destruct (Nat.eq_dec i k) as [-> | Hne].
        * rewrite Nat.sub_diag in Hn. simpl in Hn. left. congruence.
        * right. split; [lia |].
          replace (i - k)%nat with (S (i - S k)) in Hn by lia. exact Hn. }
  rewrite G. rewrite Nat.sub_0_r. split; [tauto | intros; split; [lia | assumption]].
Qed.

(** The candidates of a serving cell are exactly its in-range neighbours. *)
Lemma collect_neighbors_In ep_data search_radius idx1 s rel :
  In rel (collect_neighbors ep_data search_radius idx1 s) <->
  in_range_neighbor ep_data search_radius idx1 s rel.
Proof.
  unfold collect_neighbors, in_range_neighbor. rewrite in_flat_map. split.
  - intros ([idx2 n] & Hin & Hrel).
    destruct (Nat.eqb idx1 idx2) eqn:E; [destruct Hrel |].
    apply Nat.eqb_neq in E. apply candidate_In in Hrel.
    destruct Hrel as (lat1 & lon1 & lat2 & lon2 & d & az1 & az2 & H).
    exists idx2, n, lat1, lon1, lat2, lon2, d, az1, az2.
    apply iterrows_In in Hin. intuition congruence.
  - intros (idx2 & n & lat1 & lon1 & lat2 & lon2 & d & az1 & az2 & Hn & Hne & H).
    exists (idx2, n). split; [now apply iterrows_In |].
    assert (E : Nat.eqb idx1 idx2 = false) by (apply Nat.eqb_neq; congruence).
    rewrite E. apply candidate_In.
    exists lat1, lon1, lat2, lon2, d, az1, az2. exact H.
Qed.

Lemma distance_leb_total x y : distance_leb x y = true \/ distance_leb y x = true.
Proof.
  unfold distance_leb. destruct (Rle_lt_dec (distance x) (distance y)).
  - left. now apply Rleb_true.
  - right. apply Rleb_true. lra.
Qed.

Lemma distance_leb_trans x y z :
  distance_leb x y = true -> distance_leb y z = true -> distance_leb x z = true.
Proof. unfold distance_leb. rewrite !Rleb_true. lra. Qed.

Lemma relation_type s n d az1 az2 :
  let rel := relation_of s n d az1 az2 in
  (neighbor_type rel = "Intra-Frequency"%string <-> serving_carrier rel = neighbor_carrier rel) /\
  (neighbor_type rel = "Inter-Frequency"%string <-> serving_carrier rel <> neighbor_carrier rel).
Proof.
  simpl. destruct (String.eqb (ep_carrier s) (ep_carrier n)) eqn:E.
  - apply String.eqb_eq in E. split; split; intros; auto; try discriminate; contradiction.
  - apply String.eqb_neq in E. split; split; intros; auto; try discriminate; contradiction.
Qed.

Lemma sorted_by_distance l :
  StronglySorted (fun x y => distance_leb x y = true) l ->
  StronglySorted (fun x y => distance x <= distance y) l.
Proof.
  induction 1 as [| x rest Hs IH Hall]; constructor; [assumption |].
  eapply Forall_impl; [| exact Hall].
  intros y Hy. now apply Rleb_true.
Qed.

(** Distance from the origin along the prime meridian. *)
Lemma distance_on_meridian (lat : R) :
  0 <= radians lat < PI ->
  calculate_distance 0 0 lat 0 = Returned (6371000 * radians lat).
Proof.
  intros [H0 H1]. unfold calculate_distance. cbv zeta.
  replace (radians 0) with 0 by (unfold radians; field).
  set (h := radians lat / 2).
  replace ((radians lat - 0) / 2) with h by (unfold h; field).
  replace ((0 - 0) / 2) with 0 by field.
  rewrite sin_0, cos_0.
  replace (sin h ^ 2 + 1 * cos (radians lat) * 0 ^ 2) with (sin h ^ 2) by ring.
  assert (Hh : 0 <= h < PI / 2) by (unfold h; lra).
  assert (Hsin : 0 <= sin h) by (apply sin_ge_0; lra).
  assert (Hcos : 0 < cos h) by (apply cos_gt_0; lra).
  assert (Hone : 1 - sin h ^ 2 = cos h ^ 2).
  { pose proof (sin2_cos2 h) as E. unfold Rsqr in E. nra. }
  unfold py_sqrt.
  destruct (Rlt_dec (sin h ^ 2) 0) as [Hneg | _]; [nra |]. cbn [bind].
  destruct (Rlt_dec (1 - sin h ^ 2) 0) as [Hneg | _]; [nra |]. cbn [bind].
  rewrite Hone, !sqrt_pow2 by lra.
  rewrite atan2_pos_x by assumption.
  change (sin h / cos h) with (tan h).
  rewrite atan_tan by lra.
  f_equal. unfold h. field.
Qed.

Lemma round2_value (x : R) (z : Z) :
  IZR z <= x * 100 -> x * 100 - IZR z < 1 / 2 -> round2 x = IZR z / 100.
Proof.
  intros Hlo Hhi. unfold round2, round_half_even. cbv zeta.
  assert (Hz : z = Int_part (x * 100)) by (apply Int_part_spec; lra).
  rewrite <- Hz.
  destruct (Rlt_dec (x * 100 - IZR z) (1 / 2)); [reflexivity | contradiction].
Qed.

(** The latitude whose meridian distance from the origin is [d] metres. *)
Definition latitude_at (d : R) : R := degrees (d / 6371000).

Lemma radians_latitude_at d : radians (latitude_at d) = d / 6371000.
Proof. unfold latitude_at, radians, degrees. field. apply PI_neq0. Qed.

Lemma distance_to_latitude_at d :
  0 <= d < 6371000 ->
  calculate_distance 0 0 (latitude_at d) 0 = Returned d.
Proof.
  intros Hd. rewrite distance_on_meridian.
  - rewrite radians_latitude_at. f_equal. field.
  - rewrite radians_latitude_at. pose proof PI_RGT_0. pose proof PI_4 as Hpi4.
    assert (3 < PI).
    { pose proof PI2_3_2. unfold PI2 in *. lra. }
    split; [apply Rmult_le_pos; [lra | left; apply Rinv_0_lt_compat; lra] |].
    apply Rmult_lt_reg_r with 6371000; [lra |]. field_simplify. nra.
Qed.

Definition cell_at (name : string) (lat : R) : ep_row :=
  {| ep_site_id := name; ep_cell_id := name; ep_carrier := "L1800";
     ep_latitude := Num lat; ep_longitude := Num 0; ep_azimuth := Num 0 |}.

(** C6, the claim as stated fails.  Serving cell A at the origin, B1 at
    1.004 m and B2 at 1.001 m north of it, in this input order, radius
    5000 m, [max_neighbors] = 1.  Both stored distances are round(d, 2) =
    1.0, the sort sees a tie and keeps input order, and the one emitted
    neighbour is B1 although B2 is strictly nearer. *)
Lemma C6_rounded_tie_keeps_farther_neighbor :
  let A := cell_at "A" 0 in
  let B1 := cell_at "B1" (latitude_at (1004 / 1000)) in
  let B2 := cell_at "B2" (latitude_at (1001 / 1000)) in
  calculate_distance 0 0 (latitude_at (1004 / 1000)) 0 = Returned (1004 / 1000) /\
  calculate_distance 0 0 (latitude_at (1001 / 1000)) 0 = Returned (1001 / 1000) /\
  1001 / 1000 < 1004 / 1000 <= 5000 /\
  cell_neighbors [A; B1; B2] 5000 1 0 A = [relation_of A B1 (1004 / 1000) 0 0].
Proof.
  intros A B1 B2.
  assert (D1 : calculate_distance 0 0 (latitude_at (1004 / 1000)) 0 = Returned (1004 / 1000))
    by (apply distance_to_latitude_at; lra).
  assert (D2 : calculate_distance 0 0 (latitude_at (1001 / 1000)) 0 = Returned (1001 / 1000))
    by (apply distance_to_latitude_at; lra).
  split; [exact D1 |]. split; [exact D2 |]. split; [lra |].
  assert (C1 : try_except (candidate 5000 A B1) (fun _ => [])
               = [relation_of A B1 (1004 / 1000) 0 0]).
  { unfold candidate, A, B1, cell_at. cbn [py_float bind ep_latitude ep_longitude].
    rewrite D1. cbn [bind].
    replace (Rleb (1004 / 1000) 5000) with true by (symmetry; apply Rleb_true; lra).
    reflexivity. }
  assert (C2 : try_except (candidate 5000 A B2) (fun _ => [])
               = [relation_of A B2 (1001 / 1000) 0 0]).
  { unfold candidate, A, B2, cell_at. cbn [py_float bind ep_latitude ep_longitude].
    rewrite D2. cbn [bind].
    replace (Rleb (1001 / 1000) 5000) with true by (symmetry; apply Rleb_true; lra).
    reflexivity. }
  unfold cell_neighbors, collect_neighbors, iterrows.
  cbn [length seq combine flat_map Nat.eqb app].
  rewrite C1, C2. cbn [app sort insert].
  assert (R1 : round2 (1004 / 1000) = 1).
  { rewrite (round2_value (x := 1004 / 1000) 100); lra. }
  assert (R2 : round2 (1001 / 1000) = 1).
  { rewrite (round2_value (x := 1001 / 1000) 100); lra. }
  unfold distance_leb at 1. cbn [distance relation_of].
  rewrite R1, R2.
  replace (Rleb 1 1) with true by (symmetry; apply Rleb_true; lra).
  reflexivity.
Qed.

(** C6, amended.  For a serving cell [s] (row [idx1]) the emitted block is
    the first [max_neighbors] rows of the stable sort, by the stored distance
    (the geodesic distance rounded to two decimals), of its candidates; the
    candidates are exactly the rows of the other cells whose distance to [s]
    is at most [search_radius]; a row is Intra-Frequency exactly when the two
    carriers are equal and Inter-Frequency otherwise; and the result table is
    the concatenation of the blocks in input order. *)
Theorem C6_neighbors_sorted_by_stored_distance
    (ep_data : list ep_row) (search_radius : R) (max_neighbors : Z)
    (idx1 : nat) (s : ep_row) :
  (0 <= max_neighbors)%Z ->
  nth_error ep_data idx1 = Some s ->
  let candidates := collect_neighbors ep_data search_radius idx1 s in
  find_neighbors ep_data search_radius max_neighbors
  = concat (map (fun '(i, c) => cell_neighbors ep_data search_radius max_neighbors i c)
                (iterrows ep_data)) /\
  (forall rel, In rel candidates <-> in_range_neighbor ep_data search_radius idx1 s rel) /\
  (forall rel, In rel candidates ->
     (neighbor_type rel = "Intra-Frequency"%string <->
      serving_carrier rel = neighbor_carrier rel) /\
     (neighbor_type rel = "Inter-Frequency"%string <->
      serving_carrier rel <> neighbor_carrier rel)) /\
  exists sorted : list neighbor_row,
    cell_neighbors ep_data search_radius max_neighbors idx1 s
    = firstn (Z.to_nat max_neighbors) sorted /\
    Permutation candidates sorted /\
    StronglySorted (fun x y => distance x <= distance y) sorted /\
    (forall k : R, filter (fun r => Reqb (distance r) k) sorted
                   = filter (fun r => Reqb (distance r) k) candidates).
Proof.
  intros Hmax Hs candidates.
  split; [unfold find_neighbors; apply flat_map_concat_map |].
  split; [intros rel; apply collect_neighbors_In |].
  split.
  - intros rel Hrel. apply collect_neighbors_In in Hrel.
    destruct Hrel as (idx2 & n & lat1 & lon1 & lat2 & lon2 & d & az1 & az2 & H).
    decompose [and] H. subst rel. apply relation_type.
  - exists (sort distance_leb candidates). split; [| split; [| split]].
    + unfold cell_neighbors, slice_to. fold candidates.
      destruct (0 <=? max_neighbors)%Z eqn:E; [reflexivity |].
      apply Z.leb_gt in E. lia.
    + apply sort_perm.
    + apply sorted_by_distance, sort_sorted.
      * apply distance_leb_total.
      * apply distance_leb_trans.
    + intros k. apply sort_stable.
      intros x y Hx Hy. apply Reqb_true in Hx, Hy.
      unfold distance_leb. apply Rleb_true. lra.
Qed.

(** Serving cell A at the origin, B1 1000 m and B2 500 m north of it, in
    this input order, radius 5000 m, [max_neighbors] = 1: both are
    candidates, both relations are Intra-Frequency, and the one emitted
    neighbour is the nearer B2. *)
Lemma in_range_at (ep_data : list ep_row) (idx2 : nat) (name : string) (d : R) :
  0 <= d <= 5000 -> idx2 <> 0%nat ->
  nth_error ep_data idx2 = Some (cell_at name (latitude_at d)) ->
  in_range_neighbor ep_data 5000 0 (cell_at "A" 0)
    (relation_of (cell_at "A" 0) (cell_at name (latitude_at d)) d 0 0).
Proof.
  intros Hd Hidx Hn.
  exists idx2, (cell_at name (latitude_at d)), 0, 0, (latitude_at d), 0, d, 0, 0.
  repeat split; try reflexivity; try assumption; try lra.
  apply distance_to_latitude_at. lra.
Qed.

Lemma nearer_first :
  let A := cell_at "A" 0 in
  let B1 := cell_at "B1" (latitude_at 1000) in
  let B2 := cell_at "B2" (latitude_at 500) in
  cell_neighbors [A; B1; B2] 5000 1 0 A = [relation_of A B2 500 0 0].
Proof.
  intros A B1 B2.
  assert (D1 : calculate_distance 0 0 (latitude_at 1000) 0 = Returned 1000)
    by (apply distance_to_latitude_at; lra).
  assert (D2 : calculate_distance 0 0 (latitude_at 500) 0 = Returned 500)
    by (apply distance_to_latitude_at; lra).
  assert (C1 : try_except (candidate 5000 A B1) (fun _ => [])
               = [relation_of A B1 1000 0 0]).
  { unfold candidate, A, B1, cell_at. cbn [py_float bind ep_latitude ep_longitude].
    rewrite D1. cbn [bind].
    replace (Rleb 1000 5000) with true by (symmetry; apply Rleb_true; lra).
    reflexivity. }
  assert (C2 : try_except (candidate 5000 A B2) (fun _ => [])
               = [relation_of A B2 500 0 0]).
  { unfold candidate, A, B2, cell_at. cbn [py_float bind ep_latitude ep_longitude].
    rewrite D2. cbn [bind].
    replace (Rleb 500 5000) with true by (symmetry; apply Rleb_true; lra).
    reflexivity. }
  unfold cell_neighbors, collect_neighbors, iterrows.
  cbn [length seq combine flat_map Nat.eqb app].
  rewrite C1, C2. cbn [app sort insert].
  assert (R1 : round2 1000 = 1000).
  { rewrite (round2_value (x := 1000) 100000); lra. }
  assert (R2 : round2 500 = 500).
  { rewrite (round2_value (x := 500) 50000); lra. }
  unfold distance_leb at 1. cbn [distance relation_of].
  rewrite R1, R2.
  replace (Rleb 1000 500) with false by (symmetry; apply Rleb_false; lra).
  reflexivity.
Qed.

Lemma C6_witness :
  let A := cell_at "A" 0 in
  let B1 := cell_at "B1" (latitude_at 1000) in
  let B2 := cell_at "B2" (latitude_at 500) in
  let ep_data := [A; B1; B2] in
  let rel1 := relation_of A B1 1000 0 0 in
  let rel2 := relation_of A B2 500 0 0 in
  let candidates := collect_neighbors ep_data 5000 0 A in
  ((0 <= 1)%Z /\ nth_error ep_data 0 = Some A) /\
  (In rel1 candidates /\ In rel2 candidates) /\
  (neighbor_type rel1 = "Intra-Frequency"%string /\
   neighbor_type rel2 = "Intra-Frequency"%string) /\
  (exists sorted : list neighbor_row,
     [rel2] = firstn 1 sorted /\
     Permutation candidates sorted /\
     StronglySorted (fun x y => distance x <= distance y) sorted).
Proof.
  intros A B1 B2 ep_data rel1 rel2 candidates.
  assert (Hmax : (0 <= 1)%Z) by lia.
  assert (Hs : nth_error ep_data 0 = Some A) by reflexivity.
  destruct (@C6_neighbors_sorted_by_stored_distance ep_data 5000 1 0%nat A Hmax Hs)
    as (_ & Hcand & Htype & sorted & Hcut & Hperm & Hsorted & _).
  assert (H1 : In rel1 candidates).
  { apply Hcand. apply (@in_range_at ep_data 1 "B1" 1000); [lra | discriminate | reflexivity]. }
  assert (H2 : In rel2 candidates).
  { apply Hcand. apply (@in_range_at ep_data 2 "B2" 500); [lra | discriminate | reflexivity]. }
  split; [split; [exact Hmax | exact Hs] |].
  split; [split; [exact H1 | exact H2] |].
  split.
  - split; [apply (proj1 (Htype rel1 H1)) | apply (proj1 (Htype rel2 H2))]; reflexivity.
  - exists sorted. split; [| split; [exact Hperm | exact Hsorted]].
    transitivity (cell_neighbors ep_data 5000 1 0 A);
      [symmetry; exact nearer_first | exact Hcut].
Defined.

End NeighborProps.

(* ================================================================= *)
(** ** azimuth_utils.py: calculate_actual_azimuth_with_centroid *)

Module ActualAzimuth.
Import PyMath PyList.

Record ep_row : Type := {
  ep_site_id : string;
  ep_cell_id : string;
  ep_carrier : string;
  ep_latitude : raw R;
  ep_longitude : raw R
}.

Record mr_row : Type := {
  mr_site_id : string;
  mr_cell_id : string;
  mr_latitude : raw R;
  mr_longitude : raw R
}.

(** [try: m except Exception: h] where the handler is itself a computation. *)
Definition try_catch {A : Type} (m : outcome A) (h : exn -> outcome A) : outcome A :=
  match m with
  | Returned a => Returned a
  | Raised e => h e
  end.

(** A conversion or a call applied to every element; the first raise wins. *)
Fixpoint mapM {A B : Type} (f : A -> outcome B) (l : list A) : outcome (list B) :=
  match l with
  | [] => Returned []
  | x :: rest =>
      y <- f x ;;
      ys <- mapM f rest ;;
      Returned (y :: ys)
  end.

Definition EP_key (e : ep_row) : string := ep_site_id e ++ "_" ++ ep_cell_id e.
Definition MR_key (m : mr_row) : string := mr_site_id m ++ "_" ++ mr_cell_id m.

(** [dict(zip(ep_data[EP_key], ep_data[Carrier]))] applied by [.map]: the
    last EP row with the key decides; no row, no carrier. *)
Definition carrier_lookup (ep_data : list ep_row) (key : string) : option string :=
  fold_left (fun acc e => if String.eqb (EP_key e) key then Some (ep_carrier e) else acc)
            ep_data None.

Definition carrier_is (c : option string) (carrier : string) : bool :=
  match c with
  | Some c' => String.eqb c' carrier
  | None => false
  end.

(** [np.mean]. *)
Definition mean (l : list R) : R := (fold_right Rplus 0 l / INR (length l))%R.

(** [pd.Series(l).mode()[0]]: the most frequent value, the smallest one
    among equally frequent values. *)
Definition occurrences (x : Z) (l : list Z) : nat := length (filter (Z.eqb x) l).

Definition mode (l : list Z) : Z :=
  fold_left
    (fun best x =>
       if (occurrences best l <? occurrences x l)%nat then x
       else if (occurrences best l =? occurrences x l)%nat && (x <? best)%Z then x
       else best)
    l (hd 0%Z l).

(** Coordinates of the rows: [values.astype(float)]. *)
Definition astype_float (mr_points : list mr_row) : outcome (list (R * R)) :=
  mapM (fun row =>
          lat <- py_float (mr_latitude row) ;;
          lon <- py_float (mr_longitude row) ;;
          Returned (lat, lon))
       mr_points.

Section Estimator.

(** [DBSCAN(eps, min_samples).fit(coords).labels_] of scikit-learn: one
    label per point, -1 for noise.  The library is not part of the sources. *)
Variable DBSCAN : R -> Z -> list (R * R) -> outcome (list Z).

(** Lines 78-87: restrict to the dominant cluster when there is one of at
    least [min_points] points. *)
Definition main_lobe (min_points : Z) (coords : list (R * R)) : outcome (list (R * R)) :=
  if (100 <? length coords)%nat then
    labels <- DBSCAN (15 / 10000)%R 10%Z coords ;;
    let valid := filter (fun l => negb (l =? -1)%Z) labels in
    match valid with
    | [] => Returned coords
    | _ :: _ =>
        let main_label := mode valid in
        let cluster_coords :=
          map fst (filter (fun cl => (snd cl =? main_label)%Z) (combine coords labels)) in
        if (min_points <=? Z.of_nat (length cluster_coords))%Z
        then Returned cluster_coords else Returned coords
    end
  else Returned coords.

(** The body of the [try], lines 37-95.  The key columns the code adds to
    its arguments on the way are computed here where they are read. *)
Definition estimate (mr_data : list mr_row) (ep_data : list ep_row)
    (site_id cell_id carrier : string) (min_points : Z) (max_distance : R)
  : outcome (option R) :=
  let ep_rows :=
    filter (fun e => String.eqb (ep_site_id e) site_id
                     && String.eqb (ep_cell_id e) cell_id
                     && String.eqb (ep_carrier e) carrier) ep_data in
  match ep_rows with
  | [] => Returned None
  | ep_row :: _ =>
      ep_lat <- py_float (ep_latitude ep_row) ;;
      ep_lon <- py_float (ep_longitude ep_row) ;;
      let mr_points :=
        filter (fun m => String.eqb (mr_site_id m) site_id
                         && String.eqb (mr_cell_id m) cell_id
                         && carrier_is (carrier_lookup ep_data (MR_key m)) carrier)
               mr_data in
      if (Z.of_nat (length mr_points) <? min_points)%Z then Returned None
      else
        coords <- astype_float mr_points ;;
        dists <- mapM (fun c => AzimuthUtils.calculate_distance ep_lat ep_lon (fst c) (snd c))
                      coords ;;
        let coords :=
          map fst (filter (fun cd => Rltb (snd cd) max_distance) (combine coords dists)) in
        if (Z.of_nat (length coords) <? min_points)%Z then Returned None
        else
          coords <- main_lobe min_points coords ;;
          let centroid_lat := mean (map fst coords) in
          let centroid_lon := mean (map snd coords) in
          let actual_azimuth :=
            AzimuthUtils.calculate_azimuth ep_lat ep_lon centroid_lat centroid_lon in
          Returned (Some actual_azimuth)
  end.

(** [calculate_actual_azimuth_with_centroid], lines 27-99: [None] is the
    Insufficient sentinel, and the handler returns it for every exception. *)
Definition calculate_actual_azimuth_with_centroid (mr_data : list mr_row)
    (ep_data : list ep_row) (site_id cell_id carrier : string)
    (min_points : Z) (max_distance : R) : outcome (option R) :=
  try_catch (estimate mr_data ep_data site_id cell_id carrier min_points max_distance)
            (fun _ => Returned None).

(** The samples attributed to the cell (site, cell and looked-up carrier). *)
Definition attributed (mr_data : list mr_row) (ep_data : list ep_row)
    (site_id cell_id carrier : string) : list mr_row :=
  filter (fun m => String.eqb (mr_site_id m) site_id
                   && String.eqb (mr_cell_id m) cell_id
                   && carrier_is (carrier_lookup ep_data (MR_key m)) carrier)
         mr_data.

(** A sample lies within [max_distance] of the reference point, strictly
    ([strict = true], the code's test) or inclusively. *)
Definition within (strict : bool) (ep_lat ep_lon max_distance : R) (m : mr_row) : bool :=
  match mr_latitude m, mr_longitude m with
  | Num lat, Num lon =>
      match AzimuthUtils.calculate_distance ep_lat ep_lon lat lon with
      | Returned d => if strict then Rltb d max_distance else Rleb d max_distance
      | Raised _ => false
      end
  | _, _ => false
  end.

Lemma in_range_count ep_lat ep_lon max_distance mr_points coords dists :
  astype_float mr_points = Returned coords ->
  mapM (fun c => AzimuthUtils.calculate_distance ep_lat ep_lon (fst c) (snd c)) coords
  = Returned dists ->
  length (map fst (filter (fun cd => Rltb (snd cd) max_distance) (combine coords dists)))
  = length (filter (within true ep_lat ep_lon max_distance) mr_points).
Proof.
  revert coords dists.
  induction mr_points as [| m rest IH]; intros coords dists Hc Hd.
  - simpl in Hc. inversion Hc; subst. reflexivity.
  - unfold astype_float in Hc. simpl in Hc.
    destruct (mr_latitude m) as [lat |] eqn:Elat; simpl in Hc; [| discriminate].
    destruct (mr_longitude m) as [lon |] eqn:Elon; simpl in Hc; [| discriminate].
    fold (astype_float rest) in Hc.
    destruct (astype_float rest) as [coords' |] eqn:Er; simpl in Hc; [| discriminate].
    inversion Hc; subst coords. clear Hc.
    simpl in Hd.
    destruct (AzimuthUtils.calculate_distance ep_lat ep_lon lat lon) as [d |] eqn:Ed;
      simpl in Hd; [| discriminate].
    destruct (mapM _ coords') as [dists' |] eqn:Em; simpl in Hd; [| discriminate].
    inversion Hd; subst dists. clear Hd.
    specialize (IH coords' dists' eq_refl Em).
    assert (Hw : within true ep_lat ep_lon max_distance m = Rltb d max_distance).
    { unfold within. rewrite Elat, Elon, Ed. reflexivity. }
    cbn [combine filter snd]. rewrite Hw.
    destruct (Rltb d max_distance); cbn [map length]; rewrite IH; reflexivity.
Qed.

Lemma within_strict_inclusive ep_lat ep_lon max_distance m :
  within true ep_lat ep_lon max_distance m = true ->
  within false ep_lat ep_lon max_distance m = true.
Proof.
  unfold within.
  destruct (mr_latitude m); [| discriminate].
  destruct (mr_longitude m); [| discriminate].
  destruct (AzimuthUtils.calculate_distance ep_lat ep_lon x x0); [| discriminate].
  rewrite Rltb_true, Rleb_true. lra.
Qed.

Lemma filter_length_le {A : Type} (p q : A -> bool) (l : list A) :
  (forall x, p x = true -> q x = true) ->
  (length (filter p l) <= length (filter q l))%nat.
Proof.
  intros Hpq. induction l as [| x rest IH]; simpl; [lia |].
  destruct (p x) eqn:Px.
  - rewrite (Hpq x Px). simpl. lia.
  - destruct (q x); simpl; lia.
Qed.

(** The reference point: numeric coordinates of the first EP row of the
    cell (site, cell and carrier all match). *)
Definition reference_point (ep_data : list ep_row) (site_id cell_id carrier : string)
  : option (R * R) :=
  match filter (fun e => String.eqb (ep_site_id e) site_id
                         && String.eqb (ep_cell_id e) cell_id
                         && String.eqb (ep_carrier e) carrier) ep_data with
  | ep_row :: _ =>
      match ep_latitude ep_row, ep_longitude ep_row with
      | Num lat, Num lon => Some (lat, lon)
      | _, _ => None
      end
  | [] => None
  end.

Lemma estimate_few_in_range mr_data ep_data site_id cell_id carrier min_points
      max_distance ep_lat ep_lon :
  reference_point ep_data site_id cell_id carrier = Some (ep_lat, ep_lon) ->
  (Z.of_nat (length (filter (within true ep_lat ep_lon max_distance)
                            (attributed mr_data ep_data site_id cell_id carrier)))
   < min_points)%Z ->
  calculate_actual_azimuth_with_centroid mr_data ep_data site_id cell_id carrier
    min_points max_distance = Returned None.
Proof.
  intros Href Hfew.
  unfold calculate_actual_azimuth_with_centroid, estimate, reference_point in *.
  destruct (filter _ ep_data) as [| ep_row rest]; [reflexivity |].
  destruct (ep_latitude ep_row) as [lat |]; [| discriminate].
  destruct (ep_longitude ep_row) as [lon |]; [| discriminate].
  inversion Href; subst lat lon. clear Href.
  cbn [py_float bind].
  fold (attributed mr_data ep_data site_id cell_id carrier) in *.
  set (mr_points := attributed mr_data ep_data site_id cell_id carrier) in *.
  destruct (Z.of_nat (length mr_points) <? min_points)%Z; [reflexivity |].
  destruct (astype_float mr_points) as [coords |] eqn:Ec; [| reflexivity].
  cbn [bind].
  destruct (mapM _ coords) as [dists |] eqn:Ed; [| reflexivity].
  cbn [bind].
  rewrite (in_range_count ep_lat ep_lon max_distance mr_points Ec Ed).
  apply Z.ltb_lt in Hfew. rewrite Hfew. reflexivity.
Qed.

(** C3.  If fewer than [min_points] of the cell's samples lie within
    [max_distance] of the reference point (whether "within" is read as the
    code's strict [<] or as [<=]) the estimator returns the Insufficient
    sentinel [None]; it returns a value for every input, never raises; and
    whenever its body raises, the value returned is [None]. *)
Theorem C3_insufficient_or_failure_returns_none
    (mr_data : list mr_row) (ep_data : list ep_row) (site_id cell_id carrier : string)
    (min_points : Z) (max_distance : R) :
  let result := calculate_actual_azimuth_with_centroid mr_data ep_data site_id cell_id
                  carrier min_points max_distance in
  (forall (strict : bool) (ep_lat ep_lon : R),
     reference_point ep_data site_id cell_id carrier = Some (ep_lat, ep_lon) ->
     (Z.of_nat (length (filter (within strict ep_lat ep_lon max_distance)
                               (attributed mr_data ep_data site_id cell_id carrier)))
      < min_points)%Z ->
     result = Returned None) /\
  (exists v : option R, result = Returned v) /\
  (forall e : exn,
     estimate mr_data ep_data site_id cell_id carrier min_points max_distance = Raised e ->
     result = Returned None).
Proof.
  intros result. split; [| split].
  - intros strict ep_lat ep_lon Href Hfew. unfold result.
    apply estimate_few_in_range with (ep_lat := ep_lat) (ep_lon := ep_lon); [exact Href |].
    destruct strict; [exact Hfew |].
    pose proof (filter_length_le
                  (within true ep_lat ep_lon max_distance)
                  (within false ep_lat ep_lon max_distance)
                  (attributed mr_data ep_data site_id cell_id carrier)
                  (within_strict_inclusive ep_lat ep_lon max_distance)) as Hle.
    lia.
  - unfold result, calculate_actual_azimuth_with_centroid.
    destruct (estimate mr_data ep_data site_id cell_id carrier min_points max_distance)
      as [v | e]; [exists v | exists None]; reflexivity.
  - intros e He. unfold result, calculate_actual_azimuth_with_centroid.
    rewrite He. reflexivity.
Qed.

End Estimator.

(** A clustering that labels every point as noise. *)
Definition all_noise (eps : R) (min_samples : Z) (coords : list (R * R))
  : outcome (list Z) :=
  Returned (map (fun _ => (-1)%Z) coords).

Lemma C3_witness :
  let ep_data := [ {| ep_site_id := "S1"; ep_cell_id := "1"; ep_carrier := "L1800";
                      ep_latitude := Num 0%R; ep_longitude := Num 0%R |} ] in
  let mr_data := [ {| mr_site_id := "S1"; mr_cell_id := "1";
                      mr_latitude := Num 0%R; mr_longitude := Num 0%R |} ] in
  reference_point ep_data "S1" "1" "L1800" = Some (0%R, 0%R) /\
  calculate_actual_azimuth_with_centroid all_noise mr_data ep_data "S1" "1" "L1800"
    30 2000 = Returned None.
Proof.
  intros ep_data mr_data.
  assert (Href : reference_point ep_data "S1" "1" "L1800" = Some (0%R, 0%R)) by reflexivity.
  split; [exact Href |].
  apply (proj1 (C3_insufficient_or_failure_returns_none all_noise mr_data ep_data
                  "S1" "1" "L1800" 30 2000) true 0%R 0%R Href).
  assert (Hlen : (length (filter (within true 0 0 2000)
                            (attributed mr_data ep_data "S1" "1" "L1800")) <= 1)%nat).
  { change (attributed mr_data ep_data "S1" "1" "L1800") with mr_data.
    unfold mr_data. cbn [filter].
    destruct (within true 0 0 2000 _); cbn [length]; lia. }
  lia.
Defined.

End ActualAzimuth.

(* ================================================================= *)
(** ** sectorswap.py: class SectorSwapCalculator *)

Module SectorSwapCalculator.
Import PyMath PyList.
Local Open Scope string_scope.

(** *** Dictionaries in insertion order *)

Section Dict.
Variables K V : Type.
Variable eqb : K -> K -> bool.

Fixpoint dict_get (d : list (K * V)) (k : K) : option V :=
  match d with
  | [] => None
  | (k', v) :: rest => if eqb k' k then Some v else dict_get rest k
  end.

(** [d[k] = v]: an existing key keeps its position. *)
Fixpoint dict_set (d : list (K * V)) (k : K) (v : V) : list (K * V) :=
  match d with
  | [] => [(k, v)]
  | (k', v') :: rest =>
      if eqb k' k then (k', v) :: rest else (k', v') :: dict_set rest k v
  end.

Definition dict_mem (d : list (K * V)) (k : K) : bool :=
  match dict_get d k with
  | Some _ => true
  | None => false
  end.

End Dict.

Definition sget {V : Type} := @dict_get string V String.eqb.
Definition sset {V : Type} := @dict_set string V String.eqb.
Definition smem {V : Type} := @dict_mem string V String.eqb.

(** *** Inputs *)

Record ep_row : Type := {
  ep_site_id : string;
  ep_cell_id : string;
  ep_carrier : string;
  ep_azimuth : R;
  ep_latitude : R;
  ep_longitude : R;
  EP_key : string
}.

Record mr_row : Type := {
  mr_latitude : R;
  mr_longitude : R;
  MR_key : string
}.

(** Entries of Parameter_Settings.json, with the keys the code reads. *)
Record split_setting : Type := {
  split_Layer : string;
  Parrent_ID : string;
  Child_ID : string
}.

Record mimo_setting : Type := {
  mimo_Layer : string;
  Beam0 : string;
  Beam1 : string;
  Beam2 : string;
  Beam3 : string
}.

Record parameter_settings : Type := {
  sector_split : list split_setting;
  massive_mimo : list mimo_setting
}.

Definition FIXED_BEAMWIDTH : R := 65%R.

(** [calculate_azimuth], lines 504-512 (the class keeps its own copy). *)
Definition calculate_azimuth (lat1 lon1 lat2 lon2 : R) : R :=
  let lat1 := radians lat1 in
  let lon1 := radians lon1 in
  let lat2 := radians lat2 in
  let lon2 := radians lon2 in
  let dlon := (lon2 - lon1)%R in
  let y := (sin dlon * cos lat2)%R in
  let x := (cos lat1 * sin lat2 - sin lat1 * cos lat2 * cos dlon)%R in
  let azimuth := atan2 y x in
  let azimuth := degrees azimuth in
  fmod (azimuth + 360) 360.

(** *** Group configuration, lines 27-82 *)

(** A row of the site's EP data with this site name and cell id. *)
Definition cell_exists (ep_data : list ep_row) (site_name cell : string) : bool :=
  existsb (fun e => String.eqb (ep_site_id e) site_name
                    && String.eqb (ep_cell_id e) cell) ep_data.

Fixpoint check_sector_split_pair (splits : list split_setting)
    (site_name cell_id carrier : string) (ep_data : list ep_row)
  : bool * option string :=
  match splits with
  | [] => (false, None)
  | split :: rest =>
      let continue_ := check_sector_split_pair rest site_name cell_id carrier ep_data in
      if String.eqb (split_Layer split) carrier then
        if String.eqb cell_id (Parrent_ID split) then
          if cell_exists ep_data site_name (Child_ID split)
          then (true, Some (Child_ID split)) else continue_
        else if String.eqb cell_id (Child_ID split) then
          if cell_exists ep_data site_name (Parrent_ID split)
          then (true, Some (Parrent_ID split)) else continue_
        else continue_
      else continue_
  end.

Definition beam_ids (mimo : mimo_setting) : list string :=
  [Beam0 mimo; Beam1 mimo; Beam2 mimo; Beam3 mimo].

Fixpoint check_massive_mimo_group (mimos : list mimo_setting)
    (site_name cell_id carrier : string) (ep_data : list ep_row)
  : bool * option (list string) :=
  match mimos with
  | [] => (false, None)
  | mimo :: rest =>
      let continue_ := check_massive_mimo_group rest site_name cell_id carrier ep_data in
      if String.eqb (mimo_Layer mimo) carrier then
        if existsb (String.eqb cell_id) (beam_ids mimo) then
          if forallb (cell_exists ep_data site_name) (beam_ids mimo)
          then (true, Some (beam_ids mimo)) else continue_
        else continue_
      else continue_
  end.

(** *** Cell configurations, lines 203-302 *)

Record config : Type := {
  is_mimo : bool;
  mimo_group : option (list string);
  is_split : bool;
  split_partner : option string;
  final_type : option string
}.

Definition with_final_type (c : config) (t : string) : config :=
  {| is_mimo := is_mimo c; mimo_group := mimo_group c; is_split := is_split c;
     split_partner := split_partner c; final_type := Some t |}.

(** [f"{cell_id}_{carrier}"]. *)
Definition cell_key_of (cell_id carrier : string) : string :=
  cell_id ++ "_" ++ carrier.

(** [s.split('_')]. *)
Fixpoint split_underscore (s : string) : list string :=
  match s with
  | EmptyString => [EmptyString]
  | String c rest =>
      if Ascii.eqb c "_" then EmptyString :: split_underscore rest
      else match split_underscore rest with
           | [] => [String c EmptyString]
           | h :: t => String c h :: t
           end
  end.

(** [cell_key.split('_')[0]] and [cell_key.split('_')[1]]; every key holds
    an underscore, so index 1 exists. *)
Definition key_cell_id (cell_key : string) : string := nth 0 (split_underscore cell_key) "".
Definition key_carrier (cell_key : string) : string := nth 1 (split_underscore cell_key) "".

(** [f"{tuple(sorted(group))}_{carrier}"].  The text of a tuple of strings
    determines the tuple, so the key is kept as the pair it is made from. *)
Definition group_key : Type := list string * string.

Definition mimo_group_key (group : list string) (carrier : string) : group_key :=
  (sort String.leb group, carrier).

Fixpoint list_eqb (l1 l2 : list string) : bool :=
  match l1, l2 with
  | [], [] => true
  | x :: r1, y :: r2 => String.eqb x y && list_eqb r1 r2
  | _, _ => false
  end.

Definition group_key_eqb (x y : group_key) : bool :=
  list_eqb (fst x) (fst y) && String.eqb (snd x) (snd y).

Definition gget {V : Type} := @dict_get group_key V group_key_eqb.
Definition gset {V : Type} := @dict_set group_key V group_key_eqb.
Definition gmem {V : Type} := @dict_mem group_key V group_key_eqb.

(** Lines 207-230. *)
Definition initial_configurations (settings : parameter_settings) (enodeb : string)
    (ep_enodeb_data : list ep_row) : list (string * config) :=
  fold_left
    (fun cell_configurations ep_row =>
       let cell_id := ep_cell_id ep_row in
       let carrier := ep_carrier ep_row in
       let cell_key := cell_key_of cell_id carrier in
       let '(is_mimo_, mimo_group_) :=
         check_massive_mimo_group (massive_mimo settings) enodeb cell_id carrier
                                  ep_enodeb_data in
       let '(is_split_, split_partner_) :=
         check_sector_split_pair (sector_split settings) enodeb cell_id carrier
                                 ep_enodeb_data in
       sset cell_configurations cell_key
            {| is_mimo := is_mimo_; mimo_group := mimo_group_;
               is_split := is_split_; split_partner := split_partner_;
               final_type := None |})
    ep_enodeb_data [].

(** [config['is_mimo'] and config['mimo_group']]: the group when both hold. *)
Definition mimo_group_of (c : config) : option (list string) :=
  if is_mimo c then
    match mimo_group c with
    | Some (b :: bs) => Some (b :: bs)
    | _ => None
    end
  else None.

(** Lines 234-249. *)
Definition validate_mimo_groups (cell_configurations : list (string * config))
  : list (group_key * bool) :=
  fold_left
    (fun valid_mimo_groups kc =>
       let '(cell_key, config) := kc in
       match mimo_group_of config with
       | Some group =>
           let carrier := key_carrier cell_key in
           let mimo_group_key_ := mimo_group_key group carrier in
           if gmem valid_mimo_groups mimo_group_key_ then valid_mimo_groups
           else
             let all_beams_exist :=
               forallb (fun beam_id => smem cell_configurations (cell_key_of beam_id carrier))
                       group in
             gset valid_mimo_groups mimo_group_key_ all_beams_exist
       | None => valid_mimo_groups
       end)
    cell_configurations [].

Definition mem_string (x : string) (l : list string) : bool := existsb (String.eqb x) l.

(** The inner loop of lines 261-271: the group of the first configuration
    whose MIMO group holds both the cell and its split partner. *)
Fixpoint overlapping_group (others : list (string * config)) (cell_id partner_id : string)
  : option (list string) :=
  match others with
  | [] => None
  | (_, other_config) :: rest =>
      match mimo_group_of other_config with
      | Some group =>
          if mem_string cell_id group && mem_string partner_id group then Some group
          else overlapping_group rest cell_id partner_id
      | None => overlapping_group rest cell_id partner_id
      end
  end.

(** [config['is_split'] and config['split_partner']]: a non-empty partner. *)
Definition split_partner_of (c : config) : option string :=
  if is_split c then
    match split_partner c with
    | Some p => if String.eqb p "" then None else Some p
    | None => None
    end
  else None.

(** Lines 253-271. *)
Definition find_split_mimo_overlap (cell_configurations : list (string * config))
  : list (string * group_key) :=
  fold_left
    (fun split_mimo_overlap kc =>
       let '(cell_key, config) := kc in
       match split_partner_of config with
       | Some partner_id =>
           let carrier := key_carrier cell_key in
           let cell_id := key_cell_id cell_key in
           match overlapping_group cell_configurations cell_id partner_id with
           | Some group =>
               let mimo_group_key_ := mimo_group_key group carrier in
               let partner_key := cell_key_of partner_id carrier in
               sset (sset split_mimo_overlap cell_key mimo_group_key_)
                    partner_key mimo_group_key_
           | None => split_mimo_overlap
           end
       | None => split_mimo_overlap
       end)
    cell_configurations [].

Definition set_final_type (d : list (string * config)) (key t : string)
  : list (string * config) :=
  match sget d key with
  | Some c => sset d key (with_final_type c t)
  | None => d
  end.

(** [valid_mimo_groups.get(key, False)]. *)
Definition group_is_valid (valid_mimo_groups : list (group_key * bool)) (k : group_key) : bool :=
  match gget valid_mimo_groups k with
  | Some b => b
  | None => false
  end.

(** [f"{config['split_partner']}"]. *)
Definition partner_text (c : config) : string :=
  match split_partner c with
  | Some p => p
  | None => "None"
  end.

(** One iteration of lines 276-302; the configurations are read as they
    stand when the iteration runs. *)
Definition resolve_final_type (valid_mimo_groups : list (group_key * bool))
    (split_mimo_overlap : list (string * group_key))
    (cell_configurations : list (string * config)) (cell_key : string)
  : list (string * config) :=
  match sget cell_configurations cell_key with
  | None => cell_configurations
  | Some config =>
      let carrier := key_carrier cell_key in
      match sget split_mimo_overlap cell_key with
      | Some mimo_group_key_ =>
          if group_is_valid valid_mimo_groups mimo_group_key_
          then set_final_type cell_configurations cell_key "Massive MIMO"
          else set_final_type cell_configurations cell_key "Sector Split"
      | None =>
          match mimo_group_of config with
          | Some group =>
              if group_is_valid valid_mimo_groups (mimo_group_key group carrier)
              then set_final_type cell_configurations cell_key "Massive MIMO"
              else cell_configurations
          | None =>
              match is_split config, final_type config with
              | true, None =>
                  let partner_key := cell_key_of (partner_text config) carrier in
                  match sget cell_configurations partner_key with
                  | Some partner =>
                      match final_type partner with
                      | Some "Massive MIMO" => cell_configurations
                      | _ =>
                          set_final_type
                            (set_final_type cell_configurations cell_key "Sector Split")
                            partner_key "Sector Split"
                      end
                  | None => cell_configurations
                  end
              | _, _ => cell_configurations
              end
          end
      end
  end.

(** Lines 203-302: the configurations with their final types. *)
Definition cell_configurations (settings : parameter_settings) (enodeb : string)
    (ep_enodeb_data : list ep_row) : list (string * config) :=
  let initial := initial_configurations settings enodeb ep_enodeb_data in
  let valid_mimo_groups := validate_mimo_groups initial in
  let split_mimo_overlap := find_split_mimo_overlap initial in
  fold_left (resolve_final_type valid_mimo_groups split_mimo_overlap)
            (map fst initial) initial.

(** [cell_configurations.get(key, {...}).get('final_type', "")]. *)
Definition cell_type_of (configurations : list (string * config)) (cell_key : string)
  : string :=
  match sget configurations cell_key with
  | Some c => match final_type c with Some t => t | None => "" end
  | None => ""
  end.

(** *** Direction histograms, lines 304-418 *)

Definition sector := (R * R * R)%type.   (* azimuth % 360, latitude, longitude *)

(** Lines 306-312: per carrier, cell id to sector. *)
Definition sector_info_by_carrier (ep_enodeb_data : list ep_row)
  : list (string * list (string * sector)) :=
  fold_left
    (fun d ep_row =>
       let cid := ep_cell_id ep_row in
       let carrier := ep_carrier ep_row in
       let inner := match sget d carrier with Some i => i | None => [] end in
       sset d carrier
            (sset inner cid
                  (fmod (ep_azimuth ep_row) 360, ep_latitude ep_row, ep_longitude ep_row)))
    ep_enodeb_data [].

(** Lines 385-387: the sample lies in the test cone of the sector. *)
Definition in_cone (other : sector) (mr : mr_row) : bool :=
  let '(other_az, other_lat, other_lon) := other in
  let mr_az :=
    fmod (calculate_azimuth other_lat other_lon (mr_latitude mr) (mr_longitude mr)) 360 in
  let az_diff := Rabs (fmod (mr_az - other_az + 180) 360 - 180) in
  Rleb az_diff (FIXED_BEAMWIDTH / 2).

(** Lines 380-388: a counter per sector of the carrier, incremented once
    for every sample of the cell that lies in that sector's cone. *)
Definition direction_counts_of (sector_info : list (string * sector))
    (mr_cell_data : list mr_row) : list (string * Z) :=
  map (fun entry => (fst entry, count_if (in_cone (snd entry)) mr_cell_data)) sector_info.

Definition values {K V : Type} (d : list (K * V)) : list V := map snd d.

Definition sum_Z (l : list Z) : Z := fold_left Z.add l 0%Z.

(** [max(d, key=lambda cid: d[cid])]: the first key holding the largest
    count. *)
Fixpoint argmax (d : list (string * Z)) (best : string) (best_count : Z) : string :=
  match d with
  | [] => best
  | (k, v) :: rest =>
      if (best_count <? v)%Z then argmax rest k v else argmax rest best best_count
  end.

Definition max_key (d : list (string * Z)) : string :=
  match d with
  | [] => ""
  | (k, v) :: rest => argmax rest k v
  end.

Definition Z_geb (x y : Z) : bool := (y <=? x)%Z.

(** [sorted(values, reverse=True)[1] if len(values) > 1 else 0]. *)
Definition second_largest (l : list Z) : Z :=
  nth 1 (sort Z_geb l) 0%Z.

Record candidate : Type := {
  target : string;
  max_count : Z;
  total_mr : Z;
  second_max_count : Z;
  cand_azimuth : R;
  cand_lat : R;
  cand_lon : R;
  cand_ep_cell_key : string;
  cand_cell_type : string;
  cand_is_split : bool;
  cand_split_partner : option string;
  direction_counts : list (string * Z)
}.

Record cell_stat : Type := {
  stat_cell_type : string;
  stat_is_split : bool;
  stat_split_partner : option string
}.

Definition samples_of (mr_enodeb_data : list mr_row) (ep_cell_key : string) : list mr_row :=
  filter (fun m => String.eqb (MR_key m) ep_cell_key) mr_enodeb_data.

Definition split_partner_in (configurations : list (string * config)) (cell_key : string)
  : option string :=
  match sget configurations cell_key with
  | Some c => split_partner c
  | None => None
  end.

(** Lines 366-409: the statistics stored for one evaluated cell. *)
Definition make_candidate (configurations : list (string * config))
    (sector_info : list (string * sector)) (mr_enodeb_data : list mr_row)
    (carrier : string) (ep_row : ep_row) : candidate :=
  let cell_id := ep_cell_id ep_row in
  let cell_type := cell_type_of configurations (cell_key_of cell_id carrier) in
  let mr_cell_data := samples_of mr_enodeb_data (EP_key ep_row) in
  let direction_counts_ := direction_counts_of sector_info mr_cell_data in
  let max_cell := max_key direction_counts_ in
  {| target := max_cell;
     max_count := match sget direction_counts_ max_cell with Some c => c | None => 0%Z end;
     total_mr := sum_Z (values direction_counts_);
     second_max_count := second_largest (values direction_counts_);
     cand_azimuth := fmod (ep_azimuth ep_row) 360;
     cand_lat := ep_latitude ep_row;
     cand_lon := ep_longitude ep_row;
     cand_ep_cell_key := EP_key ep_row;
     cand_cell_type := cell_type;
     cand_is_split := String.eqb cell_type "Sector Split";
     cand_split_partner := split_partner_in configurations (cell_key_of cell_id carrier);
     direction_counts := direction_counts_ |}.

(** The test of lines 371-379: the cell takes part in the evaluation. *)
Definition evaluated (configurations : list (string * config))
    (mr_enodeb_data : list mr_row) (carrier : string) (ep_row : ep_row) : bool :=
  negb (String.eqb (cell_type_of configurations (cell_key_of (ep_cell_id ep_row) carrier))
                   "Massive MIMO")
  && (50 <=? length (samples_of mr_enodeb_data (EP_key ep_row)))%nat.

Definition rows_of_carrier (ep_enodeb_data : list ep_row) (carrier : string) : list ep_row :=
  filter (fun e => String.eqb (ep_carrier e) carrier) ep_enodeb_data.

(** First pass, lines 362-418: [swap_candidates]. *)
Definition swap_candidates (configurations : list (string * config))
    (sector_info : list (string * sector)) (ep_enodeb_data : list ep_row)
    (mr_enodeb_data : list mr_row) (carrier : string) : list (string * candidate) :=
  fold_left
    (fun d ep_row =>
       if evaluated configurations mr_enodeb_data carrier ep_row
       then sset d (ep_cell_id ep_row)
                 (make_candidate configurations sector_info mr_enodeb_data carrier ep_row)
       else d)
    (rows_of_carrier ep_enodeb_data carrier) [].

(** First pass, lines 410-418: [cell_stats]. *)
Definition cell_stats (configurations : list (string * config))
    (ep_enodeb_data : list ep_row) (mr_enodeb_data : list mr_row) (carrier : string)
  : list (string * cell_stat) :=
  fold_left
    (fun d ep_row =>
       if evaluated configurations mr_enodeb_data carrier ep_row
       then
         let cell_key := cell_key_of (ep_cell_id ep_row) carrier in
         let cell_type := cell_type_of configurations cell_key in
         sset d (ep_cell_id ep_row)
              {| stat_cell_type := cell_type;
                 stat_is_split := String.eqb cell_type "Sector Split";
                 stat_split_partner := split_partner_in configurations cell_key |}
       else d)
    (rows_of_carrier ep_enodeb_data carrier) [].

(** *** Second pass, lines 420-486 *)

Definition result_row : Type := (string * string * string * string)%type.

Definition swap_message (x y : string) : string :=
  "Sector Swap Found Between " ++ x ++ " and " ++ y.

(** [tuple(sorted([x, y]))]. *)
Definition sorted_pair (x y : string) : string * string :=
  if String.leb x y then (x, y) else (y, x).

Definition pair_eqb (p q : string * string) : bool :=
  String.eqb (fst p) (fst q) && String.eqb (snd p) (snd q).

Definition mem_pair (p : string * string) (l : list (string * string)) : bool :=
  existsb (pair_eqb p) l.

Definition Qltb (x y : Q) : bool := negb (Qle_bool y x).

(** [count / total if total > 0 else 0]. *)
Definition ratio (count total : Z) : Q :=
  if (0 <? total)%Z then inject_Z count / inject_Z total else 0.

Definition count_toward (c : candidate) (cell : string) : Z :=
  match sget (direction_counts c) cell with
  | Some n => n
  | None => 0%Z
  end.

(** Lines 435-439. *)
Definition adaptive_swap (c t : candidate) (cell_id : string) : bool :=
  let cell_ratio := ratio (count_toward c (target c)) (total_mr c) in
  let target_ratio := ratio (count_toward t cell_id) (total_mr t) in
  (Qltb (6 # 10) cell_ratio && Qltb (3 # 10) target_ratio)
  || (Qltb (3 # 10) cell_ratio && Qltb (6 # 10) target_ratio).

(** One half of lines 441-446. *)
Definition strict_half (c : candidate) : bool :=
  Qle_bool ((7 # 10) * inject_Z (total_mr c)) (inject_Z (max_count c))
  && Qle_bool ((2 # 10) * inject_Z (total_mr c))
              (inject_Z (max_count c - second_max_count c)).

Definition strict_swap (c t : candidate) : bool := strict_half c && strict_half t.

Record pass_state : Type := {
  results : list result_row;
  processed_pairs : list (string * string);
  added_cells : list (string * string);
  swap_found_cells : list string
}.

(** Lines 452-464 and 469-481: record the pair and append a row for each of
    its two cells unless already added. *)
Definition emit_swap (enodeb cell_id : string) (c t : candidate) (st : pass_state)
  : pass_state :=
  let target_ := target c in
  let st1 :=
    {| results := results st;
       processed_pairs := sorted_pair cell_id target_ :: processed_pairs st;
       added_cells := added_cells st;
       swap_found_cells := swap_found_cells st |} in
  let st2 :=
    if mem_pair (cell_id, target_) (added_cells st1) then st1
    else {| results := results st1
                       ++ [(enodeb, cell_id, swap_message cell_id target_, cand_cell_type c)];
            processed_pairs := processed_pairs st1;
            added_cells := (cell_id, target_) :: added_cells st1;
            swap_found_cells := cell_id :: swap_found_cells st1 |} in
  if mem_pair (target_, cell_id) (added_cells st2) then st2
  else {| results := results st2
                     ++ [(enodeb, target_, swap_message target_ cell_id, cand_cell_type t)];
          processed_pairs := processed_pairs st2;
          added_cells := (target_, cell_id) :: added_cells st2;
          swap_found_cells := target_ :: swap_found_cells st2 |}.

(** The verdict of lines 440-449 and 466 for a cell and its target, apart
    from the bookkeeping of processed pairs. *)
Definition verdict (c t : candidate) (cell_id : string) : bool :=
  let mutual := String.eqb (target t) cell_id in
  if cand_is_split c then mutual && cand_is_split t
  else mutual && (adaptive_swap c t cell_id || strict_swap c t).

(** One iteration of the loop of line 424. *)
Definition second_pass_step (enodeb : string) (swap_candidates_ : list (string * candidate))
    (st : pass_state) (entry : string * candidate) : pass_state :=
  let '(cell_id, c) := entry in
  if (total_mr c =? 0)%Z then st
  else
    match sget swap_candidates_ (target c) with
    | None => st
    | Some t =>
        if (total_mr t =? 0)%Z then st
        else if verdict c t cell_id
                && negb (mem_pair (sorted_pair cell_id (target c)) (processed_pairs st))
        then if String.eqb cell_id (target c) then st
             else emit_swap enodeb cell_id c t st
        else st
    end.

Definition empty_state : pass_state :=
  {| results := []; processed_pairs := []; added_cells := []; swap_found_cells := [] |}.

Definition second_pass (enodeb : string) (swap_candidates_ : list (string * candidate))
  : pass_state :=
  fold_left (second_pass_step enodeb swap_candidates_) swap_candidates_ empty_state.

(** Lines 483-486. *)
Definition no_swap_rows (enodeb : string) (cell_stats_ : list (string * cell_stat))
    (swap_found : list string) : list result_row :=
  flat_map
    (fun entry =>
       if mem_string (fst entry) swap_found then []
       else [(enodeb, fst entry, "No Sector Swap Found", stat_cell_type (snd entry))])
    cell_stats_.

(** Everything lines 355-486 append for one carrier. *)
Definition evaluate_carrier (configurations : list (string * config)) (enodeb : string)
    (ep_enodeb_data : list ep_row) (mr_enodeb_data : list mr_row) (carrier : string)
  : list result_row :=
  let sector_info :=
    match sget (sector_info_by_carrier ep_enodeb_data) carrier with
    | Some i => i
    | None => []
    end in
  let swap_candidates_ :=
    swap_candidates configurations sector_info ep_enodeb_data mr_enodeb_data carrier in
  let cell_stats_ := cell_stats configurations ep_enodeb_data mr_enodeb_data carrier in
  let st := second_pass enodeb swap_candidates_ in
  results st ++ no_swap_rows enodeb cell_stats_ (swap_found_cells st).

(** One iteration of the loop of line 316: the rows it appends. *)
Definition process_cell (configurations : list (string * config)) (enodeb : string)
    (ep_enodeb_data : list ep_row) (mr_enodeb_data : list mr_row) (ep_row : ep_row)
  : list result_row :=
  let cell_id := ep_cell_id ep_row in
  let carrier := ep_carrier ep_row in
  let cell_type := cell_type_of configurations (cell_key_of cell_id carrier) in
  if String.eqb cell_type "Massive MIMO" then
    [(enodeb, cell_id, "No Sector Swap Found - " ++ cell_type, cell_type)]
  else
    let mr_cell_data := samples_of mr_enodeb_data (EP_key ep_row) in
    match mr_cell_data with
    | [] => [(enodeb, cell_id, "NO MR Data found for the cell", cell_type)]
    | _ :: _ =>
        if (length mr_cell_data <? 50)%nat
        then [(enodeb, cell_id, "Less Number of MR Points", cell_type)]
        else evaluate_carrier configurations enodeb ep_enodeb_data mr_enodeb_data carrier
    end.

(** [drop_duplicates(subset=['eNodeb Name', 'Cell ID', 'Result'])]. *)
Definition same_result (x y : result_row) : bool :=
  let '(e1, c1, r1, _) := x in
  let '(e2, c2, r2, _) := y in
  String.eqb e1 e2 && String.eqb c1 c2 && String.eqb r1 r2.

(** [process_enodeb], lines 198-492. *)
Definition process_enodeb (settings : parameter_settings) (enodeb : string)
    (ep_enodeb_data : list ep_row) (mr_enodeb_data : list mr_row) : list result_row :=
  let configurations := cell_configurations settings enodeb ep_enodeb_data in
  let results_ :=
    flat_map (process_cell configurations enodeb ep_enodeb_data mr_enodeb_data)
             ep_enodeb_data in
  drop_duplicates same_result results_.

(** *** Helpers of the class, lines 494-518 *)

(** [calculate_distance], lines 494-502. *)
Definition calculate_distance (lat1 lon1 lat2 lon2 : R) : outcome R :=
  let R_ := 6371%R in
  let lat1 := radians lat1 in
  let lon1 := radians lon1 in
  let lat2 := radians lat2 in
  let lon2 := radians lon2 in
  let dlat := (lat2 - lat1)%R in
  let dlon := (lon2 - lon1)%R in
  let a := ((sin (dlat / 2)) ^ 2 + cos lat1 * cos lat2 * (sin (dlon / 2)) ^ 2)%R in
  sa <- py_sqrt a ;;
  sb <- py_sqrt (1 - a)%R ;;
  let c := (2 * atan2 sa sb)%R in
  let distance := (R_ * c)%R in
  Returned (distance * 1000)%R.

(** [is_within_beamwidth], lines 514-518. *)
Definition is_within_beamwidth (mr_lat mr_lon cell_lat cell_lon azimuth beamwidth : R)
  : bool :=
  let actual_azimuth := calculate_azimuth cell_lat cell_lon mr_lat mr_lon in
  let azimuth_diff := Rabs (actual_azimuth - azimuth) in
  let azimuth_diff := Rmin azimuth_diff (360 - azimuth_diff) in
  Rleb azimuth_diff (beamwidth / 2).

(** *** Deduplication priority of [sector_swap_analysis], lines 181-186 *)

(** [sub in s] on strings. *)
Fixpoint contains (sub s : string) : bool :=
  prefix sub s
  || match s with
     | EmptyString => false
     | String _ rest => contains sub rest
     end.

Definition split_priority (result : string) : Z :=
  if contains "Sector Swap Found" result then 2%Z
  else if contains "No Sector Swap Found (Split, Valid MR)" result then 1%Z
  else 0%Z.

(** *** [calculate_sector_swap_statistics], lines 520-556 *)

Definition row_name (r : result_row) : string := fst (fst (fst r)).
Definition row_result (r : result_row) : string := snd (fst r).
Definition row_type (r : result_row) : string := snd r.

Record swap_statistics : Type := {
  total_cells : Z;
  sector_swap_count : Z;
  sector_swap_percentage : Q;
  sector_swap_site_count : Z;
  total_sites : Z;
  sector_swap_site_percentage : Q;
  split_cells_count : Z;
  mimo_cells_count : Z;
  split_swap_count : Z;
  normal_swap_count : Z
}.

(** [Series.unique()]. *)
Definition unique (l : list string) : list string := drop_duplicates String.eqb l.

(** [None] stands for the ZeroDivisionError of line 531 or 535. *)
Definition calculate_sector_swap_statistics (result_df : list result_row)
  : option swap_statistics :=
  let swap_cells :=
    filter (fun r => contains "Sector Swap Found" (row_result r)) result_df in
  let swap_sites := unique (map row_name swap_cells) in
  let total_cells_ := Z.of_nat (length result_df) in
  let total_sites_ := Z.of_nat (length (unique (map row_name result_df))) in
  let sector_swap_count_ := Z.of_nat (length swap_cells) in
  if (total_cells_ =? 0)%Z then None
  else
    let sector_swap_percentage_ :=
      inject_Z sector_swap_count_ / inject_Z total_cells_ * 100 in
    let sector_swap_site_count_ := Z.of_nat (length swap_sites) in
    if (total_sites_ =? 0)%Z then None
    else
      let sector_swap_site_percentage_ :=
        inject_Z sector_swap_site_count_ / inject_Z total_sites_ * 100 in
      let split_cells := filter (fun r => String.eqb (row_type r) "Sector Split") result_df in
      let mimo_cells := filter (fun r => String.eqb (row_type r) "Massive MIMO") result_df in
      let split_swaps := filter (fun r => String.eqb (row_type r) "Sector Split") swap_cells in
      let normal_swaps :=
        filter (fun r => negb (String.eqb (row_type r) "Sector Split")) swap_cells in
      Some {| total_cells := total_cells_;
              sector_swap_count := sector_swap_count_;
              sector_swap_percentage := sector_swap_percentage_;
              sector_swap_site_count := sector_swap_site_count_;
              total_sites := total_sites_;
              sector_swap_site_percentage := sector_swap_site_percentage_;
              split_cells_count := Z.of_nat (length split_cells);
              mimo_cells_count := Z.of_nat (length mimo_cells);
              split_swap_count := Z.of_nat (length split_swaps);
              normal_swap_count := Z.of_nat (length normal_swaps) |}.

End SectorSwapCalculator.

(* ================================================================= *)
(** ** Exact thresholds against binary64 arithmetic

    The threshold tests of the sources run on Python floats.  The embedding
    states them over exact rationals; here the same expressions are evaluated
    in IEEE binary64 and compared with the exact ones for every sample count
    up to a bound. *)

Module FloatCheck.
Import PrimFloat.

#[local] Set Warnings "-inexact-float".

Definition fl (z : Z) : float := of_uint63 (Uint63.of_Z z).

Definition upto (n : nat) : list Z := map Z.of_nat (seq 0 (S n)).

(** [max_count >= 0.7 * total_mr and (max_count - second) >= 0.2 * total_mr]. *)
Definition strict_half_float (max_count second_max_count total_mr : Z) : bool :=
  leb (0.7 * fl total_mr)%float (fl max_count)
  && leb (0.2 * fl total_mr)%float (fl (max_count - second_max_count)).

Definition strict_half_exact (max_count second_max_count total_mr : Z) : bool :=
  Qle_bool ((7 # 10) * inject_Z total_mr) (inject_Z max_count)
  && Qle_bool ((2 # 10) * inject_Z total_mr) (inject_Z (max_count - second_max_count)).

(** [count / total > 0.6] and [count / total > 0.3]. *)
Definition ratios_float (count total_mr : Z) : bool * bool :=
  (ltb 0.6%float (fl count / fl total_mr)%float,
   ltb 0.3%float (fl count / fl total_mr)%float).

Definition ratios_exact (count total_mr : Z) : bool * bool :=
  (SectorSwapCalculator.Qltb (6 # 10) (SectorSwapCalculator.ratio count total_mr),
   SectorSwapCalculator.Qltb (3 # 10) (SectorSwapCalculator.ratio count total_mr)).

(** [(poor_rsrp_count / total_mr_points) * 100 > 50]. *)
Definition poor_float (count total_mr : Z) : bool :=
  ltb 50%float ((fl count / fl total_mr) * 100)%float.

Definition poor_exact (count total_mr : Z) : bool :=
  CoverageCalculator.Qltb 50 (CoverageCalculator.ratio_pct count total_mr).

Definition pair_eqb (x y : bool * bool) : bool :=
  Bool.eqb (fst x) (fst y) && Bool.eqb (snd x) (snd y).

Example strict_rule_agrees_up_to_40 :
  forallb (fun total_mr =>
    forallb (fun max_count =>
      forallb (fun second =>
                 Bool.eqb (strict_half_float max_count second total_mr)
                          (strict_half_exact max_count second total_mr))
              (upto (Z.to_nat max_count)))
      (upto (Z.to_nat total_mr)))
    (upto 40) = true.
Proof. vm_compute. reflexivity. Qed.

Example ratio_tests_agree_up_to_200 :
  forallb (fun total_mr =>
    forallb (fun count => pair_eqb (ratios_float count (total_mr + 1))
                                   (ratios_exact count (total_mr + 1)))
            (upto (Z.to_nat (total_mr + 1))))
    (upto 200) = true.
Proof. vm_compute. reflexivity. Qed.

Example poor_coverage_test_agrees_up_to_200 :
  forallb (fun total_mr =>
    forallb (fun count => Bool.eqb (poor_float count (total_mr + 1))
                                   (poor_exact count (total_mr + 1)))
            (upto (Z.to_nat (total_mr + 1))))
    (upto 200) = true.
Proof. vm_compute. reflexivity. Qed.

(** The shares [0 / n * 100] and [n / n * 100] are exactly 0.0 and 100.0 in
    binary64 as well, so that [.1f] prints them as "0.0" and "100.0". *)
Example empty_and_full_shares_up_to_2000 :
  forallb (fun n => eqb ((fl 0 / fl (n + 1)) * 100)%float 0%float
                    && eqb ((fl (n + 1) / fl (n + 1)) * 100)%float 100%float)
          (upto 2000) = true.
Proof. vm_compute. reflexivity. Qed.

End FloatCheck.

(* ================================================================= *)
(** ** Properties of the sector swap detector *)

Module SwapProps.
Import PyMath PyList SectorSwapCalculator.
Local Open Scope string_scope.

(** *** Dictionaries *)

Lemma sget_sset_same {V : Type} (d : list (string * V)) k v :
  sget (sset d k v) k = Some v.
Proof.
  unfold sget, sset. induction d as [| [k' v'] rest IH]; simpl.
  - now rewrite String.eqb_refl.
  - destruct (String.eqb k' k) eqn:E; simpl; rewrite E; [reflexivity | exact IH].
Qed.

Lemma sget_sset_other {V : Type} (d : list (string * V)) k k' v :
  k <> k' -> sget (sset d k v) k' = sget d k'.
Proof.
  intros Hne. unfold sget, sset. induction d as [| [k0 v0] rest IH]; simpl.
  - apply String.eqb_neq in Hne. now rewrite Hne.
  - destruct (String.eqb k0 k) eqn:E; simpl.
    + apply String.eqb_eq in E. subst k0.
      apply String.eqb_neq in Hne. now rewrite Hne.
    + destruct (String.eqb k0 k'); [reflexivity | exact IH].
Qed.

Lemma sget_In {V : Type} (d : list (string * V)) k v :
  sget d k = Some v -> In (k, v) d.
Proof.
  unfold sget. induction d as [| [k' v'] rest IH]; simpl; [discriminate |].
  destruct (String.eqb k' k) eqn:E.
  - apply String.eqb_eq in E. intros H. inversion H; subst. now left.
  - intros H. right. now apply IH.
Qed.

Lemma sset_keys {V : Type} (d : list (string * V)) k v x :
  In x (map fst (sset d k v)) <-> In x (map fst d) \/ x = k.
Proof.
  unfold sset. induction d as [| [k' v'] rest IH]; simpl.
  - intuition.
  - destruct (String.eqb k' k) eqn:E; simpl.
    + apply String.eqb_eq in E. subst. intuition.
    + rewrite IH. intuition.
Qed.

Lemma sset_NoDup {V : Type} (d : list (string * V)) k v :
  NoDup (map fst d) -> NoDup (map fst (sset d k v)).
Proof.
  unfold sset. induction d as [| [k' v'] rest IH]; simpl; intros Hnd.
  - constructor; [intros [] | constructor].
  - inversion Hnd as [| ? ? Hnotin Hrest]; subst.
    destruct (String.eqb k' k) eqn:E; simpl.
    + constructor; assumption.
    + constructor; [| now apply IH].
      intros Hin. apply (sset_keys rest k v k') in Hin.
      destruct Hin as [Hin | ->]; [contradiction |].
      now rewrite String.eqb_refl in E.
Qed.

Lemma In_sget {V : Type} (d : list (string * V)) k v :
  NoDup (map fst d) -> In (k, v) d -> sget d k = Some v.
Proof.
  unfold sget. induction d as [| [k' v'] rest IH]; simpl; intros Hnd Hin; [contradiction |].
  inversion Hnd as [| ? ? Hnotin Hrest]; subst.
  destruct Hin as [E | Hin].
  - inversion E; subst. now rewrite String.eqb_refl.
  - destruct (String.eqb k' k) eqn:E.
    + apply String.eqb_eq in E. subst k'.
      exfalso. apply Hnotin. apply in_map_iff. exists (k, v). auto.
    + now apply IH.
Qed.

(** *** Pairs and result rows *)

Lemma pair_eqb_eq p q : pair_eqb p q = true <-> p = q.
Proof.
  destruct p as [a b], q as [c d]. unfold pair_eqb. simpl.
  rewrite andb_true_iff, !String.eqb_eq. split.
  - intros [-> ->]. reflexivity.
  - intros E. inversion E. auto.
Qed.

Lemma mem_pair_In p l : mem_pair p l = true <-> In p l.
Proof.
  unfold mem_pair. rewrite existsb_exists. split.
  - intros (q & Hq & E). apply pair_eqb_eq in E. now subst.
  - intros H. exists p. split; [assumption | now apply pair_eqb_eq].
Qed.

Lemma sorted_pair_inj a b c d :
  sorted_pair a b = sorted_pair c d -> (a = c /\ b = d) \/ (a = d /\ b = c).
Proof.
  unfold sorted_pair.
  destruct (String.leb a b), (String.leb c d); intros E; inversion E; auto.
Qed.

Lemma append_inj_l (p x y : string) : p ++ x = p ++ y -> x = y.
Proof.
  induction p as [| c p IH]; simpl; intros E; [exact E |].
  inversion E. now apply IH.
Qed.

Lemma swap_message_inj x y y' : swap_message x y = swap_message x y' -> y = y'.
Proof.
  unfold swap_message. intros E.
  apply append_inj_l in E. apply append_inj_l in E. now apply append_inj_l in E.
Qed.

Lemma result_row_inv (e1 c1 m1 t1 e2 c2 m2 t2 : string) :
  (e1, c1, m1, t1) = (e2, c2, m2, t2) -> c1 = c2 /\ m1 = m2.
Proof.
  intros H. split.
  - exact (f_equal (fun r : result_row => snd (fst (fst r))) H).
  - exact (f_equal (fun r : result_row => snd (fst r)) H).
Qed.

(** The cell [x] has a "Sector Swap Found Between x and y" row. *)
Definition has_swap_row (enodeb : string) (rows : list result_row) (x y : string) : Prop :=
  exists cell_type : string, In (enodeb, x, swap_message x y, cell_type) rows.

Lemma has_swap_row_app_l enodeb rows more x y :
  has_swap_row enodeb rows x y -> has_swap_row enodeb (rows ++ more) x y.
Proof. intros [ty H]. exists ty. apply in_or_app. now left. Qed.

(** *** The second pass *)

Section SecondPass.
Variable enodeb : string.
Variable sc : list (string * candidate).

(** The iteration for cell [cell_id] reaches a positive verdict against
    its target [t]. *)
Definition fires (cell_id : string) (c t : candidate) : Prop :=
  total_mr c <> 0%Z /\ sget sc (target c) = Some t /\ total_mr t <> 0%Z /\
  verdict c t cell_id = true /\ cell_id <> target c.

Definition row_of_cell (cell_id : string) (c : candidate) : result_row :=
  (enodeb, cell_id, swap_message cell_id (target c), cand_cell_type c).

Definition row_of_target (cell_id : string) (c t : candidate) : result_row :=
  (enodeb, target c, swap_message (target c) cell_id, cand_cell_type t).

(** Every recorded pair and every added cell has its rows. *)
Definition bookkeeping_ok (st : pass_state) : Prop :=
  (forall p, In p (processed_pairs st) ->
     exists a b, p = sorted_pair a b /\
                 has_swap_row enodeb (results st) a b /\
                 has_swap_row enodeb (results st) b a) /\
  (forall a b, In (a, b) (added_cells st) -> has_swap_row enodeb (results st) a b).

Lemma step_cases st cell_id c :
  second_pass_step enodeb sc st (cell_id, c) = st \/
  exists t, fires cell_id c t /\
            second_pass_step enodeb sc st (cell_id, c) = emit_swap enodeb cell_id c t st.
Proof.
  unfold second_pass_step.
  destruct (total_mr c =? 0)%Z eqn:E0; [now left |].
  destruct (sget sc (target c)) as [t |] eqn:Et; [| now left].
  destruct (total_mr t =? 0)%Z eqn:E1; [now left |].
  destruct (verdict c t cell_id) eqn:Ev; simpl; [| now left].
  destruct (mem_pair _ (processed_pairs st)); simpl; [now left |].
  destruct (String.eqb cell_id (target c)) eqn:Ec; [now left |].
  right. exists t. split; [| reflexivity].
  apply Z.eqb_neq in E0, E1. apply String.eqb_neq in Ec.
  repeat split; assumption.
Qed.

Lemma step_fires st cell_id c t :
  fires cell_id c t ->
  second_pass_step enodeb sc st (cell_id, c)
  = if mem_pair (sorted_pair cell_id (target c)) (processed_pairs st) then st
    else emit_swap enodeb cell_id c t st.
Proof.
  intros (H0 & Ht & H1 & Hv & Hne). unfold second_pass_step.
  apply Z.eqb_neq in H0, H1. apply String.eqb_neq in Hne.
  rewrite H0, Ht, H1, Hv, Hne. simpl.
  destruct (mem_pair _ (processed_pairs st)); reflexivity.
Qed.

Lemma emit_results st cell_id c t r :
  In r (results (emit_swap enodeb cell_id c t st)) ->
  In r (results st) \/ r = row_of_cell cell_id c \/ r = row_of_target cell_id c t.
Proof.
  unfold emit_swap, row_of_cell, row_of_target. cbv zeta.
  destruct (mem_pair (cell_id, target c) _); cbn [added_cells results];
    destruct (mem_pair (target c, cell_id) _); cbn [added_cells results];
    rewrite ?in_app_iff; simpl; intuition.
Qed.

Lemma emit_monotone st cell_id c t r :
  In r (results st) -> In r (results (emit_swap enodeb cell_id c t st)).
Proof.
  intros H. unfold emit_swap. cbv zeta.
  destruct (mem_pair (cell_id, target c) _); cbn [added_cells results];
    destruct (mem_pair (target c, cell_id) _); cbn [added_cells results];
    rewrite ?in_app_iff; auto.
Qed.

Lemma emit_has_rows st cell_id c t :
  bookkeeping_ok st ->
  has_swap_row enodeb (results (emit_swap enodeb cell_id c t st)) cell_id (target c) /\
  has_swap_row enodeb (results (emit_swap enodeb cell_id c t st)) (target c) cell_id.
Proof.
  intros [_ Hadded]. unfold emit_swap. cbv zeta. cbn [added_cells results].
  destruct (mem_pair (cell_id, target c) (added_cells st)) eqn:E1;
    cbn [added_cells results].
  - apply mem_pair_In in E1. pose proof (Hadded _ _ E1) as [ty1 H1].
    destruct (mem_pair (target c, cell_id) (added_cells st)) eqn:E2;
      cbn [added_cells results].
    + apply mem_pair_In in E2. pose proof (Hadded _ _ E2) as [ty2 H2].
      split; [exists ty1 | exists ty2]; assumption.
    + split; [exists ty1 | exists (cand_cell_type t)]; apply in_or_app; [now left |].
      right. now left.
  - destruct (mem_pair (target c, cell_id) ((cell_id, target c) :: added_cells st)) eqn:E2;
      cbn [added_cells results].
    + apply mem_pair_In in E2. destruct E2 as [E2 | E2].
      * inversion E2 as [[Ea Eb]]. rewrite <- Ea.
        split; exists (cand_cell_type c); apply in_or_app; right; now left.
      * pose proof (Hadded _ _ E2) as [ty2 H2].
        split; [exists (cand_cell_type c) | exists ty2]; apply in_or_app.
        -- right. now left.
        -- now left.
    + split; [exists (cand_cell_type c) | exists (cand_cell_type t)];
        rewrite !in_app_iff; simpl; auto.
Qed.

Lemma has_swap_row_emit st cell_id c t a b :
  has_swap_row enodeb (results st) a b ->
  has_swap_row enodeb (results (emit_swap enodeb cell_id c t st)) a b.
Proof. intros [ty H]. exists ty. now apply emit_monotone. Qed.

Lemma emit_processed st cell_id c t p :
  In p (processed_pairs (emit_swap enodeb cell_id c t st)) ->
  p = sorted_pair cell_id (target c) \/ In p (processed_pairs st).
Proof.
  unfold emit_swap. cbv zeta.
  destruct (mem_pair (cell_id, target c) _); cbn [added_cells processed_pairs];
    destruct (mem_pair (target c, cell_id) _); cbn [added_cells processed_pairs];
    simpl; intuition.
Qed.

Lemma emit_added st cell_id c t a b :
  In (a, b) (added_cells (emit_swap enodeb cell_id c t st)) ->
  (a, b) = (cell_id, target c) \/ (a, b) = (target c, cell_id) \/ In (a, b) (added_cells st).
Proof.
  unfold emit_swap. cbv zeta.
  destruct (mem_pair (cell_id, target c) _); cbn [added_cells];
    destruct (mem_pair (target c, cell_id) _); cbn [added_cells];
    simpl; intuition.
Qed.

Lemma emit_bookkeeping st cell_id c t :
  bookkeeping_ok st -> bookkeeping_ok (emit_swap enodeb cell_id c t st).
Proof.
  intros Hok. destruct (emit_has_rows cell_id c t Hok) as [Hab Hba].
  destruct Hok as [Hproc Hadded]. split.
  - intros p Hp. apply emit_processed in Hp. destruct Hp as [-> | Hp].
    + exists cell_id, (target c). auto.
    + destruct (Hproc p Hp) as (a & b & E & H1 & H2).
      exists a, b. split; [assumption |]. split; now apply has_swap_row_emit.
  - intros a b Hin. apply emit_added in Hin.
    destruct Hin as [E | [E | Hin]].
    + inversion E; subst. assumption.
    + inversion E; subst. assumption.
    + apply has_swap_row_emit. now apply Hadded.
Qed.

Lemma step_bookkeeping st entry :
  bookkeeping_ok st -> bookkeeping_ok (second_pass_step enodeb sc st entry).
Proof.
  intros Hok. destruct entry as [cell_id c].
  destruct (step_cases st cell_id c) as [-> | (t & _ & ->)]; [assumption |].
  now apply emit_bookkeeping.
Qed.

Lemma step_monotone st entry r :
  In r (results st) -> In r (results (second_pass_step enodeb sc st entry)).
Proof.
  intros H. destruct entry as [cell_id c].
  destruct (step_cases st cell_id c) as [-> | (t & _ & ->)]; [assumption |].
  now apply emit_monotone.
Qed.

Lemma fold_monotone l st r :
  In r (results st) -> In r (results (fold_left (second_pass_step enodeb sc) l st)).
Proof.
  revert st. induction l as [| e rest IH]; intros st H; cbn [fold_left]; [assumption |].
  apply IH. now apply step_monotone.
Qed.

(** Soundness: a row of the pass comes from an iteration that fired. *)
Lemma fold_sound l st r :
  In r (results (fold_left (second_pass_step enodeb sc) l st)) ->
  In r (results st) \/
  exists cell_id c t,
    In (cell_id, c) l /\ fires cell_id c t /\
    (r = row_of_cell cell_id c \/ r = row_of_target cell_id c t).
Proof.
  revert st. induction l as [| [cell_id c] rest IH]; intros st H; cbn [fold_left] in H;
    [now left |].
  apply IH in H. destruct H as [H | (cid & c' & t & Hin & Hf & Hr)].
  - destruct (step_cases st cell_id c) as [E | (t & Hf & E)]; rewrite E in H.
    + now left.
    + apply emit_results in H. destruct H as [H | H]; [now left |].
      right. exists cell_id, c, t. split; [now left |]. split; assumption.
  - right. exists cid, c', t. split; [now right |]. split; assumption.
Qed.

(** Completeness: an entry that fires has both rows at the end. *)
Lemma fold_complete l st cell_id c t :
  bookkeeping_ok st -> In (cell_id, c) l -> fires cell_id c t ->
  let final := fold_left (second_pass_step enodeb sc) l st in
  has_swap_row enodeb (results final) cell_id (target c) /\
  has_swap_row enodeb (results final) (target c) cell_id.
Proof.
  revert st. induction l as [| e rest IH]; intros st Hok Hin Hf; [contradiction |].
  cbn [fold_left]. destruct Hin as [-> | Hin].
  - assert (Hnow :
      has_swap_row enodeb (results (second_pass_step enodeb sc st (cell_id, c)))
                   cell_id (target c) /\
      has_swap_row enodeb (results (second_pass_step enodeb sc st (cell_id, c)))
                   (target c) cell_id).
    { rewrite (step_fires st Hf).
      destruct (mem_pair _ (processed_pairs st)) eqn:Ep.
      - apply mem_pair_In in Ep. destruct Hok as [Hproc _].
        destruct (Hproc _ Ep) as (a & b & E & H1 & H2).
        apply sorted_pair_inj in E. destruct E as [[-> ->] | [-> ->]]; auto.
      - now apply emit_has_rows. }
    destruct Hnow as [[ty1 H1] [ty2 H2]].
    split; [exists ty1 | exists ty2]; now apply fold_monotone.
  - apply IH; [now apply step_bookkeeping | assumption | assumption].
Qed.

Lemma empty_bookkeeping : bookkeeping_ok empty_state.
Proof. split; simpl; intros; contradiction. Qed.

End SecondPass.

(** *** The first pass *)

Section FirstPass.
Variable configurations : list (string * config).
Variable sector_info : list (string * sector).
Variable mr_enodeb_data : list mr_row.
Variable carrier : string.

Definition first_pass_step (d : list (string * candidate)) (ep_row : ep_row)
  : list (string * candidate) :=
  if evaluated configurations mr_enodeb_data carrier ep_row
  then sset d (ep_cell_id ep_row)
            (make_candidate configurations sector_info mr_enodeb_data carrier ep_row)
  else d.

Lemma first_pass_sound l d0 k v :
  sget (fold_left first_pass_step l d0) k = Some v ->
  sget d0 k = Some v \/
  exists row, In row l /\ ep_cell_id row = k /\
              evaluated configurations mr_enodeb_data carrier row = true /\
              v = make_candidate configurations sector_info mr_enodeb_data carrier row.
Proof.
  revert d0. induction l as [| r0 rest IH]; intros d0 H; cbn [fold_left] in H; [now left |].
  apply IH in H. destruct H as [H | (row & Hin & Hk & He & Hv)].
  - unfold first_pass_step in H.
    destruct (evaluated configurations mr_enodeb_data carrier r0) eqn:E; [| now left].
    destruct (String.eqb (ep_cell_id r0) k) eqn:Ek.
    + apply String.eqb_eq in Ek. subst k. rewrite sget_sset_same in H.
      inversion H; subst v. right. exists r0. repeat split; auto. now left.
    + apply String.eqb_neq in Ek. rewrite sget_sset_other in H by assumption. now left.
  - right. exists row. repeat split; auto. now right.
Qed.

Lemma first_pass_untouched l d0 k :
  (forall row, In row l -> ep_cell_id row <> k) ->
  sget (fold_left first_pass_step l d0) k = sget d0 k.
Proof.
  revert d0. induction l as [| r0 rest IH]; intros d0 H; cbn [fold_left]; [reflexivity |].
  rewrite IH by (intros row Hin; apply H; now right).
  unfold first_pass_step.
  destruct (evaluated configurations mr_enodeb_data carrier r0); [| reflexivity].
  apply sget_sset_other. apply H. now left.
Qed.

Lemma first_pass_complete l d0 row :
  NoDup (map ep_cell_id l) -> In row l ->
  evaluated configurations mr_enodeb_data carrier row = true ->
  sget (fold_left first_pass_step l d0) (ep_cell_id row)
  = Some (make_candidate configurations sector_info mr_enodeb_data carrier row).
Proof.
  revert d0. induction l as [| r0 rest IH]; intros d0 Hnd Hin He; [contradiction |].
  cbn [fold_left]. cbn [map] in Hnd. inversion Hnd as [| ? ? Hnotin Hrest]; subst.
  destruct Hin as [-> | Hin].
  - rewrite first_pass_untouched.
    + unfold first_pass_step. rewrite He. apply sget_sset_same.
    + intros r Hr E. apply Hnotin. rewrite <- E. now apply in_map.
  - now apply IH.
Qed.

Lemma first_pass_NoDup l d0 :
  NoDup (map fst d0) -> NoDup (map fst (fold_left first_pass_step l d0)).
Proof.
  revert d0. induction l as [| r0 rest IH]; intros d0 H; cbn [fold_left]; [assumption |].
  apply IH. unfold first_pass_step.
  destruct (evaluated configurations mr_enodeb_data carrier r0); [| assumption].
  now apply sset_NoDup.
Qed.

End FirstPass.

(** Cell ids stay unique among the rows of one carrier. *)
Lemma rows_of_carrier_unique (ep_enodeb_data : list ep_row) (carrier : string) :
  NoDup (map ep_cell_id ep_enodeb_data) ->
  NoDup (map ep_cell_id (rows_of_carrier ep_enodeb_data carrier)).
Proof.
  unfold rows_of_carrier.
  induction ep_enodeb_data as [| row rest IH]; intros Hnd; cbn [filter map].
  - constructor.
  - cbn [map] in Hnd. apply NoDup_cons_iff in Hnd. destruct Hnd as [Hfresh Hrest].
    destruct (String.eqb (ep_carrier row) carrier); [| now apply IH].
    cbn [map]. apply NoDup_cons; [| now apply IH].
    intros Hin. apply Hfresh. apply in_map_iff in Hin.
    destruct Hin as (other & Eid & Hother). apply filter_In in Hother.
    rewrite <- Eid. apply in_map. tauto.
Qed.

(** With unique cell ids, a cell id names one EP row. *)
Lemma row_of_cell_id (ep_enodeb_data : list ep_row) (row row' : ep_row) :
  NoDup (map ep_cell_id ep_enodeb_data) ->
  In row ep_enodeb_data -> In row' ep_enodeb_data ->
  ep_cell_id row = ep_cell_id row' -> row = row'.
Proof.
  induction ep_enodeb_data as [| first rest IH]; intros Hnd Hrow Hrow' Eid;
    [contradiction |].
  cbn [map] in Hnd. apply NoDup_cons_iff in Hnd. destruct Hnd as [Hfresh Hrest].
  destruct Hrow as [-> | Hrow], Hrow' as [-> | Hrow']; auto.
  - exfalso. apply Hfresh. rewrite Eid. now apply in_map.
  - exfalso. apply Hfresh. rewrite <- Eid. now apply in_map.
Qed.

(** *** From the passes to the rows of [process_enodeb] *)

Lemma same_result_spec e1 c1 r1 t1 e2 c2 r2 t2 :
  same_result (e1, c1, r1, t1) (e2, c2, r2, t2) = true <-> e1 = e2 /\ c1 = c2 /\ r1 = r2.
Proof.
  unfold same_result. rewrite !andb_true_iff, !String.eqb_eq. tauto.
Qed.

Lemma drop_duplicates_has_swap_row enodeb l x y :
  has_swap_row enodeb (drop_duplicates same_result l) x y <-> has_swap_row enodeb l x y.
Proof.
  split.
  - intros [ty H]. exists ty. now apply drop_duplicates_In in H.
  - induction l as [| [[[e c] r] t] rest IH]; intros [ty H]; [contradiction |].
    cbn [drop_duplicates].
    destruct (same_result (e, c, r, t) (enodeb, x, swap_message x y, ty)) eqn:E.
    + apply same_result_spec in E. destruct E as (-> & -> & ->).
      exists t. now left.
    + destruct H as [H | H].
      * inversion H; subst.
        assert (same_result (enodeb, x, swap_message x y, ty)
                            (enodeb, x, swap_message x y, ty) = true)
          by (apply same_result_spec; auto).
        congruence.
      * destruct IH as [ty' H']; [now exists ty |].
        destruct (same_result (e, c, r, t) (enodeb, x, swap_message x y, ty')) eqn:E'.
        -- apply same_result_spec in E'. destruct E' as (-> & -> & ->).
           exists t. now left.
        -- exists ty'. right. apply filter_In. split; [assumption |]. now rewrite E'.
Qed.

Lemma no_swap_rows_not_swap enodeb stats found x y ty :
  ~ In (enodeb, x, swap_message x y, ty) (no_swap_rows enodeb stats found).
Proof.
  unfold no_swap_rows. rewrite in_flat_map. intros ([k v] & _ & H).
  cbn [fst snd] in H. destruct (mem_string k found); [contradiction |].
  destruct H as [H | []]. inversion H.
Qed.

(** *** The rules in the words of the specification *)

Definition sector_info_of (ep_enodeb_data : list ep_row) (carrier : string)
  : list (string * sector) :=
  match sget (sector_info_by_carrier ep_enodeb_data) carrier with
  | Some i => i
  | None => []
  end.

(** [direction_counts] of the cell of an EP row. *)
Definition histogram (ep_enodeb_data : list ep_row) (mr_enodeb_data : list mr_row)
    (row : ep_row) : list (string * Z) :=
  direction_counts_of (sector_info_of ep_enodeb_data (ep_carrier row))
                      (samples_of mr_enodeb_data (EP_key row)).

Definition total (d : list (string * Z)) : Z := sum_Z (values d).

Definition count_for (d : list (string * Z)) (cell : string) : Z :=
  match sget d cell with
  | Some n => n
  | None => 0%Z
  end.

Definition top_count (d : list (string * Z)) : Z := count_for d (max_key d).

Definition runner_up (d : list (string * Z)) : Z := second_largest (values d).

(** [max_count >= 0.70 * total] and [max_count - second >= 0.20 * total]. *)
Definition strict_rule (d : list (string * Z)) : Prop :=
  ((7 # 10) * inject_Z (total d) <= inject_Z (top_count d))%Q /\
  ((2 # 10) * inject_Z (total d) <= inject_Z (top_count d - runner_up d))%Q.

(** [ratio(X->Y) = direction_counts[X][Y] / total(X)]. *)
Definition direction_ratio (d : list (string * Z)) (cell : string) : Q :=
  inject_Z (count_for d cell) / inject_Z (total d).

Definition adaptive_rule (ratio_ab ratio_ba : Q) : Prop :=
  ((6 # 10 < ratio_ab)%Q /\ (3 # 10 < ratio_ba)%Q) \/
  ((3 # 10 < ratio_ab)%Q /\ (6 # 10 < ratio_ba)%Q).

Lemma Qltb_lt x y : Qltb x y = true <-> (x < y)%Q.
Proof.
  unfold Qltb. rewrite negb_true_iff. split; intros H.
  - apply Qnot_le_lt. intros Hle. apply Qle_bool_iff in Hle. congruence.
  - destruct (Qle_bool y x) eqn:E; [| reflexivity].
    apply Qle_bool_iff in E. exfalso. exact (Qlt_not_le _ _ H E).
Qed.

Lemma sum_Z_nonneg l : Forall (fun z => 0 <= z)%Z l -> (0 <= sum_Z l)%Z.
Proof.
  unfold sum_Z.
  assert (G : forall l acc, (0 <= acc)%Z -> Forall (fun z => 0 <= z)%Z l ->
                            (0 <= fold_left Z.add l acc)%Z).
  { clear. induction l as [| z rest IH]; intros acc Hacc Hall; simpl; [assumption |].
    inversion Hall; subst. apply IH; [lia | assumption]. }
  intros H. apply G; [lia | assumption].
Qed.

Lemma total_nonneg sector_info mr_cell_data :
  (0 <= total (direction_counts_of sector_info mr_cell_data))%Z.
Proof.
  unfold total, values, direction_counts_of. apply sum_Z_nonneg.
  rewrite map_map. apply Forall_forall. intros z Hz.
  apply in_map_iff in Hz. destruct Hz as (entry & <- & _).
  cbn [snd]. unfold count_if. lia.
Qed.

Lemma candidate_fields configurations sector_info mr_enodeb_data carrier row :
  let cand := make_candidate configurations sector_info mr_enodeb_data carrier row in
  let d := direction_counts_of sector_info (samples_of mr_enodeb_data (EP_key row)) in
  target cand = max_key d /\ max_count cand = top_count d /\ total_mr cand = total d /\
  second_max_count cand = runner_up d /\ direction_counts cand = d /\
  cand_is_split cand
  = String.eqb (cell_type_of configurations (cell_key_of (ep_cell_id row) carrier))
               "Sector Split".
Proof. repeat split; reflexivity. Qed.

Lemma strict_half_spec configurations sector_info mr_enodeb_data carrier row :
  strict_half (make_candidate configurations sector_info mr_enodeb_data carrier row) = true
  <-> strict_rule (direction_counts_of sector_info (samples_of mr_enodeb_data (EP_key row))).
Proof.
  unfold strict_half, strict_rule.
  destruct (candidate_fields configurations sector_info mr_enodeb_data carrier row)
    as (_ & -> & -> & -> & _).
  rewrite andb_true_iff, !Qle_bool_iff. reflexivity.
Qed.

Lemma ratio_positive count total_ :
  (0 < total_)%Z -> ratio count total_ = (inject_Z count / inject_Z total_)%Q.
Proof. intros H. unfold ratio. apply Z.ltb_lt in H. now rewrite H. Qed.

(** The adaptive test between two evaluated cells, each the other's target. *)
Lemma adaptive_swap_spec configurations sector_info mr_enodeb_data carrier row other :
  let c := make_candidate configurations sector_info mr_enodeb_data carrier row in
  let t := make_candidate configurations sector_info mr_enodeb_data carrier other in
  let d := direction_counts_of sector_info (samples_of mr_enodeb_data (EP_key row)) in
  let d' := direction_counts_of sector_info (samples_of mr_enodeb_data (EP_key other)) in
  target c = ep_cell_id other -> total d <> 0%Z -> total d' <> 0%Z ->
  (adaptive_swap c t (ep_cell_id row) = true <->
   adaptive_rule (direction_ratio d (ep_cell_id other)) (direction_ratio d' (ep_cell_id row))).
Proof.
  intros c t d d' Ht Hd Hd'.
  pose proof (total_nonneg sector_info (samples_of mr_enodeb_data (EP_key row))) as Hn.
  pose proof (total_nonneg sector_info (samples_of mr_enodeb_data (EP_key other))) as Hn'.
  fold d in Hn. fold d' in Hn'.
  unfold adaptive_swap, adaptive_rule, direction_ratio. cbv zeta.
  rewrite Ht.
  change (count_toward c (ep_cell_id other)) with (count_for d (ep_cell_id other)).
  change (count_toward t (ep_cell_id row)) with (count_for d' (ep_cell_id row)).
  change (total_mr c) with (total d). change (total_mr t) with (total d').
  rewrite !ratio_positive by lia.
  rewrite orb_true_iff, !andb_true_iff, !Qltb_lt. reflexivity.
Qed.

Lemma adaptive_rule_sym x y : adaptive_rule x y <-> adaptive_rule y x.
Proof. unfold adaptive_rule. tauto. Qed.

(** The verdict of a cell that is not a split cell, against its target. *)
Lemma verdict_spec configurations sector_info mr_enodeb_data carrier row other :
  let c := make_candidate configurations sector_info mr_enodeb_data carrier row in
  let t := make_candidate configurations sector_info mr_enodeb_data carrier other in
  let d := direction_counts_of sector_info (samples_of mr_enodeb_data (EP_key row)) in
  let d' := direction_counts_of sector_info (samples_of mr_enodeb_data (EP_key other)) in
  cell_type_of configurations (cell_key_of (ep_cell_id row) carrier) = "" ->
  target c = ep_cell_id other -> total d <> 0%Z -> total d' <> 0%Z ->
  (verdict c t (ep_cell_id row) = true <->
   max_key d' = ep_cell_id row /\
   ((strict_rule d /\ strict_rule d') \/
    adaptive_rule (direction_ratio d (ep_cell_id other))
                  (direction_ratio d' (ep_cell_id row)))).
Proof.
  intros c t d d' Hty Ht Hd Hd'. unfold verdict.
  destruct (candidate_fields configurations sector_info mr_enodeb_data carrier row)
    as (_ & _ & _ & _ & _ & Hsplit).
  fold c in Hsplit. rewrite Hsplit, Hty. cbn [String.eqb].
  change (target t) with (max_key d').
  rewrite andb_true_iff, orb_true_iff, String.eqb_eq.
  unfold c, t, d, d'. rewrite adaptive_swap_spec by assumption.
  unfold strict_swap. rewrite andb_true_iff, !strict_half_spec. tauto.
Qed.

Lemma swap_candidates_fold configurations sector_info ep_enodeb_data mr_enodeb_data carrier :
  swap_candidates configurations sector_info ep_enodeb_data mr_enodeb_data carrier
  = fold_left (first_pass_step configurations sector_info mr_enodeb_data carrier)
              (rows_of_carrier ep_enodeb_data carrier) [].
Proof. reflexivity. Qed.

(** A swap row among the rows of one iteration of the cell loop comes from
    the second pass over that cell's carrier. *)
Lemma process_cell_swap_row configurations enodeb ep_enodeb_data mr_enodeb_data row x y ty :
  In (enodeb, x, swap_message x y, ty)
     (process_cell configurations enodeb ep_enodeb_data mr_enodeb_data row) ->
  In (enodeb, x, swap_message x y, ty)
     (results (second_pass enodeb
        (swap_candidates configurations (sector_info_of ep_enodeb_data (ep_carrier row))
                         ep_enodeb_data mr_enodeb_data (ep_carrier row)))).
Proof.
  unfold process_cell. cbv zeta.
  destruct (String.eqb _ "Massive MIMO").
  { intros [H | []]. inversion H. }
  destruct (samples_of mr_enodeb_data (EP_key row)) as [| m rest].
  { intros [H | []]. inversion H. }
  destruct (length (m :: rest) <? 50)%nat.
  { intros [H | []]. inversion H. }
  unfold evaluate_carrier. cbv zeta. fold (sector_info_of ep_enodeb_data (ep_carrier row)).
  intros H. apply in_app_or in H. destruct H as [H | H]; [exact H |].
  exfalso. exact (no_swap_rows_not_swap _ _ _ _ _ _ H).
Qed.

(** An evaluated cell's iteration appends the rows of its carrier. *)
Lemma process_cell_evaluated configurations enodeb ep_enodeb_data mr_enodeb_data row :
  cell_type_of configurations (cell_key_of (ep_cell_id row) (ep_carrier row)) = "" ->
  (50 <= length (samples_of mr_enodeb_data (EP_key row)))%nat ->
  process_cell configurations enodeb ep_enodeb_data mr_enodeb_data row
  = evaluate_carrier configurations enodeb ep_enodeb_data mr_enodeb_data (ep_carrier row).
Proof.
  intros Hty Hlen. unfold process_cell. cbv zeta. rewrite Hty. cbn [String.eqb].
  destruct (samples_of mr_enodeb_data (EP_key row)) as [| m rest] eqn:E.
  - simpl in Hlen. lia.
  - assert (Hlt : (length (m :: rest) <? 50)%nat = false) by (apply Nat.ltb_ge; exact Hlen).
    rewrite Hlt. reflexivity.
Qed.

Lemma evaluated_true configurations mr_enodeb_data carrier row :
  cell_type_of configurations (cell_key_of (ep_cell_id row) carrier) = "" ->
  (50 <= length (samples_of mr_enodeb_data (EP_key row)))%nat ->
  evaluated configurations mr_enodeb_data carrier row = true.
Proof.
  intros Hty Hlen. unfold evaluated. rewrite Hty. cbn [String.eqb negb andb].
  now apply Nat.leb_le.
Qed.

(** The candidate found under a cell id is the one made from the only EP
    row with that id. *)
Lemma candidate_of_cell configurations ep_enodeb_data mr_enodeb_data carrier row cnd :
  NoDup (map ep_cell_id ep_enodeb_data) -> In row ep_enodeb_data ->
  In (ep_cell_id row, cnd)
     (swap_candidates configurations (sector_info_of ep_enodeb_data carrier)
                      ep_enodeb_data mr_enodeb_data carrier) ->
  carrier = ep_carrier row /\
  cnd = make_candidate configurations (sector_info_of ep_enodeb_data carrier)
                       mr_enodeb_data carrier row.
Proof.
  intros Hnd Hrow Hin. rewrite swap_candidates_fold in Hin.
  apply In_sget in Hin; [| apply first_pass_NoDup; constructor].
  apply first_pass_sound in Hin. destruct Hin as [Hin | (row' & Hin' & Hid & _ & Hc)].
  - discriminate.
  - unfold rows_of_carrier in Hin'. apply filter_In in Hin'. destruct Hin' as [Hin' Hcar].
    apply String.eqb_eq in Hcar.
    assert (row' = row) by (eapply row_of_cell_id; eauto).
    subst row'. split; [now symmetry | assumption].
Qed.

(** The conditions under which the detector reports a swap between the
    cells of two EP rows. *)
Definition swap_conditions (dA dB : list (string * Z)) (A B : string) : Prop :=
  max_key dA = B /\ max_key dB = A /\ total dA <> 0%Z /\ total dB <> 0%Z /\
  ((strict_rule dA /\ strict_rule dB) \/
   adaptive_rule (direction_ratio dA B) (direction_ratio dB A)).

Lemma swap_conditions_sym dA dB A B :
  swap_conditions dA dB A B -> swap_conditions dB dA B A.
Proof.
  unfold swap_conditions. intros (H1 & H2 & H3 & H4 & H5).
  repeat split; auto. destruct H5 as [[? ?] | H5]; [left; auto |].
  right. now apply adaptive_rule_sym.
Qed.

Section Pair.
Variable settings : parameter_settings.
Variable enodeb : string.
Variable ep_enodeb_data : list ep_row.
Variable mr_enodeb_data : list mr_row.
Variables rA rB : ep_row.

Hypothesis cell_ids_unique : NoDup (map ep_cell_id ep_enodeb_data).
Hypothesis rA_in : In rA ep_enodeb_data.
Hypothesis rB_in : In rB ep_enodeb_data.
Hypothesis same_carrier : ep_carrier rA = ep_carrier rB.
Hypothesis plain_A :
  cell_type_of (cell_configurations settings enodeb ep_enodeb_data)
               (cell_key_of (ep_cell_id rA) (ep_carrier rA)) = "".
Hypothesis plain_B :
  cell_type_of (cell_configurations settings enodeb ep_enodeb_data)
               (cell_key_of (ep_cell_id rB) (ep_carrier rB)) = "".
Hypothesis enough_A : (50 <= length (samples_of mr_enodeb_data (EP_key rA)))%nat.
Hypothesis enough_B : (50 <= length (samples_of mr_enodeb_data (EP_key rB)))%nat.

(** One swap row for A implies the conditions (the row may have been
    appended by A's iteration or by B's). *)
Lemma swap_row_conditions :
  has_swap_row enodeb (process_enodeb settings enodeb ep_enodeb_data mr_enodeb_data)
               (ep_cell_id rA) (ep_cell_id rB) ->
  swap_conditions (histogram ep_enodeb_data mr_enodeb_data rA)
                  (histogram ep_enodeb_data mr_enodeb_data rB)
                  (ep_cell_id rA) (ep_cell_id rB).
Proof.
  unfold process_enodeb. cbv zeta. rewrite drop_duplicates_has_swap_row.
  set (cfgs := cell_configurations settings enodeb ep_enodeb_data) in *.
  intros [ty Hin]. apply in_flat_map in Hin. destruct Hin as (row & Hrow & Hin).
  apply process_cell_swap_row in Hin.
  set (c' := ep_carrier row) in *.
  apply fold_sound in Hin. destruct Hin as [[] | (cid & cnd & t & Hcnd & Hf & Hr)].
  destruct Hf as (H0 & Ht & H1 & Hv & Hne).
  destruct Hr as [Hr | Hr]; apply result_row_inv in Hr; destruct Hr as [Ecid Emsg].
  - (* appended by A's own iteration *)
    subst cid. apply swap_message_inj in Emsg.
    destruct (candidate_of_cell _ _ _ _ _ _ cell_ids_unique rA_in Hcnd) as [Ec' Ecnd].
    rewrite Ec' in *. clear Ec'.
    assert (Ht' : In (ep_cell_id rB, t)
                     (swap_candidates cfgs (sector_info_of ep_enodeb_data (ep_carrier rA))
                                      ep_enodeb_data mr_enodeb_data (ep_carrier rA))).
    { apply sget_In. rewrite Emsg. exact Ht. }
    destruct (candidate_of_cell _ _ _ _ _ _ cell_ids_unique rB_in Ht') as [_ Et].
    subst cnd t.
    apply verdict_spec in Hv; [| exact plain_A | now symmetry | exact H0 | exact H1].
    unfold swap_conditions, histogram. rewrite <- same_carrier.
    destruct Hv as [Hm Hrule].
    split; [symmetry; exact Emsg |]. split; [exact Hm |].
    split; [exact H0 |]. split; [exact H1 | exact Hrule].
  - (* appended by B's iteration, for its target A *)
    rewrite <- Ecid in Emsg. apply swap_message_inj in Emsg. subst cid.
    assert (HB : In (ep_cell_id rB, cnd)
                    (swap_candidates cfgs (sector_info_of ep_enodeb_data c')
                                     ep_enodeb_data mr_enodeb_data c')) by exact Hcnd.
    destruct (candidate_of_cell _ _ _ _ _ _ cell_ids_unique rB_in HB) as [Ec' Ecnd].
    rewrite Ec' in *. clear Ec'.
    assert (Ht' : In (ep_cell_id rA, t)
                     (swap_candidates cfgs (sector_info_of ep_enodeb_data (ep_carrier rB))
                                      ep_enodeb_data mr_enodeb_data (ep_carrier rB))).
    { apply sget_In. rewrite Ecid. exact Ht. }
    destruct (candidate_of_cell _ _ _ _ _ _ cell_ids_unique rA_in Ht') as [_ Et].
    subst cnd t.
    apply verdict_spec in Hv; [| exact plain_B | now symmetry | exact H0 | exact H1].
    apply swap_conditions_sym.
    unfold swap_conditions, histogram. rewrite same_carrier.
    destruct Hv as [Hm Hrule].
    split; [symmetry; exact Ecid |]. split; [exact Hm |].
    split; [exact H0 |]. split; [exact H1 | exact Hrule].
Qed.

(** The conditions imply both rows. *)
Lemma conditions_swap_rows :
  ep_cell_id rA <> ep_cell_id rB ->
  swap_conditions (histogram ep_enodeb_data mr_enodeb_data rA)
                  (histogram ep_enodeb_data mr_enodeb_data rB)
                  (ep_cell_id rA) (ep_cell_id rB) ->
  has_swap_row enodeb (process_enodeb settings enodeb ep_enodeb_data mr_enodeb_data)
               (ep_cell_id rA) (ep_cell_id rB) /\
  has_swap_row enodeb (process_enodeb settings enodeb ep_enodeb_data mr_enodeb_data)
               (ep_cell_id rB) (ep_cell_id rA).
Proof.
  intros Hne Hcond. unfold swap_conditions, histogram in Hcond.
  rewrite <- same_carrier in Hcond.
  destruct Hcond as (HtA & HtB & H0 & H1 & Hrule).
  pose proof plain_A as HpA. pose proof plain_B as HpB.
  rewrite <- same_carrier in HpB.
  unfold process_enodeb. cbv zeta. rewrite !drop_duplicates_has_swap_row.
  set (cfgs := cell_configurations settings enodeb ep_enodeb_data) in *.
  set (c := ep_carrier rA) in *.
  set (si := sector_info_of ep_enodeb_data c) in *.
  set (sc := swap_candidates cfgs si ep_enodeb_data mr_enodeb_data c).
  set (cA := make_candidate cfgs si mr_enodeb_data c rA).
  set (cB := make_candidate cfgs si mr_enodeb_data c rB).
  assert (HrowsND : NoDup (map ep_cell_id (rows_of_carrier ep_enodeb_data c)))
    by (apply rows_of_carrier_unique; exact cell_ids_unique).
  assert (HgetA : sget sc (ep_cell_id rA) = Some cA).
  { unfold sc. rewrite swap_candidates_fold. apply first_pass_complete.
    - exact HrowsND.
    - apply filter_In. split; [exact rA_in | apply String.eqb_refl].
    - now apply evaluated_true. }
  assert (HgetB : sget sc (ep_cell_id rB) = Some cB).
  { unfold sc. rewrite swap_candidates_fold. apply first_pass_complete.
    - exact HrowsND.
    - apply filter_In. split; [exact rB_in |]. apply String.eqb_eq.
      unfold c. now symmetry.
    - now apply evaluated_true. }
  assert (Hfires : fires sc (ep_cell_id rA) cA cB).
  { unfold fires. change (target cA) with (max_key (direction_counts_of si
                           (samples_of mr_enodeb_data (EP_key rA)))).
    rewrite HtA. split; [exact H0 |]. split; [exact HgetB |]. split; [exact H1 |].
    split; [| exact Hne].
    apply verdict_spec; try assumption. split; assumption. }
  pose proof (@fold_complete enodeb sc sc empty_state (ep_cell_id rA) cA cB
                (empty_bookkeeping enodeb) (sget_In _ _ HgetA) Hfires) as Hrows.
  cbv zeta in Hrows.
  change (target cA) with (max_key (direction_counts_of si
                           (samples_of mr_enodeb_data (EP_key rA)))) in Hrows.
  rewrite HtA in Hrows.
  assert (Hcell : forall x y,
            has_swap_row enodeb (results (second_pass enodeb sc)) x y ->
            has_swap_row enodeb
              (flat_map (process_cell cfgs enodeb ep_enodeb_data mr_enodeb_data)
                        ep_enodeb_data) x y).
  { intros x y [ty Hin]. exists ty. apply in_flat_map. exists rA. split; [exact rA_in |].
    rewrite process_cell_evaluated by assumption.
    unfold evaluate_carrier. cbv zeta. apply in_or_app. left. exact Hin. }
  destruct Hrows as [HAB HBA]. split; apply Hcell; assumption.
Qed.

End Pair.

(** *** A site with two sectors *)

Local Open Scope R_scope.

Lemma bearing_east_of_site (lon1 lon2 : R) :
  0 < lon2 - lon1 < 180 ->
  calculate_azimuth 0 lon1 0 lon2 = 90.
Proof.
  intros Hd. unfold calculate_azimuth. cbv zeta.
  pose proof PI_RGT_0 as Hpi.
  replace (radians 0) with 0 by (unfold radians; field).
  rewrite sin_0, cos_0.
  replace (1 * 0 - 0 * 1 * cos (radians lon2 - radians lon1)) with 0 by ring.
  assert (Hs : 0 < sin (radians lon2 - radians lon1) * 1).
  { rewrite Rmult_1_r. apply sin_gt_0; unfold radians; nra. }
  rewrite atan2_pos_zero by assumption.
  replace (degrees (PI / 2)) with 90 by (unfold degrees; field; apply PI_neq0).
  rewrite fmod_shift by lra. ring.
Qed.

Lemma bearing_north_of_site (lat1 lat2 lon : R) :
  0 < lat2 - lat1 < 180 ->
  calculate_azimuth lat1 lon lat2 lon = 0.
Proof. exact (@GeoProps.azimuth_due_north lat1 lat2 lon). Qed.

(** The cone test once the bearing of the sample is known. *)
Lemma in_cone_at (other_az lat lon az : R) (m : mr_row) :
  calculate_azimuth lat lon (mr_latitude m) (mr_longitude m) = az ->
  0 <= az < 360 -> 0 <= az - other_az + 180 < 360 ->
  in_cone (other_az, lat, lon) m = Rleb (Rabs (az - other_az)) (65 / 2).
Proof.
  intros Haz Hr Hd. unfold in_cone, FIXED_BEAMWIDTH. rewrite Haz.
  rewrite (fmod_small (x := az)) by assumption.
  rewrite fmod_small by assumption.
  f_equal. f_equal. ring.
Qed.

Lemma count_if_repeat {A : Type} (p : A -> bool) (x : A) (n : nat) :
  count_if p (repeat x n) = if p x then Z.of_nat n else 0%Z.
Proof.
  unfold count_if. destruct (p x) eqn:E.
  - induction n as [| n IH]; [reflexivity |].
    cbn [repeat filter]. rewrite E. cbn [length]. lia.
  - induction n as [| n IH]; [reflexivity |].
    cbn [repeat filter]. rewrite E. exact IH.
Qed.

(** Sector B (planned 180) listed first, sector A (planned 0) second, both
    at the origin on carrier L1800; no split or MIMO configuration. *)
Definition sector_B : ep_row :=
  {| ep_site_id := "S1"; ep_cell_id := "B"; ep_carrier := "L1800";
     ep_azimuth := 180; ep_latitude := 0; ep_longitude := 0; EP_key := "S1_B" |}.

Definition sector_A : ep_row :=
  {| ep_site_id := "S1"; ep_cell_id := "A"; ep_carrier := "L1800";
     ep_azimuth := 0; ep_latitude := 0; ep_longitude := 0; EP_key := "S1_A" |}.

Definition no_groups : parameter_settings :=
  {| sector_split := []; massive_mimo := [] |}.

(** 50 samples of A due east of the site (in no cone), 50 samples of B due
    north of it (in A's cone only). *)
Definition sample_east : mr_row :=
  {| mr_latitude := 0; mr_longitude := 1; MR_key := "S1_A" |}.

Definition sample_north : mr_row :=
  {| mr_latitude := 1; mr_longitude := 0; MR_key := "S1_B" |}.

Definition two_sectors : list ep_row := [sector_B; sector_A].

Definition east_and_north : list mr_row := repeat sample_east 50 ++ repeat sample_north 50.

Lemma two_sectors_info :
  sector_info_of two_sectors "L1800"
  = [("B"%string, (fmod 180 360, 0, 0)); ("A"%string, (fmod 0 360, 0, 0))].
Proof. reflexivity. Qed.

Lemma samples_of_A : samples_of east_and_north "S1_A" = repeat sample_east 50.
Proof. reflexivity. Qed.

Lemma samples_of_B : samples_of east_and_north "S1_B" = repeat sample_north 50.
Proof. reflexivity. Qed.

Lemma cone_tests :
  in_cone (fmod 180 360, 0, 0) sample_east = false /\
  in_cone (fmod 0 360, 0, 0) sample_east = false /\
  in_cone (fmod 180 360, 0, 0) sample_north = false /\
  in_cone (fmod 0 360, 0, 0) sample_north = true.
Proof.
  rewrite !fmod_small by lra.
  assert (He : calculate_azimuth 0 0 (mr_latitude sample_east) (mr_longitude sample_east) = 90)
    by (apply bearing_east_of_site; simpl; lra).
  assert (Hn : calculate_azimuth 0 0 (mr_latitude sample_north) (mr_longitude sample_north) = 0)
    by (apply bearing_north_of_site; simpl; lra).
  repeat split.
  - rewrite (in_cone_at (other_az := 180) sample_east He) by lra.
    apply Rleb_false. rewrite Rabs_minus_sym, Rabs_pos_eq; lra.
  - rewrite (in_cone_at (other_az := 0) sample_east He) by lra.
    apply Rleb_false. rewrite Rabs_pos_eq; lra.
  - rewrite (in_cone_at (other_az := 180) sample_north Hn) by lra.
    apply Rleb_false. rewrite Rabs_minus_sym, Rabs_pos_eq; lra.
  - rewrite (in_cone_at (other_az := 0) sample_north Hn) by lra.
    apply Rleb_true. rewrite Rabs_pos_eq; lra.
Qed.

Lemma histogram_A :
  histogram two_sectors east_and_north sector_A = [("B"%string, 0%Z); ("A"%string, 0%Z)].
Proof.
  unfold histogram. change (ep_carrier sector_A) with "L1800"%string.
  change (EP_key sector_A) with "S1_A"%string.
  rewrite two_sectors_info, samples_of_A.
  destruct cone_tests as (E1 & E2 & _ & _).
  unfold direction_counts_of. cbn [map fst snd].
  rewrite !count_if_repeat, E1, E2. reflexivity.
Qed.

Lemma histogram_B :
  histogram two_sectors east_and_north sector_B = [("B"%string, 0%Z); ("A"%string, 50%Z)].
Proof.
  unfold histogram. change (ep_carrier sector_B) with "L1800"%string.
  change (EP_key sector_B) with "S1_B"%string.
  rewrite two_sectors_info, samples_of_B.
  destruct cone_tests as (_ & _ & E3 & E4).
  unfold direction_counts_of. cbn [map fst snd].
  rewrite !count_if_repeat, E3, E4. reflexivity.
Qed.

Lemma two_sectors_unique : NoDup (map ep_cell_id two_sectors).
Proof.
  simpl. constructor.
  - intros [H | []]. discriminate.
  - constructor; [intros [] | constructor].
Qed.

Lemma two_sectors_plain (row : ep_row) :
  In row two_sectors ->
  cell_type_of (cell_configurations no_groups "S1" two_sectors)
               (cell_key_of (ep_cell_id row) (ep_carrier row)) = ""%string.
Proof. intros [<- | [<- | []]]; reflexivity. Qed.

Lemma two_sectors_enough (row : ep_row) :
  In row two_sectors ->
  (50 <= length (samples_of east_and_north (EP_key row)))%nat.
Proof.
  intros [<- | [<- | []]].
  - change (EP_key sector_B) with "S1_B"%string.
    rewrite samples_of_B, repeat_length. lia.
  - change (EP_key sector_A) with "S1_A"%string.
    rewrite samples_of_A, repeat_length. lia.
Qed.

(** The same site with feeders swapped: A's samples lie due south (in B's
    cone), B's samples due north (in A's cone). *)
Definition sample_south : mr_row :=
  {| mr_latitude := -1; mr_longitude := 0; MR_key := "S1_A" |}.

Definition south_and_north : list mr_row :=
  repeat sample_south 50 ++ repeat sample_north 50.

Lemma samples_of_A_swapped : samples_of south_and_north "S1_A" = repeat sample_south 50.
Proof. reflexivity. Qed.

Lemma samples_of_B_swapped : samples_of south_and_north "S1_B" = repeat sample_north 50.
Proof. reflexivity. Qed.

Lemma cone_tests_south :
  in_cone (fmod 180 360, 0, 0) sample_south = true /\
  in_cone (fmod 0 360, 0, 0) sample_south = false.
Proof.
  rewrite !fmod_small by lra.
  assert (Hs : calculate_azimuth 0 0 (mr_latitude sample_south) (mr_longitude sample_south)
               = 180).
  { apply (@GeoProps.azimuth_due_south 0 (-1) 0). lra. }
  split.
  - rewrite (in_cone_at (other_az := 180) sample_south Hs) by lra.
    apply Rleb_true. replace (180 - 180) with 0 by ring. rewrite Rabs_R0. lra.
  - unfold in_cone, FIXED_BEAMWIDTH. rewrite Hs.
    rewrite (fmod_small (x := 180)) by lra.
    replace (180 - 0 + 180) with 360 by ring.
    rewrite fmod_shift by lra.
    apply Rleb_false. replace (360 - 360 - 180) with (- (180)) by ring.
    rewrite Rabs_Ropp, Rabs_pos_eq; lra.
Qed.

Lemma histogram_A_swapped :
  histogram two_sectors south_and_north sector_A = [("B"%string, 50%Z); ("A"%string, 0%Z)].
Proof.
  unfold histogram. change (ep_carrier sector_A) with "L1800"%string.
  change (EP_key sector_A) with "S1_A"%string.
  rewrite two_sectors_info, samples_of_A_swapped.
  destruct cone_tests_south as (E1 & E2).
  unfold direction_counts_of. cbn [map fst snd].
  rewrite !count_if_repeat, E1, E2. reflexivity.
Qed.

Lemma histogram_B_swapped :
  histogram two_sectors south_and_north sector_B = [("B"%string, 0%Z); ("A"%string, 50%Z)].
Proof.
  unfold histogram. change (ep_carrier sector_B) with "L1800"%string.
  change (EP_key sector_B) with "S1_B"%string.
  rewrite two_sectors_info, samples_of_B_swapped.
  destruct cone_tests as (_ & _ & E3 & E4).
  unfold direction_counts_of. cbn [map fst snd].
  rewrite !count_if_repeat, E3, E4. reflexivity.
Qed.

Lemma swapped_enough (row : ep_row) :
  In row two_sectors ->
  (50 <= length (samples_of south_and_north (EP_key row)))%nat.
Proof.
  intros [<- | [<- | []]].
  - change (EP_key sector_B) with "S1_B"%string.
    rewrite samples_of_B_swapped, repeat_length. lia.
  - change (EP_key sector_A) with "S1_A"%string.
    rewrite samples_of_A_swapped, repeat_length. lia.
Qed.

Local Close Scope R_scope.

(** C1, the claim as stated fails.  A's 50 samples fall in no cone, so all
    counts of A are 0 and its argmax is the first sector, B; B's 50 samples
    fall in A's cone only.  The pair is mutual and the strict rule holds for
    both (for A as 0 >= 0), yet the loop of line 424 skips a candidate whose
    total is 0 and no swap row is produced. *)
Lemma C1_mutual_strict_pair_with_zero_total_not_swapped :
  let dA := histogram two_sectors east_and_north sector_A in
  let dB := histogram two_sectors east_and_north sector_B in
  let out := process_enodeb no_groups "S1" two_sectors east_and_north in
  dA = [("B", 0%Z); ("A", 0%Z)] /\ dB = [("B", 0%Z); ("A", 50%Z)] /\
  max_key dA = "B" /\ max_key dB = "A" /\
  strict_rule dA /\ strict_rule dB /\
  ~ (has_swap_row "S1" out "A" "B" /\ has_swap_row "S1" out "B" "A").
Proof.
  cbv zeta. rewrite histogram_A, histogram_B.
  split; [reflexivity |]. split; [reflexivity |].
  split; [reflexivity |]. split; [reflexivity |].
  split; [split; vm_compute; discriminate |].
  split; [split; vm_compute; discriminate |].
  intros [H _].
  assert (Hc : swap_conditions (histogram two_sectors east_and_north sector_A)
                               (histogram two_sectors east_and_north sector_B) "A" "B").
  { apply (@swap_row_conditions no_groups "S1" two_sectors east_and_north
             sector_A sector_B two_sectors_unique).
    - right. now left.
    - now left.
    - reflexivity.
    - apply two_sectors_plain. right. now left.
    - apply two_sectors_plain. now left.
    - exact H. }
  rewrite histogram_A in Hc. destruct Hc as (_ & _ & Hzero & _).
  apply Hzero. reflexivity.
Qed.

(** C1, amended.  Cell ids being unique within the site, for two distinct
    cells A and B of one carrier, neither split nor MIMO, each with at least
    50 attributed samples: both receive their "Sector Swap Found Between"
    row if and only if each is the other's target (argmax of its
    direction counts), both totals are non-zero, and the strict rule holds for
    both or the adaptive rule holds for the two ratios. *)
Theorem C1_swap_confirmed_iff_mutual_and_rule
    (settings : parameter_settings) (enodeb : string)
    (ep_enodeb_data : list ep_row) (mr_enodeb_data : list mr_row) (rA rB : ep_row) :
  NoDup (map ep_cell_id ep_enodeb_data) ->
  In rA ep_enodeb_data -> In rB ep_enodeb_data ->
  ep_carrier rA = ep_carrier rB -> ep_cell_id rA <> ep_cell_id rB ->
  cell_type_of (cell_configurations settings enodeb ep_enodeb_data)
               (cell_key_of (ep_cell_id rA) (ep_carrier rA)) = "" ->
  cell_type_of (cell_configurations settings enodeb ep_enodeb_data)
               (cell_key_of (ep_cell_id rB) (ep_carrier rB)) = "" ->
  (50 <= length (samples_of mr_enodeb_data (EP_key rA)))%nat ->
  (50 <= length (samples_of mr_enodeb_data (EP_key rB)))%nat ->
  let A := ep_cell_id rA in
  let B := ep_cell_id rB in
  let dA := histogram ep_enodeb_data mr_enodeb_data rA in
  let dB := histogram ep_enodeb_data mr_enodeb_data rB in
  let out := process_enodeb settings enodeb ep_enodeb_data mr_enodeb_data in
  (has_swap_row enodeb out A B /\ has_swap_row enodeb out B A) <->
  (max_key dA = B /\ max_key dB = A /\ total dA <> 0%Z /\ total dB <> 0%Z /\
   ((strict_rule dA /\ strict_rule dB) \/
    adaptive_rule (direction_ratio dA B) (direction_ratio dB A))).
Proof.
  intros Hnd HA HB Hcar Hne HpA HpB HnA HnB A B dA dB out. split.
  - intros [H _].
    apply (@swap_row_conditions settings enodeb ep_enodeb_data mr_enodeb_data rA rB);
      assumption.
  - intros Hc.
    apply (@conditions_swap_rows settings enodeb ep_enodeb_data mr_enodeb_data rA rB);
      assumption.
Qed.

Lemma C1_witness :
  NoDup (map ep_cell_id two_sectors) /\
  ep_cell_id sector_A <> ep_cell_id sector_B /\
  (50 <= length (samples_of south_and_north (EP_key sector_A)))%nat /\
  (50 <= length (samples_of south_and_north (EP_key sector_B)))%nat /\
  let out := process_enodeb no_groups "S1" two_sectors south_and_north in
  has_swap_row "S1" out "A" "B" /\ has_swap_row "S1" out "B" "A".
Proof.
  assert (Hne : ep_cell_id sector_A <> ep_cell_id sector_B) by discriminate.
  assert (HA : In sector_A two_sectors) by (right; now left).
  assert (HB : In sector_B two_sectors) by now left.
  split; [exact two_sectors_unique |]. split; [exact Hne |].
  split; [exact (@swapped_enough sector_A HA) |].
  split; [exact (@swapped_enough sector_B HB) |].
  apply (proj2 (@C1_swap_confirmed_iff_mutual_and_rule no_groups "S1" two_sectors
           south_and_north sector_A sector_B two_sectors_unique HA HB eq_refl Hne
           (@two_sectors_plain sector_A HA) (@two_sectors_plain sector_B HB)
           (@swapped_enough sector_A HA) (@swapped_enough sector_B HB))).
  rewrite histogram_A_swapped, histogram_B_swapped.
  split; [reflexivity |]. split; [reflexivity |].
  split; [discriminate |]. split; [discriminate |].
  left. split; split; vm_compute; discriminate.
Defined.

(** *** A MIMO group whose cell ids hold an underscore *)

Definition beam (cell_id : string) (azimuth : R) : ep_row :=
  {| ep_site_id := "S1"; ep_cell_id := cell_id; ep_carrier := "L1800";
     ep_azimuth := azimuth; ep_latitude := 0%R; ep_longitude := 0%R;
     EP_key := "S1_" ++ cell_id |}.

Definition four_beams : list ep_row :=
  [beam "M_0" 0%R; beam "M_1" 90%R; beam "M_2" 180%R; beam "M_3" 270%R].

Definition one_mimo_group : parameter_settings :=
  {| sector_split := [];
     massive_mimo := [ {| mimo_Layer := "L1800"; Beam0 := "M_0"; Beam1 := "M_1";
                          Beam2 := "M_2"; Beam3 := "M_3" |} ] |}.

(** C2 (the code departs from the claim).  The four beams M_0 ... M_3 of the
    configured group all exist at site S1 on carrier L1800, and
    [check_massive_mimo_group] finds the group.  Line 237 recovers the carrier
    as [cell_key.split('_')[1]], which for the key "M_0_L1800" is "0"; the
    beam keys "M_0_0" ... "M_3_0" are not configuration keys, the group is
    recorded as invalid, no final type is set, and the cells go through the
    ordinary path: here, without MR data, each is reported "NO MR Data found
    for the cell" with an empty cell type instead of the Massive MIMO row. *)
Theorem C2_underscore_in_cell_id_defeats_mimo_exclusion :
  check_massive_mimo_group (massive_mimo one_mimo_group) "S1" "M_0" "L1800" four_beams
  = (true, Some ["M_0"; "M_1"; "M_2"; "M_3"]) /\
  forallb (fun b => existsb (fun e => String.eqb (ep_cell_id e) b
                                      && String.eqb (ep_carrier e) "L1800") four_beams)
          ["M_0"; "M_1"; "M_2"; "M_3"] = true /\
  key_carrier (cell_key_of "M_0" "L1800") = "0" /\
  cell_type_of (cell_configurations one_mimo_group "S1" four_beams)
               (cell_key_of "M_0" "L1800") = "" /\
  process_enodeb one_mimo_group "S1" four_beams []
  = [ ("S1", "M_0", "NO MR Data found for the cell", "");
      ("S1", "M_1", "NO MR Data found for the cell", "");
      ("S1", "M_2", "NO MR Data found for the cell", "");
      ("S1", "M_3", "NO MR Data found for the cell", "") ].
Proof. repeat split; reflexivity. Qed.

(** The same site with plain cell ids is resolved as the claim says. *)
Example plain_ids_resolved_as_mimo :
  let plain := {| sector_split := [];
                  massive_mimo := [ {| mimo_Layer := "L1800"; Beam0 := "0"; Beam1 := "1";
                                       Beam2 := "2"; Beam3 := "3" |} ] |} in
  process_enodeb plain "S1" [beam "0" 0%R; beam "1" 90%R; beam "2" 180%R; beam "3" 270%R] []
  = [ ("S1", "0", "No Sector Swap Found - Massive MIMO", "Massive MIMO");
      ("S1", "1", "No Sector Swap Found - Massive MIMO", "Massive MIMO");
      ("S1", "2", "No Sector Swap Found - Massive MIMO", "Massive MIMO");
      ("S1", "3", "No Sector Swap Found - Massive MIMO", "Massive MIMO") ].
Proof. reflexivity. Qed.

End SwapProps.

(* ================================================================= *)
(** ** Further properties of the geodesic functions *)

Module GeoFacts.
Import PyMath.
Local Open Scope R_scope.

Lemma fmod_range (x m : R) : 0 < m -> 0 <= fmod x m < m.
Proof.
  intros Hm. unfold fmod.
  destruct (base_Int_part (x / m)) as [Hlo Hhi].
  set (k := IZR (Int_part (x / m))) in *.
  assert (Hx : x = m * (x / m)) by (field; lra).
  split; nra.
Qed.

Lemma fmod_wrap_up (x m : R) : 0 < m -> - m <= x < 0 -> fmod x m = x + m.
Proof.
  intros Hm [H0 H1]. unfold fmod.
  assert (Hz : (-1)%Z = Int_part (x / m)).
  { apply Int_part_spec.
    assert (-1 <= x / m) by (apply Rmult_le_reg_r with m; [lra | field_simplify; lra]).
    assert (x / m < 0) by (apply Rmult_lt_reg_r with m; [lra | field_simplify; lra]).
    lra. }
  rewrite <- Hz. lra.
Qed.

Lemma haversine_a_sym (lat1 lon1 lat2 lon2 : R) :
  AzimuthUtils.haversine_a lat1 lon1 lat2 lon2 = AzimuthUtils.haversine_a lat2 lon2 lat1 lon1.
Proof.
  unfold AzimuthUtils.haversine_a. cbv zeta.
  replace ((lat1 - lat2) / 2) with (- ((lat2 - lat1) / 2)) by field.
  replace ((lon1 - lon2) / 2) with (- ((lon2 - lon1) / 2)) by field.
  rewrite !sin_neg. ring.
Qed.

Lemma haversine_a_same (lat lon : R) : AzimuthUtils.haversine_a lat lon lat lon = 0.
Proof.
  unfold AzimuthUtils.haversine_a. cbv zeta.
  replace ((lat - lat) / 2) with 0 by field.
  replace ((lon - lon) / 2) with 0 by field.
  rewrite sin_0. ring.
Qed.

(** Closed form of the neighbour finder's copy, in metres. *)
Lemma neighbor_distance_value (lat1 lon1 lat2 lon2 : R) :
  let a := AzimuthUtils.haversine_a (radians lat1) (radians lon1) (radians lat2) (radians lon2) in
  NeighborCalculator.calculate_distance lat1 lon1 lat2 lon2
  = Returned (6371000 * (2 * atan2 (sqrt a) (sqrt (1 - a)))).
Proof.
  intros a. unfold NeighborCalculator.calculate_distance. cbv zeta.
  pose proof (AzimuthUtils.haversine_a_range
                (radians lat1) (radians lon1) (radians lat2) (radians lon2)) as Ha.
  fold a in Ha. unfold AzimuthUtils.haversine_a in a. cbv zeta in a. fold a.
  rewrite (AzimuthUtils.py_sqrt_nonneg (x := a)) by lra. cbn [bind].
  rewrite (AzimuthUtils.py_sqrt_nonneg (x := 1 - a)) by lra. cbn [bind].
  reflexivity.
Qed.

Lemma neighbor_distance_swap (lat1 lon1 lat2 lon2 : R) :
  NeighborCalculator.calculate_distance lat1 lon1 lat2 lon2
  = NeighborCalculator.calculate_distance lat2 lon2 lat1 lon1.
Proof.
  rewrite !neighbor_distance_value. cbv zeta.
  now rewrite (haversine_a_sym (radians lat2) (radians lon2) (radians lat1) (radians lon1)).
Qed.

Lemma class_distance_value (lat1 lon1 lat2 lon2 : R) :
  SectorSwapCalculator.calculate_distance lat1 lon1 lat2 lon2
  = AzimuthUtils.calculate_distance lat1 lon1 lat2 lon2.
Proof. reflexivity. Qed.

Lemma module_distance_swap (lat1 lon1 lat2 lon2 : R) :
  AzimuthUtils.calculate_distance lat1 lon1 lat2 lon2
  = AzimuthUtils.calculate_distance lat2 lon2 lat1 lon1.
Proof.
  rewrite !AzimuthUtils.calculate_distance_value. cbv zeta.
  now rewrite (haversine_a_sym (radians lat2) (radians lon2) (radians lat1) (radians lon1)).
Qed.

Lemma module_distance_same (lat lon : R) :
  AzimuthUtils.calculate_distance lat lon lat lon = Returned 0.
Proof.
  rewrite AzimuthUtils.calculate_distance_value. cbv zeta.
  rewrite haversine_a_same. replace (1 - 0) with 1 by ring.
  rewrite sqrt_0, sqrt_1, atan2_zero_pos by lra. f_equal. ring.
Qed.

(** X1.  The haversine distance is symmetric in its two points and is 0
    from a point to itself, for every real input; this holds for each of the
    four copies of the function: azimuth_utils.py, the coverage profiler, the
    neighbour finder and the sector-swap class. *)
Theorem distance_symmetric_and_zero_on_equal (lat1 lon1 lat2 lon2 : R) :
  (AzimuthUtils.calculate_distance lat1 lon1 lat2 lon2
   = AzimuthUtils.calculate_distance lat2 lon2 lat1 lon1 /\
   AzimuthUtils.calculate_distance lat1 lon1 lat1 lon1 = Returned 0) /\
  (CoverageCalculator.calculate_distance lat1 lon1 lat2 lon2
   = CoverageCalculator.calculate_distance lat2 lon2 lat1 lon1 /\
   CoverageCalculator.calculate_distance lat1 lon1 lat1 lon1 = 0) /\
  (NeighborCalculator.calculate_distance lat1 lon1 lat2 lon2
   = NeighborCalculator.calculate_distance lat2 lon2 lat1 lon1 /\
   NeighborCalculator.calculate_distance lat1 lon1 lat1 lon1 = Returned 0) /\
  (SectorSwapCalculator.calculate_distance lat1 lon1 lat2 lon2
   = SectorSwapCalculator.calculate_distance lat2 lon2 lat1 lon1 /\
   SectorSwapCalculator.calculate_distance lat1 lon1 lat1 lon1 = Returned 0).
Proof.
  split; [| split; [| split]].
  - split; [apply module_distance_swap | apply module_distance_same].
  - split.
    + assert (E : Returned (CoverageCalculator.calculate_distance lat1 lon1 lat2 lon2)
                  = Returned (CoverageCalculator.calculate_distance lat2 lon2 lat1 lon1)).
      { rewrite !GeoProps.coverage_distance_value. apply module_distance_swap. }
      now inversion E.
    + assert (E : Returned (CoverageCalculator.calculate_distance lat1 lon1 lat1 lon1)
                  = Returned 0).
      { rewrite GeoProps.coverage_distance_value. apply module_distance_same. }
      now inversion E.
  - split; [apply neighbor_distance_swap |].
    rewrite neighbor_distance_value. cbv zeta.
    rewrite haversine_a_same. replace (1 - 0) with 1 by ring.
    rewrite sqrt_0, sqrt_1, atan2_zero_pos by lra. f_equal. ring.
  - rewrite !class_distance_value.
    split; [apply module_distance_swap | apply module_distance_same].
Qed.

Lemma bearing_to_sample_range (lat1 lon1 lat2 lon2 : R) :
  0 <= SectorSwapCalculator.calculate_azimuth lat1 lon1 lat2 lon2 < 360.
Proof.
  unfold SectorSwapCalculator.calculate_azimuth. cbv zeta. apply fmod_range. lra.
Qed.

(** X2.  For finite coordinates, in range or not, the bearing is a compass
    angle: at least 0 and strictly below 360.  (A NaN coordinate gives NaN
    and an infinite one makes [math.sin] raise; neither is a real number.) *)
Theorem azimuth_in_compass_range (lat1 lon1 lat2 lon2 : R) :
  0 <= AzimuthUtils.calculate_azimuth lat1 lon1 lat2 lon2 < 360 /\
  0 <= SectorSwapCalculator.calculate_azimuth lat1 lon1 lat2 lon2 < 360.
Proof.
  split.
  - unfold AzimuthUtils.calculate_azimuth. cbv zeta. apply fmod_range. lra.
  - apply bearing_to_sample_range.
Qed.

Lemma azimuth_difference_sym (az1 az2 : R) :
  NeighborCalculator.calculate_azimuth_difference az1 az2
  = NeighborCalculator.calculate_azimuth_difference az2 az1.
Proof.
  unfold NeighborCalculator.calculate_azimuth_difference. cbv zeta.
  now rewrite (Rabs_minus_sym az1 az2).
Qed.

Lemma azimuth_difference_bounds (az1 az2 : R) :
  0 <= az1 <= 360 -> 0 <= az2 <= 360 ->
  0 <= NeighborCalculator.calculate_azimuth_difference az1 az2 <= 180.
Proof.
  intros H1 H2. unfold NeighborCalculator.calculate_azimuth_difference. cbv zeta.
  assert (Hd : 0 <= Rabs (az1 - az2) <= 360).
  { split; [apply Rabs_pos |]. apply Rabs_le. lra. }
  destruct (Rle_dec (Rabs (az1 - az2)) (360 - Rabs (az1 - az2))) as [Hle | Hgt].
  - rewrite Rmin_left by assumption. lra.
  - rewrite Rmin_right by lra. lra.
Qed.

(** X3.  The azimuth difference does not depend on the order of its
    arguments, is 0 for equal azimuths, and for two azimuths between 0 and
    360 lies between 0 and 180; with an azimuth outside that range it can be
    negative (planned 400 against 10 gives -30). *)
Theorem azimuth_difference_properties (az1 az2 : R) :
  NeighborCalculator.calculate_azimuth_difference az1 az2
  = NeighborCalculator.calculate_azimuth_difference az2 az1 /\
  NeighborCalculator.calculate_azimuth_difference az1 az1 = 0 /\
  (0 <= az1 <= 360 -> 0 <= az2 <= 360 ->
   0 <= NeighborCalculator.calculate_azimuth_difference az1 az2 <= 180) /\
  NeighborCalculator.calculate_azimuth_difference 400 10 = -30.
Proof.
  split; [apply azimuth_difference_sym |].
  split; [| split; [apply azimuth_difference_bounds |]].
  - unfold NeighborCalculator.calculate_azimuth_difference. cbv zeta.
    replace (az1 - az1) with 0 by ring. rewrite Rabs_R0.
    rewrite Rmin_left by lra. reflexivity.
  - unfold NeighborCalculator.calculate_azimuth_difference. cbv zeta.
    replace (400 - 10) with 390 by ring. rewrite Rabs_pos_eq by lra.
    rewrite Rmin_right by lra. ring.
Qed.

Lemma azimuth_difference_witness :
  0 <= 350 <= 360 /\ 0 <= 0 <= 360 /\
  0 <= NeighborCalculator.calculate_azimuth_difference 350 0 <= 180.
Proof.
  assert (H1 : 0 <= 350 <= 360) by lra.
  assert (H2 : 0 <= 0 <= 360) by lra.
  split; [exact H1 |]. split; [exact H2 |].
  exact (proj1 (proj2 (proj2 (azimuth_difference_properties 350 0))) H1 H2).
Defined.

Lemma bearing_to_centroid_range (lat1 lon1 lat2 lon2 : R) :
  0 <= AzimuthUtils.calculate_azimuth lat1 lon1 lat2 lon2 < 360.
Proof.
  unfold AzimuthUtils.calculate_azimuth. cbv zeta. apply fmod_range. lra.
Qed.

End GeoFacts.

(* ================================================================= *)
(** ** Further properties of the coverage profiler *)

Module CoverageFacts.
Import PyMath PyList CoverageCalculator CoverageProps.
Local Open Scope string_scope.

Definition Zsum (l : list Z) : Z := fold_right Z.add 0%Z l.



Lemma valid_distances_length ep_lat ep_lon rows :
  (length (valid_distances ep_lat ep_lon rows) <= length rows)%nat.
Proof.
  unfold valid_distances. induction rows as [| row rest IH]; cbn [collect].
  - simpl. lia.
  - destruct (collect ep_lat ep_lon rest) as [ds rs]. cbn [fst] in IH.
    destruct (measurement ep_lat ep_lon row) as [[d r] | e]; cbn [fst length]; lia.
Qed.





(** *** The RSRP bins *)

(** The sample is outside the closed interval from -70 to -40 dBm. *)
Definition outside_gap (v : Q) : bool := Qltb v (-70) || Qltb (-40) v.

Lemma one_rsrp_bin (v : Q) :
  ((if Qle_bool (-70) v && Qltb (-40) v then 1 else 0)
   + ((if Qle_bool (-85) v && Qltb v (-70) then 1 else 0)
      + ((if Qle_bool (-95) v && Qltb v (-85) then 1 else 0)
         + ((if Qle_bool (-105) v && Qltb v (-95) then 1 else 0)
            + (if Qltb v (-105) then 1 else 0)))))%Z
  = (if outside_gap v then 1 else 0)%Z.
Proof.
  destruct v as [n d]. unfold outside_gap, Qltb, Qle_bool. cbn [Qnum Qden].
  repeat match goal with
         | |- context [(?a <=? ?b)%Z] => destruct (Z.leb_spec a b)
         end; cbn [negb andb orb]; lia.
Qed.

Lemma rsrp_counts_total (vs : list Q) :
  Zsum (rsrp_counts vs) = count_if outside_gap vs.
Proof.
  unfold rsrp_counts, Zsum. cbn [fold_right].
  induction vs as [| v rest IH].
  - reflexivity.
  - rewrite !count_if_cons. pose proof (one_rsrp_bin v) as Hone. lia.
Qed.

Lemma rsrp_counts_in_gap (vs : list Q) :
  (forall v, In v vs -> (-70 <= v)%Q /\ (v <= -40)%Q) ->
  rsrp_counts vs = [0; 0; 0; 0; 0]%Z.
Proof.
  intros Hgap. unfold rsrp_counts. cbv zeta.
  assert (Hhi : forall v, In v vs -> Qltb (-40) v = false).
  { intros v Hv. destruct (Hgap v Hv) as [_ H]. unfold Qltb.
    apply Qle_bool_iff in H. now rewrite H. }
  assert (Hlo : forall v c, In v vs -> (c <= -70)%Q -> Qltb v c = false).
  { intros v c Hv Hc. destruct (Hgap v Hv) as [H _]. unfold Qltb.
    assert (Hcv : (c <= v)%Q) by (eapply Qle_trans; eassumption).
    apply Qle_bool_iff in Hcv. now rewrite Hcv. }
  rewrite !count_if_none; [reflexivity | | | | |]; intros v Hv.
  - apply (Hlo v _ Hv). discriminate.
  - rewrite (Hlo v (-95)%Q Hv) by discriminate. apply andb_false_r.
  - rewrite (Hlo v (-85)%Q Hv) by discriminate. apply andb_false_r.
  - rewrite (Hlo v (-70)%Q Hv) by (apply Qle_refl). apply andb_false_r.
  - rewrite (Hhi v Hv). apply andb_false_r.
Qed.

(** X6.  The five RSRP counts of lines 102-113 together count exactly the
    valid samples below -70 dBm or above -40 dBm: a sample from -70 to
    -40 dBm inclusive is counted in no bin.  When every valid sample of the
    cell lies in that interval all five RSRP percentages are 0.0% and the
    status is "Good Coverage". *)
Theorem rsrp_bins_count_no_sample_between_minus_70_and_minus_40
    (site_id cell_id carrier : string) (ep_lat ep_lon : R) (mr_data : list mr_row) :
  let rows := cell_samples site_id cell_id mr_data in
  let valid := valid_rsrp ep_lat ep_lon rows in
  let r := process_cell site_id cell_id ep_lat ep_lon carrier mr_data in
  valid <> [] ->
  Zsum (rsrp_counts valid) = count_if outside_gap valid /\
  ((forall v, In v valid -> (-70 <= v)%Q /\ (v <= -40)%Q) ->
   res_rsrp r = [0; 0; 0; 0; 0]%Z /\ res_status r = "Good Coverage").
Proof.
  intros rows valid r Hvalid.
  pose proof (process_cell_shares site_id cell_id ep_lat ep_lon carrier mr_data Hvalid)
    as [_ Hshares].
  fold rows in Hshares. fold valid in Hshares. fold r in Hshares.
  split; [apply rsrp_counts_total |].
  intros Hgap.
  assert (Ht : (0 < Z.of_nat (length rows))%Z).
  { destruct rows; [| simpl; lia]. exfalso. apply Hvalid. reflexivity. }
  split.
  - rewrite Hshares, (rsrp_counts_in_gap valid Hgap). cbn [map].
    rewrite (format_none Ht). reflexivity.
  - destruct (process_cell_status site_id cell_id ep_lat ep_lon carrier mr_data Hvalid)
      as [_ Hst].
    fold rows in Hst. fold valid in Hst. fold r in Hst. rewrite Hst.
    apply coverage_status_good; [exact Ht |].
    rewrite count_if_none; [lia |].
    intros v Hv. destruct (Hgap v Hv) as [H _]. unfold Qltb.
    assert (Hcv : (-105 <= v)%Q) by (eapply Qle_trans; [| exact H]; discriminate).
    apply Qle_bool_iff in Hcv. now rewrite Hcv.
Qed.

Lemma rsrp_bins_witness :
  let mr_data := [sample "S1" "1" 0 0 (-60); sample "S1" "1" 0 0 (-50)] in
  valid_rsrp 0 0 (cell_samples "S1" "1" mr_data) <> [] /\
  res_rsrp (process_cell "S1" "1" 0 0 "L1800" mr_data) = [0; 0; 0; 0; 0]%Z /\
  res_status (process_cell "S1" "1" 0 0 "L1800" mr_data) = "Good Coverage".
Proof.
  intros mr_data.
  assert (Hv : valid_rsrp 0 0 (cell_samples "S1" "1" mr_data) <> []) by discriminate.
  split; [exact Hv |].
  apply (proj2
    (rsrp_bins_count_no_sample_between_minus_70_and_minus_40 "S1" "1" "L1800" 0 0 mr_data Hv)).
  intros v [<- | [<- | []]]; split; discriminate.
Defined.

(** *** Rows without a usable sample *)

Lemma process_cell_no_valid site_id cell_id ep_lat ep_lon carrier mr_data :
  valid_rsrp ep_lat ep_lon (cell_samples site_id cell_id mr_data) = [] ->
  process_cell site_id cell_id ep_lat ep_lon carrier mr_data
  = base_result site_id cell_id carrier.
Proof.
  intros Hvalid. unfold process_cell. fold (cell_samples site_id cell_id mr_data).
  unfold valid_rsrp in Hvalid.
  pose proof (collect_lengths ep_lat ep_lon (cell_samples site_id cell_id mr_data)) as Hlen.
  destruct (cell_samples site_id cell_id mr_data) as [| row0 rest]; [reflexivity |].
  destruct (collect ep_lat ep_lon (row0 :: rest)) as [ds rs].
  cbn [fst snd] in Hvalid, Hlen. subst rs.
  destruct ds; [reflexivity | discriminate].
Qed.

Lemma coverage_status_values count total :
  coverage_status count total = "Poor Coverage"
  \/ coverage_status count total = "Good Coverage".
Proof. unfold coverage_status. cbv zeta. destruct (Qltb 50 _); auto. Qed.

Lemma no_mr_data_or_computed site_id cell_id ep_lat ep_lon carrier mr_data :
  let r := process_cell site_id cell_id ep_lat ep_lon carrier mr_data in
  res_status r = "No MR Data"
  \/ (res_status r = "Poor Coverage" \/ res_status r = "Good Coverage").
Proof.
  intros r.
  destruct (valid_rsrp ep_lat ep_lon (cell_samples site_id cell_id mr_data)) as [| v vs] eqn:E.
  - left. unfold r. rewrite process_cell_no_valid by exact E. reflexivity.
  - right. assert (Hne : valid_rsrp ep_lat ep_lon (cell_samples site_id cell_id mr_data) <> [])
      by (rewrite E; discriminate).
    destruct (process_cell_status site_id cell_id ep_lat ep_lon carrier mr_data Hne)
      as [_ Hst].
    fold r in Hst. rewrite Hst. apply coverage_status_values.
Qed.

(** X7.  A cell's row reads "No MR Data", with all percentages 0.0% and a
    total of 0, exactly when none of its MR rows converts (no row, or every
    row has a latitude, longitude or RSRP that [float()] rejects).  As soon
    as one row converts, the reported total is the number of all MR rows of
    the cell, the rejected ones included, and the status is "Poor Coverage"
    or "Good Coverage". *)
Theorem no_mr_data_iff_no_row_converts
    (site_id cell_id carrier : string) (ep_lat ep_lon : R) (mr_data : list mr_row) :
  let rows := cell_samples site_id cell_id mr_data in
  let valid := valid_rsrp ep_lat ep_lon rows in
  let r := process_cell site_id cell_id ep_lat ep_lon carrier mr_data in
  (res_status r = "No MR Data" <-> valid = []) /\
  (valid = [] -> r = base_result site_id cell_id carrier) /\
  (valid <> [] ->
   res_total r = Z.of_nat (length rows) /\
   (Z.of_nat (length valid) <= res_total r)%Z /\
   (res_status r = "Poor Coverage" \/ res_status r = "Good Coverage")).
Proof.
  intros rows valid r.
  assert (Hsome : valid <> [] ->
            res_total r = Z.of_nat (length rows) /\
            (Z.of_nat (length valid) <= res_total r)%Z /\
            (res_status r = "Poor Coverage" \/ res_status r = "Good Coverage")).
  { intros Hvalid.
    destruct (process_cell_status site_id cell_id ep_lat ep_lon carrier mr_data Hvalid)
      as [Htot Hst].
    fold rows in Htot, Hst. fold r in Htot, Hst.
    split; [exact Htot |]. split.
    - rewrite Htot. unfold valid, valid_rsrp.
      rewrite <- collect_lengths.
      pose proof (valid_distances_length ep_lat ep_lon rows) as Hle.
      unfold valid_distances in Hle. lia.
    - rewrite Hst. apply coverage_status_values. }
  split; [| split; [| exact Hsome]].
  - split.
    + intros Hst. destruct valid as [| v vs] eqn:E; [reflexivity |].
      assert (Hne : v :: vs <> []) by discriminate.
      destruct (Hsome Hne) as (_ & _ & [H | H]); rewrite H in Hst; discriminate.
    + intros E. unfold r. rewrite process_cell_no_valid by exact E. reflexivity.
  - intros E. unfold r. now apply process_cell_no_valid.
Qed.

Lemma no_mr_data_witness :
  let mr_data := [ {| mr_site_id := "S1"; mr_cell_id := "1"; mr_latitude := Bad "n/a";
                      mr_longitude := Num 0%R; mr_rsrp := Num (-110) |};
                   sample "S1" "1" 0 0 (-60) ] in
  valid_rsrp 0 0 (cell_samples "S1" "1" mr_data) <> [] /\
  res_total (process_cell "S1" "1" 0 0 "L1800" mr_data) = 2%Z.
Proof.
  intros mr_data.
  assert (Hv : valid_rsrp 0 0 (cell_samples "S1" "1" mr_data) <> []) by discriminate.
  split; [exact Hv |].
  exact (proj1 (proj2 (proj2
    (no_mr_data_iff_no_row_converts "S1" "1" "L1800" 0 0 mr_data)) Hv)).
Defined.

(** *** The result table *)

(** The first EP row with the combination's site and cell has numeric
    coordinates. *)
Definition located (ep_data : list ep_row) (row : combination) : bool :=
  let '(site_id, cell_id, _) := row in
  match ep_cell_data ep_data site_id cell_id with
  | first :: _ =>
      match ep_latitude first, ep_longitude first with
      | Num _, Num _ => true
      | _, _ => false
      end
  | [] => false
  end.

Lemma combination_has_ep_row ep_data site_id cell_id carrier :
  In (site_id, cell_id, carrier) (cell_combinations ep_data) ->
  ep_cell_data ep_data site_id cell_id <> [].
Proof.
  intros Hin. unfold cell_combinations in Hin. apply drop_duplicates_In in Hin.
  apply in_map_iff in Hin. destruct Hin as (e & Ee & He).
  assert (Hm : In e (ep_cell_data ep_data site_id cell_id)).
  { unfold ep_cell_data. apply filter_In. split; [exact He |].
    inversion Ee. now rewrite !String.eqb_refl. }
  intros E. rewrite E in Hm. contradiction.
Qed.

Lemma analyze_cell_rows mr_data ep_data (row : combination) :
  In row (cell_combinations ep_data) ->
  try_except (analyze_cell mr_data ep_data row) (fun _ => [])
  = if located ep_data row
    then match ep_cell_data ep_data (fst (fst row)) (snd (fst row)) with
         | first :: _ =>
             match ep_latitude first, ep_longitude first with
             | Num lat, Num lon =>
                 [process_cell (fst (fst row)) (snd (fst row)) lat lon (snd row) mr_data]
             | _, _ => []
             end
         | [] => []
         end
    else [].
Proof.
  destruct row as [[site_id cell_id] carrier]. intros Hin.
  pose proof (combination_has_ep_row _ _ _ _ Hin) as Hne.
  unfold analyze_cell, located. cbn [fst snd].
  destruct (ep_cell_data ep_data site_id cell_id) as [| first rest]; [congruence |].
  destruct (ep_latitude first); cbn [py_float bind try_except]; [| reflexivity].
  destruct (ep_longitude first); cbn [py_float bind try_except]; reflexivity.
Qed.

(** X8.  Site and cell ids being present in every EP row (they are strings
    here, never a missing value), every row of the coverage table belongs to
    a (site, cell, carrier) combination of the EP table and carries the
    status "No MR Data", "Poor Coverage" or "Good Coverage": the "No EP Data"
    row of lines 216-227 is never produced, because a combination taken from
    the EP table always has an EP row. *)
Theorem coverage_rows_never_report_no_ep_data
    (mr_data : list mr_row) (ep_data : list ep_row) (r : result_row) :
  In r (analyze_coverage mr_data ep_data) ->
  In (res_site r, res_cell r, res_carrier r) (cell_combinations ep_data) /\
  (exists e, In e ep_data /\ ep_site_id e = res_site r /\ ep_cell_id e = res_cell r
             /\ ep_carrier e = res_carrier r) /\
  (res_status r = "No MR Data" \/ res_status r = "Poor Coverage"
   \/ res_status r = "Good Coverage") /\
  res_status r <> "No EP Data".
Proof.
  intros Hr. apply analyze_coverage_In in Hr. destruct Hr as (row & Hrow & Hr).
  rewrite (analyze_cell_rows mr_data ep_data row Hrow) in Hr.
  destruct row as [[site_id cell_id] carrier]. cbn [fst snd] in Hr.
  destruct (located ep_data (site_id, cell_id, carrier)); [| contradiction].
  destruct (ep_cell_data ep_data site_id cell_id) as [| first rest]; [contradiction |].
  destruct (ep_latitude first) as [lat |]; [| contradiction].
  destruct (ep_longitude first) as [lon |]; [| contradiction].
  destruct Hr as [<- | []].
  destruct (process_cell_ids site_id cell_id lat lon carrier mr_data) as (-> & -> & ->).
  assert (Hst : res_status (process_cell site_id cell_id lat lon carrier mr_data) = "No MR Data"
                \/ res_status (process_cell site_id cell_id lat lon carrier mr_data)
                   = "Poor Coverage"
                \/ res_status (process_cell site_id cell_id lat lon carrier mr_data)
                   = "Good Coverage").
  { destruct (no_mr_data_or_computed site_id cell_id lat lon carrier mr_data) as [H | H];
      [left; exact H | right; exact H]. }
  split; [exact Hrow |]. split.
  - unfold cell_combinations in Hrow. apply drop_duplicates_In in Hrow.
    apply in_map_iff in Hrow. destruct Hrow as (e & Ee & He).
    exists e. inversion Ee. auto.
  - split; [exact Hst |].
    destruct Hst as [H | [H | H]]; rewrite H; discriminate.
Qed.

Lemma coverage_rows_witness :
  let ep_data := [ {| ep_site_id := "S1"; ep_cell_id := "1"; ep_carrier := "L1800";
                      ep_latitude := Num 0%R; ep_longitude := Num 0%R |} ] in
  In (base_result "S1" "1" "L1800") (analyze_coverage [] ep_data) /\
  res_status (base_result "S1" "1" "L1800") <> "No EP Data".
Proof.
  intros ep_data.
  assert (Hin : In (base_result "S1" "1" "L1800") (analyze_coverage [] ep_data))
    by (left; reflexivity).
  split; [exact Hin |].
  exact (proj2 (proj2 (proj2
    (@coverage_rows_never_report_no_ep_data [] ep_data (base_result "S1" "1" "L1800") Hin)))).
Defined.

(** X9.  The coverage table has one row for each distinct (site, cell,
    carrier) of the EP table whose first EP row with that site and cell has
    numeric latitude and longitude, and no row for the others; the number of
    rows does not depend on the MR table. *)
Theorem coverage_row_count (mr_data : list mr_row) (ep_data : list ep_row) :
  length (analyze_coverage mr_data ep_data)
  = length (filter (located ep_data) (cell_combinations ep_data)) /\
  (length (analyze_coverage mr_data ep_data) <= length (cell_combinations ep_data))%nat.
Proof.
  assert (Hcount : length (analyze_coverage mr_data ep_data)
                   = length (filter (located ep_data) (cell_combinations ep_data))).
  { unfold analyze_coverage. rewrite sort_length.
    assert (Hrow : forall row, In row (cell_combinations ep_data) ->
              length (try_except (analyze_cell mr_data ep_data row) (fun _ => []))
              = if located ep_data row then 1%nat else 0%nat).
    { intros row Hin. rewrite (analyze_cell_rows mr_data ep_data row Hin).
      destruct row as [[site_id cell_id] carrier]. unfold located. cbn [fst snd].
      destruct (ep_cell_data ep_data site_id cell_id) as [| first rest]; [reflexivity |].
      destruct (ep_latitude first); [| reflexivity].
      destruct (ep_longitude first); reflexivity. }
    induction (cell_combinations ep_data) as [| row rows IH]; [reflexivity |].
    cbn [flat_map filter]. rewrite length_app, Hrow by (now left).
    rewrite IH by (intros r Hr; apply Hrow; now right).
    destruct (located ep_data row); reflexivity. }
  split; [exact Hcount |].
  rewrite Hcount. apply filter_length_le.
Qed.

(** *** Two carriers of one cell *)

Lemma coverage_distance_same (lat lon : R) : calculate_distance lat lon lat lon = 0%R.
Proof.
  assert (E : Returned (calculate_distance lat lon lat lon) = Returned 0%R).
  { rewrite GeoProps.coverage_distance_value. apply GeoFacts.module_distance_same. }
  now inversion E.
Qed.

(** A table whose first row is another cell; the two carriers of cell S1/1
    follow, with different coordinates, and the cell has two samples at the
    coordinates of the first of them: both rows are in the table with the
    same statistics, a total of 2, and 100.0% in the range below 300 m. *)
Lemma C10_witness :
  let e0 := {| ep_site_id := "S1"; ep_cell_id := "2"; ep_carrier := "L1800";
               ep_latitude := Num 50%R; ep_longitude := Num 60%R |} in
  let e1 := {| ep_site_id := "S1"; ep_cell_id := "1"; ep_carrier := "L1800";
               ep_latitude := Num 10%R; ep_longitude := Num 20%R |} in
  let e2 := {| ep_site_id := "S1"; ep_cell_id := "1"; ep_carrier := "L2100";
               ep_latitude := Num 11%R; ep_longitude := Num 21%R |} in
  let mr_data := [sample "S1" "1" 10 20 (-110); sample "S1" "1" 10 20 (-60);
                  sample "S1" "2" 50 60 (-80)] in
  let r1 := process_cell "S1" "1" 10 20 "L1800" mr_data in
  let r2 := process_cell "S1" "1" 10 20 "L2100" mr_data in
  (In r1 (analyze_coverage mr_data [e0; e1; e2]) /\
   In r2 (analyze_coverage mr_data [e0; e1; e2])) /\
  stats r1 = stats r2 /\
  res_total r1 = 2%Z /\
  res_coverage r1 = [1000; 0; 0; 0; 0]%Z.
Proof.
  intros e0 e1 e2 mr_data r1 r2.
  assert (Hnone : forall e, In e [e0] ->
            ~ (ep_site_id e = ep_site_id e1 /\ ep_cell_id e = ep_cell_id e1)).
  { intros e [<- | []] [_ E]. discriminate E. }
  assert (Hk : ep_carrier e1 <> ep_carrier e2) by discriminate.
  assert (Hrows : cell_samples "S1" "1" mr_data <> []) by discriminate.
  assert (Hnear : forall row, In row (cell_samples "S1" "1" mr_data) ->
            (0 <= row_distance 10 20 row < 300)%R).
  { intros row [<- | [<- | []]]; unfold row_distance, sample; cbn [mr_latitude mr_longitude];
      rewrite coverage_distance_same; lra. }
  pose proof (@C10_same_cell_other_carrier_same_statistics mr_data [e0] [e2] e1 e1 e2
                10%R 20%R Hnone eq_refl eq_refl
                (or_intror (or_introl eq_refl)) (or_intror (or_intror (or_introl eq_refl)))
                eq_refl eq_refl eq_refl eq_refl Hk) as (Hin & Hstats & _ & _ & Hall).
  destruct (Hall Hrows eq_refl) as (Htot & _ & _ & Hcov).
  split; [exact Hin |]. split; [exact Hstats |].
  split; [exact Htot | exact (Hcov Hnear)].
Defined.

(** *** [calculate_metrics] *)

Lemma rsrp_column_text (mr_data : list mr_row) :
  (exists row txt, In row mr_data /\ mr_rsrp row = Bad txt) ->
  exists e, rsrp_column mr_data = Raised e.
Proof.
  intros (row & txt & Hin & Hbad).
  induction mr_data as [| first rest IH]; [contradiction |].
  cbn [rsrp_column]. destruct Hin as [-> | Hin].
  - rewrite Hbad. exists ValueError. reflexivity.
  - destruct (mr_rsrp first); cbn [py_float bind]; [| exists ValueError; reflexivity].
    destruct (IH Hin) as [e ->]. exists e. reflexivity.
Qed.

Lemma rsrp_column_numeric (mr_data : list mr_row) :
  (forall row, In row mr_data -> exists v, mr_rsrp row = Num v) ->
  exists vs, rsrp_column mr_data = Returned vs /\ length vs = length mr_data.
Proof.
  intros Hnum. induction mr_data as [| first rest IH].
  - exists []. split; reflexivity.
  - destruct (Hnum first (or_introl eq_refl)) as [v Hv].
    destruct IH as (vs & Hvs & Hlen); [intros row Hrow; apply Hnum; now right |].
    exists (v :: vs). cbn [rsrp_column]. rewrite Hv, Hvs. cbn [py_float bind length].
    split; [reflexivity | now rewrite Hlen].
Qed.

(** X10.  One RSRP cell that [float()] rejects, anywhere in the MR table,
    makes [calculate_metrics] return its all-zero fallback: the number of
    cells is reported as 0 whatever the result table holds, although the
    per-cell analysis only skips such a row. *)
Theorem metrics_all_zero_on_one_text_rsrp
    (result_df : list result_row) (mr_data : list mr_row) (row : mr_row) (txt : string) :
  In row mr_data -> mr_rsrp row = Bad txt ->
  calculate_metrics result_df mr_data = failed_metrics /\
  total_cells (calculate_metrics result_df mr_data) = 0%Z.
Proof.
  intros Hin Hbad.
  assert (E : calculate_metrics result_df mr_data = failed_metrics).
  { unfold calculate_metrics. cbv zeta.
    destruct (rsrp_column_text mr_data) as [e ->]; [exists row, txt; auto |].
    reflexivity. }
  split; [exact E | now rewrite E].
Qed.

Lemma metrics_text_rsrp_witness :
  let bad := {| mr_site_id := "S1"; mr_cell_id := "1"; mr_latitude := Num 0%R;
                mr_longitude := Num 0%R; mr_rsrp := Bad "n/a" |} in
  let mr_data := [bad; sample "S1" "1" 0 0 (-60)] in
  res_total (process_cell "S1" "1" 0 0 "L1800" mr_data) = 2%Z /\
  total_cells (calculate_metrics [process_cell "S1" "1" 0 0 "L1800" mr_data] mr_data) = 0%Z.
Proof.
  intros bad mr_data. split.
  - assert (Hv : valid_rsrp 0 0 (cell_samples "S1" "1" mr_data) <> []) by discriminate.
    exact (proj1 (process_cell_status "S1" "1" 0 0 "L1800" mr_data Hv)).
  - exact (proj2 (@metrics_all_zero_on_one_text_rsrp
                    [process_cell "S1" "1" 0 0 "L1800" mr_data] mr_data bad "n/a"
                    (or_introl eq_refl) eq_refl)).
Defined.

Lemma count_if_bounds {A : Type} (p : A -> bool) (l : list A) :
  (0 <= count_if p l <= Z.of_nat (length l))%Z.
Proof.
  unfold count_if. pose proof (filter_length_le p l) as H. lia.
Qed.

Lemma share_of_cells_bounds (count total : Z) :
  (0 <= count <= total)%Z ->
  (0 <= share_of_cells count total)%Q /\ (share_of_cells count total <= 100)%Q.
Proof.
  intros [H0 H1]. unfold share_of_cells.
  destruct (0 <? total)%Z eqn:E; [| split; discriminate].
  apply Z.ltb_lt in E. destruct total as [| t | t]; try lia.
  unfold Qle, Qdiv, Qmult, Qinv, inject_Z; cbn [Qnum Qden].
  rewrite ?Pos2Z.inj_mul. split; nia.
Qed.

(** X11.  When every RSRP cell of the MR table is numeric,
    [calculate_metrics] reports the number of rows of the result table, the
    number of its "Poor Coverage" rows and the number of rows whose printed
    share beyond 1000 m exceeds 10.0; both counts lie between 0 and the number
    of rows and both percentages between 0 and 100 (0 for an empty table). *)
Theorem metrics_counts_within_table
    (result_df : list result_row) (mr_data : list mr_row) :
  (forall row, In row mr_data -> exists v, mr_rsrp row = Num v) ->
  let m := calculate_metrics result_df mr_data in
  total_cells m = Z.of_nat (length result_df) /\
  poor_coverage_count m
  = count_if (fun r => String.eqb (res_status r) "Poor Coverage") result_df /\
  overshooting_count m
  = count_if (fun r => (100 <? nth 4 (res_coverage r) 0)%Z) result_df /\
  (0 <= poor_coverage_count m <= total_cells m)%Z /\
  (0 <= overshooting_count m <= total_cells m)%Z /\
  (0 <= poor_coverage_percentage m)%Q /\ (poor_coverage_percentage m <= 100)%Q /\
  (0 <= overshooting_percentage m)%Q /\ (overshooting_percentage m <= 100)%Q /\
  (result_df = [] -> poor_coverage_percentage m = 0 /\ overshooting_percentage m = 0).
Proof.
  intros Hnum m. unfold m, calculate_metrics. cbv zeta.
  destruct (rsrp_column_numeric mr_data Hnum) as (vs & -> & _).
  cbn [bind try_except total_cells poor_coverage_count overshooting_count
       poor_coverage_percentage overshooting_percentage].
  pose proof (count_if_bounds (fun r => String.eqb (res_status r) "Poor Coverage") result_df)
    as Hpoor.
  pose proof (count_if_bounds overshooting result_df) as Hover.
  split; [reflexivity |]. split; [reflexivity |]. split.
  { unfold count_if. f_equal. f_equal. apply filter_ext. intros r.
    unfold overshooting, parse_pct, Qltb, Qle_bool, Qdiv, Qmult, Qinv, inject_Z.
    cbn [Qnum Qden].
    change (Z.pos (1 * 10)) with 10%Z.
    destruct (Z.leb_spec (nth 4 (res_coverage r) 0 * 1 * 1) (10 * 10))%Z;
      destruct (Z.ltb_spec 100 (nth 4 (res_coverage r) 0))%Z; cbn [negb];
      try reflexivity; lia. }
  split; [exact Hpoor |]. split; [exact Hover |].
  destruct (share_of_cells_bounds Hpoor) as [Hp0 Hp1].
  destruct (share_of_cells_bounds Hover) as [Ho0 Ho1].
  repeat split; try assumption.
  - subst result_df. reflexivity.
  - subst result_df. reflexivity.
Qed.

Lemma metrics_counts_witness :
  let mr_data := [sample "S1" "1" 0 0 (-110)] in
  (forall row, In row mr_data -> exists v, mr_rsrp row = Num v) /\
  total_cells (calculate_metrics [base_result "S1" "1" "L1800"] mr_data) = 1%Z.
Proof.
  intros mr_data.
  assert (Hnum : forall row, In row mr_data -> exists v, mr_rsrp row = Num v).
  { intros row [<- | []]. exists (-110)%Q. reflexivity. }
  split; [exact Hnum |].
  exact (proj1 (@metrics_counts_within_table [base_result "S1" "1" "L1800"] mr_data Hnum)).
Defined.

End CoverageFacts.

(* ================================================================= *)
(** ** Further properties of the neighbour finder *)

Module NeighborFacts.
Import PyMath PyList NeighborCalculator NeighborProps.

Lemma candidate_at_most_one search_radius s n :
  (length (try_except (candidate search_radius s n) (fun _ => [])) <= 1)%nat.
Proof.
  unfold candidate.
  destruct (ep_latitude s); cbn [py_float bind try_except length]; [| lia].
  destruct (ep_longitude s); cbn [py_float bind try_except length]; [| lia].
  destruct (ep_latitude n); cbn [py_float bind try_except length]; [| lia].
  destruct (ep_longitude n); cbn [py_float bind try_except length]; [| lia].
  destruct (calculate_distance x x0 x1 x2); cbn [bind try_except length]; [| lia].
  destruct (Rleb a search_radius); cbn [try_except length]; [| lia].
  destruct (ep_azimuth s); cbn [py_float bind try_except length]; [| lia].
  destruct (ep_azimuth n); cbn [py_float bind try_except length]; lia.
Qed.

(** The candidates of the serving cell of row [idx1], taken over the rows
    numbered from [k]: at most one per row, none for row [idx1] itself. *)
Lemma candidates_from (search_radius : R) (idx1 : nat) (s : ep_row)
    (l : list ep_row) (k : nat) :
  (length (flat_map
             (fun '(idx2, neighbor_cell) =>
                if Nat.eqb idx1 idx2 then []
                else try_except (candidate search_radius s neighbor_cell) (fun _ => []))
             (combine (seq k (length l)) l))
   + (if (k <=? idx1)%nat && (idx1 <? k + length l)%nat then 1 else 0)
   <= length l)%nat.
Proof.
  revert k. induction l as [| n rest IH]; intros k.
  - cbn [length seq combine flat_map]. rewrite Nat.add_0_r.
    destruct (k <=? idx1)%nat eqn:E1; destruct (idx1 <? k)%nat eqn:E2; cbn [andb]; try lia.
    apply Nat.leb_le in E1. apply Nat.ltb_lt in E2. lia.
  - cbn [length seq combine flat_map]. rewrite length_app.
    specialize (IH (S k)).
    pose proof (candidate_at_most_one search_radius s n) as Hone.
    destruct (Nat.eqb idx1 k) eqn:Ek.
    + apply Nat.eqb_eq in Ek. subst idx1. cbn [length].
      replace (k <=? k)%nat with true by (symmetry; apply Nat.leb_le; lia).
      replace (k <? k + S (length rest))%nat with true by (symmetry; apply Nat.ltb_lt; lia).
      replace (S k <=? k)%nat with false in IH by (symmetry; apply Nat.leb_gt; lia).
      cbn [andb] in IH |- *. lia.
    + apply Nat.eqb_neq in Ek.
      destruct (k <=? idx1)%nat eqn:E1; destruct (idx1 <? k + S (length rest))%nat eqn:E2;
        destruct (S k <=? idx1)%nat eqn:E3; destruct (idx1 <? S k + length rest)%nat eqn:E4;
        cbn [andb] in IH |- *; try lia;
        repeat match goal with
               | H : (_ <=? _)%nat = true |- _ => apply Nat.leb_le in H
               | H : (_ <=? _)%nat = false |- _ => apply Nat.leb_gt in H
               | H : (_ <? _)%nat = true |- _ => apply Nat.ltb_lt in H
               | H : (_ <? _)%nat = false |- _ => apply Nat.ltb_ge in H
               end; lia.
Qed.

Lemma collect_neighbors_length ep_data search_radius idx1 s :
  (idx1 < length ep_data)%nat ->
  (length (collect_neighbors ep_data search_radius idx1 s) <= length ep_data - 1)%nat.
Proof.
  intros Hidx. unfold collect_neighbors, iterrows.
  pose proof (candidates_from search_radius idx1 s ep_data 0) as H.
  replace (0 <=? idx1)%nat with true in H by (symmetry; apply Nat.leb_le; lia).
  replace (idx1 <? 0 + length ep_data)%nat with true in H
    by (symmetry; apply Nat.ltb_lt; lia).
  cbn [andb] in H. lia.
Qed.

Lemma cell_neighbors_length ep_data search_radius max_neighbors idx1 s :
  (0 <= max_neighbors)%Z -> (idx1 < length ep_data)%nat ->
  (length (cell_neighbors ep_data search_radius max_neighbors idx1 s)
   <= Nat.min (Z.to_nat max_neighbors) (length ep_data - 1))%nat.
Proof.
  intros Hmax Hidx. unfold cell_neighbors, slice_to.
  replace (0 <=? max_neighbors)%Z with true by (symmetry; apply Z.leb_le; lia).
  rewrite length_firstn, sort_length.
  pose proof (collect_neighbors_length ep_data search_radius s Hidx). lia.
Qed.

(** X12.  With a non-negative [max_neighbors], no serving cell receives
    more than [max_neighbors] relations, nor more than the number of other EP
    rows, and the table holds at most [max_neighbors] relations per EP row. *)
Theorem neighbor_table_bounded
    (ep_data : list ep_row) (search_radius : R) (max_neighbors : Z) :
  (0 <= max_neighbors)%Z ->
  (forall idx1 s, nth_error ep_data idx1 = Some s ->
     (length (cell_neighbors ep_data search_radius max_neighbors idx1 s)
      <= Nat.min (Z.to_nat max_neighbors) (length ep_data - 1))%nat) /\
  (length (find_neighbors ep_data search_radius max_neighbors)
   <= length ep_data * Z.to_nat max_neighbors)%nat.
Proof.
  intros Hmax.
  assert (Hblock : forall idx1 s, nth_error ep_data idx1 = Some s ->
            (length (cell_neighbors ep_data search_radius max_neighbors idx1 s)
             <= Nat.min (Z.to_nat max_neighbors) (length ep_data - 1))%nat).
  { intros idx1 s Hs. apply cell_neighbors_length; [exact Hmax |].
    apply nth_error_Some. congruence. }
  split; [exact Hblock |].
  unfold find_neighbors.
  assert (Hlen : length (iterrows ep_data) = length ep_data).
  { unfold iterrows. rewrite length_combine, length_seq. lia. }
  rewrite <- Hlen.
  assert (Hall : forall entry, In entry (iterrows ep_data) ->
            (length (let '(idx1, serving_cell) := entry in
                     cell_neighbors ep_data search_radius max_neighbors idx1 serving_cell)
             <= Z.to_nat max_neighbors)%nat).
  { intros [idx1 s] Hin. apply iterrows_In in Hin.
    pose proof (Hblock idx1 s Hin). lia. }
  revert Hall. generalize (iterrows ep_data). intros entries.
  induction entries as [| entry rest IH]; intros Hall; [simpl; lia |].
  cbn [flat_map length]. rewrite length_app.
  pose proof (Hall entry (or_introl eq_refl)) as Hfirst.
  assert (Hrest : (length (flat_map
                     (fun '(idx1, serving_cell) =>
                        cell_neighbors ep_data search_radius max_neighbors idx1 serving_cell)
                     rest) <= length rest * Z.to_nat max_neighbors)%nat).
  { apply IH. intros e He. apply Hall. now right. }
  destruct entry as [idx1 s]. lia.
Qed.

Lemma neighbor_table_witness :
  let A := cell_at "A" 0 in
  let B := cell_at "B" 1 in
  (0 <= 32)%Z /\ (length (find_neighbors [A; B] 5000 32) <= 2 * 32)%nat.
Proof.
  intros A B.
  assert (Hmax : (0 <= 32)%Z) by lia.
  split; [exact Hmax |].
  exact (proj2 (@neighbor_table_bounded [A; B] 5000%R 32 Hmax)).
Defined.

Lemma relation_of_mirror s n d az1 az2 :
  let rel := relation_of s n d az1 az2 in
  let rel' := relation_of n s d az2 az1 in
  serving_site rel' = neighbor_site rel /\ serving_cell rel' = neighbor_cell rel /\
  neighbor_site rel' = serving_site rel /\ neighbor_cell rel' = serving_cell rel /\
  serving_carrier rel' = neighbor_carrier rel /\ neighbor_carrier rel' = serving_carrier rel /\
  distance rel' = distance rel /\ azimuth_difference rel' = azimuth_difference rel /\
  neighbor_type rel' = neighbor_type rel.
Proof.
  cbn [relation_of serving_site serving_cell neighbor_site neighbor_cell serving_carrier
       neighbor_carrier distance azimuth_difference neighbor_type].
  rewrite (GeoFacts.azimuth_difference_sym az2 az1), (String.eqb_sym (ep_carrier n)).
  repeat split; reflexivity.
Qed.

(** X13.  Before the cut to [max_neighbors], the neighbour relation is
    symmetric: if the row of cell n is a candidate of serving cell s, then
    the row of s is a candidate of n, with the same stored distance, the
    same azimuth difference and the same neighbour type. *)
Theorem candidates_are_mutual
    (ep_data : list ep_row) (search_radius : R) (idx1 : nat) (s : ep_row)
    (rel : neighbor_row) :
  nth_error ep_data idx1 = Some s ->
  In rel (collect_neighbors ep_data search_radius idx1 s) ->
  exists (idx2 : nat) (n : ep_row) (rel' : neighbor_row),
    nth_error ep_data idx2 = Some n /\ idx2 <> idx1 /\
    In rel' (collect_neighbors ep_data search_radius idx2 n) /\
    serving_site rel' = neighbor_site rel /\ serving_cell rel' = neighbor_cell rel /\
    neighbor_site rel' = serving_site rel /\ neighbor_cell rel' = serving_cell rel /\
    serving_carrier rel' = neighbor_carrier rel /\
    neighbor_carrier rel' = serving_carrier rel /\
    distance rel' = distance rel /\ azimuth_difference rel' = azimuth_difference rel /\
    neighbor_type rel' = neighbor_type rel.
Proof.
  intros Hs Hrel. apply collect_neighbors_In in Hrel.
  destruct Hrel as (idx2 & n & lat1 & lon1 & lat2 & lon2 & d & az1 & az2 &
                    Hn & Hne & Hlat1 & Hlon1 & Hlat2 & Hlon2 & Hd & Hle & Haz1 & Haz2 & ->).
  exists idx2, n, (relation_of n s d az2 az1).
  split; [exact Hn |]. split; [exact Hne |]. split.
  - apply collect_neighbors_In.
    exists idx1, s, lat2, lon2, lat1, lon1, d, az2, az1.
    rewrite GeoFacts.neighbor_distance_swap.
    repeat split; auto.
  - apply relation_of_mirror.
Qed.

Lemma candidates_witness :
  let A := cell_at "A" 0 in
  let B := cell_at "B" (latitude_at 1000) in
  let rel := relation_of A B 1000 0 0 in
  nth_error [A; B] 0 = Some A /\
  In rel (collect_neighbors [A; B] 5000 0 A) /\
  exists (idx2 : nat) (n : ep_row) (rel' : neighbor_row),
    nth_error [A; B] idx2 = Some n /\ idx2 <> 0%nat /\
    In rel' (collect_neighbors [A; B] 5000 idx2 n) /\
    serving_site rel' = neighbor_site rel /\ serving_cell rel' = neighbor_cell rel /\
    neighbor_site rel' = serving_site rel /\ neighbor_cell rel' = serving_cell rel /\
    serving_carrier rel' = neighbor_carrier rel /\
    neighbor_carrier rel' = serving_carrier rel /\
    distance rel' = distance rel /\ azimuth_difference rel' = azimuth_difference rel /\
    neighbor_type rel' = neighbor_type rel.
Proof.
  intros A B rel.
  assert (Hs : nth_error [A; B] 0 = Some A) by reflexivity.
  assert (Hrel : In rel (collect_neighbors [A; B] 5000 0 A)).
  { apply collect_neighbors_In.
    exists 1%nat, B, 0%R, 0%R, (latitude_at 1000), 0%R, 1000%R, 0%R, 0%R.
    split; [reflexivity |]. split; [discriminate |].
    split; [reflexivity |]. split; [reflexivity |].
    split; [reflexivity |]. split; [reflexivity |].
    split; [apply distance_to_latitude_at; lra |].
    split; [lra |]. split; [reflexivity |]. split; reflexivity. }
  split; [exact Hs |]. split; [exact Hrel |].
  exact (@candidates_are_mutual [A; B] 5000%R 0%nat A rel Hs Hrel).
Defined.

End NeighborFacts.

(* ================================================================= *)
(** ** Further properties of the azimuth estimator *)

Module EstimatorFacts.
Import PyMath PyList ActualAzimuth.
Local Open Scope string_scope.

Section Estimator.
Variable DBSCAN : R -> Z -> list (R * R) -> outcome (list Z).

(** X14.  With [min_points] at least 1 (so that a centroid is the mean of
    at least one point), the estimator returns the Insufficient sentinel or
    a bearing that is a compass angle, at least 0 and strictly below 360. *)
Theorem estimate_is_none_or_compass_angle
    (mr_data : list mr_row) (ep_data : list ep_row) (site_id cell_id carrier : string)
    (min_points : Z) (max_distance : R) :
  (1 <= min_points)%Z ->
  let result := calculate_actual_azimuth_with_centroid DBSCAN mr_data ep_data site_id
                  cell_id carrier min_points max_distance in
  result = Returned None \/
  exists az : R, result = Returned (Some az) /\ (0 <= az < 360)%R.
Proof.
  intros _ result. unfold result, calculate_actual_azimuth_with_centroid, estimate.
  destruct (filter _ ep_data) as [| ep_row rest]; [now left |].
  destruct (ep_latitude ep_row) as [lat |]; cbn [py_float bind try_catch]; [| now left].
  destruct (ep_longitude ep_row) as [lon |]; cbn [py_float bind try_catch]; [| now left].
  destruct (Z.of_nat (length (filter _ mr_data)) <? min_points)%Z; [now left |].
  destruct (astype_float _) as [coords |]; cbn [bind try_catch]; [| now left].
  destruct (mapM _ coords) as [dists |]; cbn [bind try_catch]; [| now left].
  destruct (Z.of_nat (length _) <? min_points)%Z; [now left |].
  destruct (main_lobe DBSCAN min_points _) as [lobe |]; cbn [bind try_catch]; [| now left].
  right. eexists. split; [reflexivity |]. apply GeoFacts.bearing_to_centroid_range.
Qed.

Lemma astype_float_text (mr_points : list mr_row) (m : mr_row) :
  In m mr_points ->
  (exists txt, mr_latitude m = Bad txt) \/ (exists txt, mr_longitude m = Bad txt) ->
  exists e, astype_float mr_points = Raised e.
Proof.
  intros Hin Hbad. unfold astype_float.
  induction mr_points as [| first rest IH]; [contradiction |].
  cbn [mapM]. destruct Hin as [-> | Hin].
  - destruct Hbad as [[txt ->] | [txt Hlon]]; [exists ValueError; reflexivity |].
    destruct (mr_latitude m); cbn [py_float bind]; [| exists ValueError; reflexivity].
    rewrite Hlon. exists ValueError. reflexivity.
  - destruct (mr_latitude first); cbn [py_float bind]; [| exists ValueError; reflexivity].
    destruct (mr_longitude first); cbn [py_float bind]; [| exists ValueError; reflexivity].
    destruct (IH Hin) as [e ->]. exists e. reflexivity.
Qed.

(** X15.  One sample attributed to the cell whose latitude or longitude
    [float()] rejects leaves the cell without an estimate, however many good
    samples it has: the conversion of line 68 raises and the handler returns
    the sentinel. *)
Theorem estimate_none_on_one_text_coordinate
    (mr_data : list mr_row) (ep_data : list ep_row) (site_id cell_id carrier : string)
    (min_points : Z) (max_distance : R) (m : mr_row) :
  In m (attributed mr_data ep_data site_id cell_id carrier) ->
  (exists txt, mr_latitude m = Bad txt) \/ (exists txt, mr_longitude m = Bad txt) ->
  calculate_actual_azimuth_with_centroid DBSCAN mr_data ep_data site_id cell_id carrier
    min_points max_distance = Returned None.
Proof.
  intros Hin Hbad. unfold calculate_actual_azimuth_with_centroid, estimate.
  destruct (filter _ ep_data) as [| ep_row rest]; [reflexivity |].
  destruct (ep_latitude ep_row) as [lat |]; cbn [py_float bind try_catch]; [| reflexivity].
  destruct (ep_longitude ep_row) as [lon |]; cbn [py_float bind try_catch]; [| reflexivity].
  fold (attributed mr_data ep_data site_id cell_id carrier).
  destruct (Z.of_nat (length (attributed mr_data ep_data site_id cell_id carrier))
            <? min_points)%Z; [reflexivity |].
  destruct (astype_float_text _ m Hin Hbad) as [e ->]. reflexivity.
Qed.

Lemma carrier_lookup_app (l1 l2 : list ep_row) (key : string) :
  carrier_lookup (l1 ++ l2)%list key
  = fold_left (fun acc e => if String.eqb (EP_key e) key then Some (ep_carrier e) else acc)
              l2 (carrier_lookup l1 key).
Proof. unfold carrier_lookup. apply fold_left_app. Qed.

Lemma carrier_lookup_skip (l : list ep_row) (key : string) (start : option string) :
  (forall x, In x l -> EP_key x <> key) ->
  fold_left (fun acc e => if String.eqb (EP_key e) key then Some (ep_carrier e) else acc)
            l start = start.
Proof.
  revert start. induction l as [| x rest IH]; intros start H; [reflexivity |].
  cbn [fold_left].
  replace (String.eqb (EP_key x) key) with false
    by (symmetry; apply String.eqb_neq; apply H; now left).
  apply IH. intros y Hy. apply H. now right.
Qed.

(** The carrier looked up for a key is the carrier of the last EP row
    with that key. *)
Lemma carrier_lookup_last (before after : list ep_row) (e : ep_row) :
  (forall x, In x after -> EP_key x <> EP_key e) ->
  carrier_lookup (before ++ e :: after)%list (EP_key e) = Some (ep_carrier e).
Proof.
  intros Hafter. rewrite carrier_lookup_app. cbn [fold_left].
  rewrite String.eqb_refl. now apply carrier_lookup_skip.
Qed.

(** X16.  When several EP rows share a site and a cell, the samples of that
    cell are attributed to the carrier of the last such row only (the lookup
    table of line 47 keeps the last entry per key): asked for the same cell
    on any other carrier, the estimator finds no sample and returns the
    sentinel, whatever the MR table holds. *)
Theorem estimate_none_unless_last_carrier
    (mr_data : list mr_row) (before after : list ep_row) (e : ep_row) (carrier : string)
    (min_points : Z) (max_distance : R) :
  (1 <= min_points)%Z ->
  (forall x, In x after -> EP_key x <> EP_key e) ->
  ep_carrier e <> carrier ->
  let ep_data := (before ++ e :: after)%list in
  attributed mr_data ep_data (ep_site_id e) (ep_cell_id e) carrier = [] /\
  calculate_actual_azimuth_with_centroid DBSCAN mr_data ep_data (ep_site_id e)
    (ep_cell_id e) carrier min_points max_distance = Returned None.
Proof.
  intros Hmin Hafter Hcar ep_data.
  assert (Hnone : attributed mr_data ep_data (ep_site_id e) (ep_cell_id e) carrier = []).
  { unfold attributed. induction mr_data as [| m rest IH]; [reflexivity |].
    cbn [filter].
    destruct (String.eqb (mr_site_id m) (ep_site_id e)) eqn:Es; [| exact IH].
    destruct (String.eqb (mr_cell_id m) (ep_cell_id e)) eqn:Ec; [| exact IH].
    apply String.eqb_eq in Es, Ec.
    assert (Ekey : MR_key m = EP_key e) by (unfold MR_key, EP_key; now rewrite Es, Ec).
    unfold ep_data. rewrite Ekey, (carrier_lookup_last before after e Hafter).
    cbn [carrier_is andb].
    replace (String.eqb (ep_carrier e) carrier) with false
      by (symmetry; now apply String.eqb_neq).
    exact IH. }
  split; [exact Hnone |].
  unfold calculate_actual_azimuth_with_centroid, estimate.
  destruct (filter _ ep_data) as [| ep_row rest]; [reflexivity |].
  destruct (ep_latitude ep_row) as [lat |]; cbn [py_float bind try_catch]; [| reflexivity].
  destruct (ep_longitude ep_row) as [lon |]; cbn [py_float bind try_catch]; [| reflexivity].
  fold (attributed mr_data ep_data (ep_site_id e) (ep_cell_id e) carrier).
  rewrite Hnone. cbn [length].
  replace (Z.of_nat 0 <? min_points)%Z with true by (symmetry; apply Z.ltb_lt; lia).
  reflexivity.
Qed.

End Estimator.

Definition cell_on (carrier : string) : ep_row :=
  {| ep_site_id := "S1"; ep_cell_id := "1"; ep_carrier := carrier;
     ep_latitude := Num 0%R; ep_longitude := Num 0%R |}.

Definition sample_at (lat : raw R) : mr_row :=
  {| mr_site_id := "S1"; mr_cell_id := "1"; mr_latitude := lat; mr_longitude := Num 0%R |}.

Lemma estimate_range_witness :
  (1 <= 30)%Z /\
  (calculate_actual_azimuth_with_centroid all_noise [sample_at (Num 1%R)] [cell_on "L1800"]
     "S1" "1" "L1800" 30 2000 = Returned None \/
   exists az : R,
     calculate_actual_azimuth_with_centroid all_noise [sample_at (Num 1%R)] [cell_on "L1800"]
       "S1" "1" "L1800" 30 2000 = Returned (Some az) /\ (0 <= az < 360)%R).
Proof.
  assert (Hmin : (1 <= 30)%Z) by lia.
  split; [exact Hmin |].
  exact (@estimate_is_none_or_compass_angle all_noise [sample_at (Num 1%R)]
           [cell_on "L1800"] "S1" "1" "L1800" 30 2000%R Hmin).
Defined.

Lemma estimate_text_witness :
  In (sample_at (Bad "n/a"))
     (attributed [sample_at (Num 1%R); sample_at (Bad "n/a")] [cell_on "L1800"]
                 "S1" "1" "L1800") /\
  calculate_actual_azimuth_with_centroid all_noise
    [sample_at (Num 1%R); sample_at (Bad "n/a")] [cell_on "L1800"] "S1" "1" "L1800"
    1 2000 = Returned None.
Proof.
  assert (Hin : In (sample_at (Bad "n/a"))
                   (attributed [sample_at (Num 1%R); sample_at (Bad "n/a")]
                               [cell_on "L1800"] "S1" "1" "L1800"))
    by (right; left; reflexivity).
  split; [exact Hin |].
  apply (@estimate_none_on_one_text_coordinate all_noise
           [sample_at (Num 1%R); sample_at (Bad "n/a")] [cell_on "L1800"]
           "S1" "1" "L1800" 1 2000%R (sample_at (Bad "n/a")) Hin).
  left. exists "n/a". reflexivity.
Defined.

Lemma estimate_last_carrier_witness :
  (1 <= 1)%Z /\ ep_carrier (cell_on "L2100") <> "L1800" /\
  calculate_actual_azimuth_with_centroid all_noise [sample_at (Num 1%R)]
    ([cell_on "L1800"] ++ cell_on "L2100" :: [])%list "S1" "1" "L1800" 1 2000 = Returned None.
Proof.
  assert (Hmin : (1 <= 1)%Z) by lia.
  assert (Hcar : ep_carrier (cell_on "L2100") <> "L1800") by discriminate.
  split; [exact Hmin |]. split; [exact Hcar |].
  refine (proj2 (@estimate_none_unless_last_carrier all_noise [sample_at (Num 1%R)]
                   [cell_on "L1800"] [] (cell_on "L2100") "L1800" 1 2000%R Hmin _ Hcar)).
  intros x [].
Defined.

End EstimatorFacts.

(* ================================================================= *)
(** ** Further properties of the sector-swap detector *)

Module SwapFacts.
Import PyMath PyList SectorSwapCalculator SwapProps.
Local Open Scope string_scope.

(** *** Swap rows *)

Lemma verdict_mutual (c t : candidate) (cell_id : string) :
  verdict c t cell_id = true -> target t = cell_id.
Proof.
  unfold verdict. cbv zeta.
  destruct (cand_is_split c); intros H; apply andb_true_iff in H; destruct H as [H _];
    now apply String.eqb_eq.
Qed.

(** A swap row of the second pass: both cells are candidates, each the
    other's target, with non-zero totals, and the opposite row is there. *)
Lemma second_pass_row_pair (enodeb : string) (sc : list (string * candidate)) (x y : string) :
  has_swap_row enodeb (results (second_pass enodeb sc)) x y ->
  exists c t, In (x, c) sc /\ In (y, t) sc /\ x <> y /\ target c = y /\ target t = x /\
              total_mr c <> 0%Z /\ total_mr t <> 0%Z /\
              has_swap_row enodeb (results (second_pass enodeb sc)) y x.
Proof.
  intros [ty Hin]. unfold second_pass in *.
  apply fold_sound in Hin. destruct Hin as [[] | (cid & c & t & Hc & Hf & Hr)].
  pose proof (@fold_complete enodeb sc sc empty_state cid c t
                (empty_bookkeeping enodeb) Hc Hf) as [Hab Hba].
  destruct Hf as (H0 & Ht & H1 & Hv & Hne).
  apply verdict_mutual in Hv. apply sget_In in Ht.
  destruct Hr as [Hr | Hr]; apply result_row_inv in Hr; destruct Hr as [Ex Emsg].
  - subst x. apply swap_message_inj in Emsg. subst y.
    exists c, t. repeat split; assumption.
  - subst x. apply swap_message_inj in Emsg. subst y.
    exists t, c. repeat split; try assumption. congruence.
Qed.

Lemma process_cell_swap_source configurations enodeb ep_enodeb_data mr_enodeb_data row x y ty :
  In (enodeb, x, swap_message x y, ty)
     (process_cell configurations enodeb ep_enodeb_data mr_enodeb_data row) ->
  process_cell configurations enodeb ep_enodeb_data mr_enodeb_data row
  = evaluate_carrier configurations enodeb ep_enodeb_data mr_enodeb_data (ep_carrier row).
Proof.
  unfold process_cell. cbv zeta.
  destruct (String.eqb _ "Massive MIMO").
  { intros [H | []]. inversion H. }
  destruct (samples_of mr_enodeb_data (EP_key row)) as [| m rest].
  { intros [H | []]. inversion H. }
  destruct (length (m :: rest) <? 50)%nat.
  { intros [H | []]. inversion H. }
  reflexivity.
Qed.

(** A swap row of the site comes from the second pass over the carrier of
    some EP row, and every swap row of that pass is a row of the site. *)
Lemma swap_row_source settings enodeb ep_enodeb_data mr_enodeb_data x y :
  has_swap_row enodeb (process_enodeb settings enodeb ep_enodeb_data mr_enodeb_data) x y ->
  exists row, In row ep_enodeb_data /\
    let cfgs := cell_configurations settings enodeb ep_enodeb_data in
    let sc := swap_candidates cfgs (sector_info_of ep_enodeb_data (ep_carrier row))
                              ep_enodeb_data mr_enodeb_data (ep_carrier row) in
    has_swap_row enodeb (results (second_pass enodeb sc)) x y /\
    (forall a b, has_swap_row enodeb (results (second_pass enodeb sc)) a b ->
       has_swap_row enodeb (process_enodeb settings enodeb ep_enodeb_data mr_enodeb_data)
                    a b).
Proof.
  unfold process_enodeb. cbv zeta. rewrite drop_duplicates_has_swap_row.
  intros [ty Hin]. apply in_flat_map in Hin. destruct Hin as (row & Hrow & Hin).
  exists row. split; [exact Hrow |]. split.
  - exists ty. now apply process_cell_swap_row in Hin.
  - intros a b [ty' H']. apply drop_duplicates_has_swap_row.
    exists ty'. apply in_flat_map. exists row. split; [exact Hrow |].
    rewrite (process_cell_swap_source _ _ _ _ _ _ _ _ Hin).
    unfold evaluate_carrier. cbv zeta. apply in_or_app. left. exact H'.
Qed.

Lemma candidate_row configurations ep_enodeb_data mr_enodeb_data carrier x c :
  In (x, c) (swap_candidates configurations (sector_info_of ep_enodeb_data carrier)
                             ep_enodeb_data mr_enodeb_data carrier) ->
  exists row, In row ep_enodeb_data /\ ep_cell_id row = x /\ ep_carrier row = carrier /\
    evaluated configurations mr_enodeb_data carrier row = true /\
    c = make_candidate configurations (sector_info_of ep_enodeb_data carrier)
                       mr_enodeb_data carrier row.
Proof.
  intros Hin. rewrite swap_candidates_fold in Hin.
  apply In_sget in Hin; [| apply first_pass_NoDup; constructor].
  apply first_pass_sound in Hin. destruct Hin as [Hin | (row & Hrow & Hid & He & Hc)].
  - discriminate.
  - unfold rows_of_carrier in Hrow. apply filter_In in Hrow. destruct Hrow as [Hrow Hcar].
    apply String.eqb_eq in Hcar. exists row. repeat split; assumption.
Qed.

Lemma evaluated_spec configurations mr_enodeb_data carrier row :
  evaluated configurations mr_enodeb_data carrier row = true <->
  cell_type_of configurations (cell_key_of (ep_cell_id row) carrier) <> "Massive MIMO" /\
  (50 <= length (samples_of mr_enodeb_data (EP_key row)))%nat.
Proof.
  unfold evaluated. rewrite andb_true_iff, negb_true_iff, String.eqb_neq, Nat.leb_le.
  reflexivity.
Qed.

(** The two-sector site with swapped feeders has both swap rows. *)
Lemma swapped_site_rows :
  has_swap_row "S1" (process_enodeb no_groups "S1" two_sectors south_and_north) "A" "B" /\
  has_swap_row "S1" (process_enodeb no_groups "S1" two_sectors south_and_north) "B" "A".
Proof.
  assert (Hne : ep_cell_id sector_A <> ep_cell_id sector_B) by discriminate.
  assert (HA : In sector_A two_sectors) by (right; now left).
  assert (HB : In sector_B two_sectors) by now left.
  apply (@conditions_swap_rows no_groups "S1" two_sectors south_and_north sector_A sector_B
           two_sectors_unique HA HB eq_refl
           (@two_sectors_plain sector_A HA) (@two_sectors_plain sector_B HB)
           (@swapped_enough sector_A HA) (@swapped_enough sector_B HB) Hne).
  unfold swap_conditions. rewrite histogram_A_swapped, histogram_B_swapped.
  split; [reflexivity |]. split; [reflexivity |].
  split; [discriminate |]. split; [discriminate |].
  left. split; split; vm_compute; discriminate.
Qed.

(** X17.  Swap rows come in pairs: whenever the site's result holds the row
    "Sector Swap Found Between x and y" for cell x, it also holds the row
    "Sector Swap Found Between y and x" for cell y. *)
Theorem swap_rows_come_in_pairs
    (settings : parameter_settings) (enodeb : string)
    (ep_enodeb_data : list ep_row) (mr_enodeb_data : list mr_row) (x y : string) :
  has_swap_row enodeb (process_enodeb settings enodeb ep_enodeb_data mr_enodeb_data) x y ->
  has_swap_row enodeb (process_enodeb settings enodeb ep_enodeb_data mr_enodeb_data) y x.
Proof.
  intros H. apply swap_row_source in H. destruct H as (row & _ & Hpass & Hlift).
  apply Hlift. apply second_pass_row_pair in Hpass.
  destruct Hpass as (c & t & H). decompose [and] H. assumption.
Qed.

Lemma swap_rows_pair_witness :
  has_swap_row "S1" (process_enodeb no_groups "S1" two_sectors south_and_north) "A" "B" /\
  has_swap_row "S1" (process_enodeb no_groups "S1" two_sectors south_and_north) "B" "A".
Proof.
  split; [exact (proj1 swapped_site_rows) |].
  exact (@swap_rows_come_in_pairs no_groups "S1" two_sectors south_and_north "A" "B"
           (proj1 swapped_site_rows)).
Defined.

(** X18.  A swap is only ever reported between two different cell ids that
    each have an EP row on one and the same carrier which is not typed
    Massive MIMO and has at least 50 attributed samples, whose strongest
    direction is the other cell, and whose direction counts do not all
    vanish. *)
Theorem swap_rows_only_between_mutual_evaluated_cells
    (settings : parameter_settings) (enodeb : string)
    (ep_enodeb_data : list ep_row) (mr_enodeb_data : list mr_row) (x y : string) :
  has_swap_row enodeb (process_enodeb settings enodeb ep_enodeb_data mr_enodeb_data) x y ->
  x <> y /\
  exists rx ry : ep_row,
    In rx ep_enodeb_data /\ In ry ep_enodeb_data /\
    ep_cell_id rx = x /\ ep_cell_id ry = y /\ ep_carrier rx = ep_carrier ry /\
    cell_type_of (cell_configurations settings enodeb ep_enodeb_data)
                 (cell_key_of x (ep_carrier rx)) <> "Massive MIMO" /\
    cell_type_of (cell_configurations settings enodeb ep_enodeb_data)
                 (cell_key_of y (ep_carrier ry)) <> "Massive MIMO" /\
    (50 <= length (samples_of mr_enodeb_data (EP_key rx)))%nat /\
    (50 <= length (samples_of mr_enodeb_data (EP_key ry)))%nat /\
    max_key (histogram ep_enodeb_data mr_enodeb_data rx) = y /\
    max_key (histogram ep_enodeb_data mr_enodeb_data ry) = x /\
    total (histogram ep_enodeb_data mr_enodeb_data rx) <> 0%Z /\
    total (histogram ep_enodeb_data mr_enodeb_data ry) <> 0%Z.
Proof.
  intros H. apply swap_row_source in H. destruct H as (row & _ & Hpass & _).
  cbv zeta in Hpass. apply second_pass_row_pair in Hpass.
  destruct Hpass as (c & t & Hc & Ht & Hne & Htc & Htt & H0 & H1 & _).
  apply candidate_row in Hc. destruct Hc as (rx & Hrx & Hidx & Hcarx & Hex & ->).
  apply candidate_row in Ht. destruct Ht as (ry & Hry & Hidy & Hcary & Hey & ->).
  apply evaluated_spec in Hex, Hey. destruct Hex as [Htx Hnx]. destruct Hey as [Hty Hny].
  split; [exact Hne |]. exists rx, ry.
  unfold histogram. rewrite Hcarx, Hcary, Hidx, Hidy in *.
  repeat split; assumption.
Qed.

Lemma swap_rows_mutual_witness :
  has_swap_row "S1" (process_enodeb no_groups "S1" two_sectors south_and_north) "A" "B" /\
  "A" <> "B".
Proof.
  split; [exact (proj1 swapped_site_rows) |].
  exact (proj1 (@swap_rows_only_between_mutual_evaluated_cells no_groups "S1" two_sectors
                  south_and_north "A" "B" (proj1 swapped_site_rows))).
Defined.

(** *** Sector-split pairs *)

Lemma process_cell_of_evaluated configurations enodeb ep_enodeb_data mr_enodeb_data row :
  evaluated configurations mr_enodeb_data (ep_carrier row) row = true ->
  process_cell configurations enodeb ep_enodeb_data mr_enodeb_data row
  = evaluate_carrier configurations enodeb ep_enodeb_data mr_enodeb_data (ep_carrier row).
Proof.
  unfold evaluated, process_cell. cbv zeta. intros H.
  apply andb_true_iff in H. destruct H as [Hty Hlen].
  apply negb_true_iff in Hty. rewrite Hty. apply Nat.leb_le in Hlen.
  destruct (samples_of mr_enodeb_data (EP_key row)) as [| m rest] eqn:E.
  - simpl in Hlen. lia.
  - assert (Hlt : (length (m :: rest) <? 50)%nat = false) by (apply Nat.ltb_ge; exact Hlen).
    rewrite Hlt. reflexivity.
Qed.

(** Two evaluated cells of one carrier, the first with a positive verdict
    against the second: both swap rows are reported. *)
Lemma positive_verdict_gives_rows settings enodeb ep_enodeb_data mr_enodeb_data rA rB :
  NoDup (map ep_cell_id ep_enodeb_data) ->
  In rA ep_enodeb_data -> In rB ep_enodeb_data ->
  ep_carrier rA = ep_carrier rB -> ep_cell_id rA <> ep_cell_id rB ->
  let cfgs := cell_configurations settings enodeb ep_enodeb_data in
  let c := ep_carrier rA in
  let si := sector_info_of ep_enodeb_data c in
  let cA := make_candidate cfgs si mr_enodeb_data c rA in
  let cB := make_candidate cfgs si mr_enodeb_data c rB in
  evaluated cfgs mr_enodeb_data c rA = true -> evaluated cfgs mr_enodeb_data c rB = true ->
  target cA = ep_cell_id rB -> total_mr cA <> 0%Z -> total_mr cB <> 0%Z ->
  verdict cA cB (ep_cell_id rA) = true ->
  has_swap_row enodeb (process_enodeb settings enodeb ep_enodeb_data mr_enodeb_data)
               (ep_cell_id rA) (ep_cell_id rB) /\
  has_swap_row enodeb (process_enodeb settings enodeb ep_enodeb_data mr_enodeb_data)
               (ep_cell_id rB) (ep_cell_id rA).
Proof.
  intros Hnd HA HB Hcar Hne cfgs c si cA cB HeA HeB Htgt H0 H1 Hv.
  unfold process_enodeb. cbv zeta. rewrite !drop_duplicates_has_swap_row.
  fold cfgs.
  set (sc := swap_candidates cfgs si ep_enodeb_data mr_enodeb_data c).
  assert (HrowsND : NoDup (map ep_cell_id (rows_of_carrier ep_enodeb_data c)))
    by (apply rows_of_carrier_unique; exact Hnd).
  assert (HgetA : sget sc (ep_cell_id rA) = Some cA).
  { unfold sc. rewrite swap_candidates_fold. apply first_pass_complete.
    - exact HrowsND.
    - apply filter_In. split; [exact HA | apply String.eqb_refl].
    - exact HeA. }
  assert (HgetB : sget sc (ep_cell_id rB) = Some cB).
  { unfold sc. rewrite swap_candidates_fold. apply first_pass_complete.
    - exact HrowsND.
    - apply filter_In. split; [exact HB |]. apply String.eqb_eq. unfold c. now symmetry.
    - exact HeB. }
  assert (Hfires : fires sc (ep_cell_id rA) cA cB).
  { unfold fires. rewrite Htgt. repeat split; assumption. }
  pose proof (@fold_complete enodeb sc sc empty_state (ep_cell_id rA) cA cB
                (empty_bookkeeping enodeb) (sget_In _ _ HgetA) Hfires) as Hrows.
  cbv zeta in Hrows. rewrite Htgt in Hrows.
  assert (Hcell : forall x y,
            has_swap_row enodeb (results (second_pass enodeb sc)) x y ->
            has_swap_row enodeb
              (flat_map (process_cell cfgs enodeb ep_enodeb_data mr_enodeb_data)
                        ep_enodeb_data) x y).
  { intros x y [ty Hin]. exists ty. apply in_flat_map. exists rA. split; [exact HA |].
    rewrite process_cell_of_evaluated by exact HeA.
    unfold evaluate_carrier. cbv zeta. apply in_or_app. left. exact Hin. }
  destruct Hrows as [HAB HBA]. split; apply Hcell; assumption.
Qed.

(** X19.  Cell ids being unique within the site, for two distinct cells A
    and B of one carrier that are both typed "Sector Split" and have at least
    50 attributed samples each: both receive their swap row if and only if
    each is the other's strongest direction and both totals are non-zero.  No
    share threshold is applied to a split pair, and the split partner recorded
    in the configuration is not consulted. *)
Theorem split_pair_swapped_iff_mutual
    (settings : parameter_settings) (enodeb : string)
    (ep_enodeb_data : list ep_row) (mr_enodeb_data : list mr_row) (rA rB : ep_row) :
  NoDup (map ep_cell_id ep_enodeb_data) ->
  In rA ep_enodeb_data -> In rB ep_enodeb_data ->
  ep_carrier rA = ep_carrier rB -> ep_cell_id rA <> ep_cell_id rB ->
  cell_type_of (cell_configurations settings enodeb ep_enodeb_data)
               (cell_key_of (ep_cell_id rA) (ep_carrier rA)) = "Sector Split" ->
  cell_type_of (cell_configurations settings enodeb ep_enodeb_data)
               (cell_key_of (ep_cell_id rB) (ep_carrier rB)) = "Sector Split" ->
  (50 <= length (samples_of mr_enodeb_data (EP_key rA)))%nat ->
  (50 <= length (samples_of mr_enodeb_data (EP_key rB)))%nat ->
  let A := ep_cell_id rA in
  let B := ep_cell_id rB in
  let dA := histogram ep_enodeb_data mr_enodeb_data rA in
  let dB := histogram ep_enodeb_data mr_enodeb_data rB in
  let out := process_enodeb settings enodeb ep_enodeb_data mr_enodeb_data in
  (has_swap_row enodeb out A B /\ has_swap_row enodeb out B A) <->
  (max_key dA = B /\ max_key dB = A /\ total dA <> 0%Z /\ total dB <> 0%Z).
Proof.
  intros Hnd HA HB Hcar Hne HsA HsB HnA HnB A B dA dB out.
  set (cfgs := cell_configurations settings enodeb ep_enodeb_data) in *.
  split.
  - intros [H _]. apply swap_row_source in H. destruct H as (row & _ & Hpass & _).
    cbv zeta in Hpass. apply second_pass_row_pair in Hpass.
    destruct Hpass as (c & t & Hc & Ht & _ & Htc & Htt & H0 & H1 & _).
    apply candidate_row in Hc. destruct Hc as (rx & Hrx & Hidx & Hcarx & _ & ->).
    apply candidate_row in Ht. destruct Ht as (ry & Hry & Hidy & Hcary & _ & ->).
    assert (rx = rA) by (eapply row_of_cell_id; eauto).
    assert (ry = rB) by (eapply row_of_cell_id; eauto).
    subst rx ry. unfold dA, dB, histogram. rewrite Hcarx, Hcary.
    split; [exact Htc |]. split; [exact Htt |]. split; [exact H0 | exact H1].
  - intros (HtA & HtB & H0 & H1).
    unfold dA, dB, histogram in HtA, HtB, H0, H1. rewrite <- Hcar in HtB, H1.
    assert (HeA : evaluated cfgs mr_enodeb_data (ep_carrier rA) rA = true).
    { apply evaluated_spec. split; [| exact HnA]. rewrite HsA. discriminate. }
    assert (HeB : evaluated cfgs mr_enodeb_data (ep_carrier rA) rB = true).
    { apply evaluated_spec. split; [| exact HnB]. rewrite Hcar, HsB. discriminate. }
    apply (@positive_verdict_gives_rows settings enodeb ep_enodeb_data mr_enodeb_data rA rB);
      try assumption.
    assert (EA : cand_is_split
                   (make_candidate cfgs (sector_info_of ep_enodeb_data (ep_carrier rA))
                                   mr_enodeb_data (ep_carrier rA) rA) = true).
    { change (String.eqb (cell_type_of cfgs (cell_key_of (ep_cell_id rA) (ep_carrier rA)))
                         "Sector Split" = true).
      rewrite HsA. reflexivity. }
    assert (EB : cand_is_split
                   (make_candidate cfgs (sector_info_of ep_enodeb_data (ep_carrier rA))
                                   mr_enodeb_data (ep_carrier rA) rB) = true).
    { change (String.eqb (cell_type_of cfgs (cell_key_of (ep_cell_id rB) (ep_carrier rA)))
                         "Sector Split" = true).
      rewrite Hcar, HsB. reflexivity. }
    unfold verdict. cbv zeta. fold cfgs. rewrite EA, EB, andb_true_r.
    apply String.eqb_eq. exact HtB.
Qed.

Definition one_split_pair : parameter_settings :=
  {| sector_split := [ {| split_Layer := "L1800"; Parrent_ID := "A"; Child_ID := "B" |} ];
     massive_mimo := [] |}.

Lemma split_pair_witness :
  NoDup (map ep_cell_id two_sectors) /\
  cell_type_of (cell_configurations one_split_pair "S1" two_sectors)
               (cell_key_of "A" "L1800") = "Sector Split" /\
  cell_type_of (cell_configurations one_split_pair "S1" two_sectors)
               (cell_key_of "B" "L1800") = "Sector Split" /\
  let out := process_enodeb one_split_pair "S1" two_sectors south_and_north in
  has_swap_row "S1" out "A" "B" /\ has_swap_row "S1" out "B" "A".
Proof.
  assert (Hne : ep_cell_id sector_A <> ep_cell_id sector_B) by discriminate.
  assert (HA : In sector_A two_sectors) by (right; now left).
  assert (HB : In sector_B two_sectors) by now left.
  assert (HsA : cell_type_of (cell_configurations one_split_pair "S1" two_sectors)
                  (cell_key_of (ep_cell_id sector_A) (ep_carrier sector_A)) = "Sector Split")
    by reflexivity.
  assert (HsB : cell_type_of (cell_configurations one_split_pair "S1" two_sectors)
                  (cell_key_of (ep_cell_id sector_B) (ep_carrier sector_B)) = "Sector Split")
    by reflexivity.
  split; [exact two_sectors_unique |]. split; [exact HsA |]. split; [exact HsB |].
  apply (proj2 (@split_pair_swapped_iff_mutual one_split_pair "S1" two_sectors
           south_and_north sector_A sector_B two_sectors_unique HA HB eq_refl Hne HsA HsB
           (@swapped_enough sector_A HA) (@swapped_enough sector_B HB))).
  rewrite histogram_A_swapped, histogram_B_swapped.
  split; [reflexivity |]. split; [reflexivity |]. split; discriminate.
Defined.

(** *** Cell types *)

Lemma sset_In_inv {V : Type} (d : list (string * V)) k v k' v' :
  In (k', v') (sset d k v) -> In (k', v') d \/ (k' = k /\ v' = v).
Proof.
  unfold sset. induction d as [| [k0 v0] rest IH]; simpl.
  - intros [E | []]. inversion E. now right.
  - destruct (String.eqb k0 k) eqn:Ek; simpl.
    + apply String.eqb_eq in Ek.
      intros [E | H]; [inversion E; subst; now right | left; now right].
    + intros [E | H]; [left; now left |].
      destruct (IH H) as [H' | H']; [left; now right | now right].
Qed.

(** Every final type is unset, "Massive MIMO" or "Sector Split". *)
Definition final_types_known (d : list (string * config)) : Prop :=
  forall k c, In (k, c) d ->
    final_type c = None \/ final_type c = Some "Massive MIMO"
    \/ final_type c = Some "Sector Split".

Lemma initial_final_types settings enodeb ep_enodeb_data :
  final_types_known (initial_configurations settings enodeb ep_enodeb_data).
Proof.
  unfold initial_configurations.
  assert (G : forall l d0, final_types_known d0 ->
            final_types_known
              (fold_left
                 (fun cell_configurations ep_row =>
                    let cell_id := ep_cell_id ep_row in
                    let carrier := ep_carrier ep_row in
                    let cell_key := cell_key_of cell_id carrier in
                    let '(is_mimo_, mimo_group_) :=
                      check_massive_mimo_group (massive_mimo settings) enodeb cell_id carrier
                                               ep_enodeb_data in
                    let '(is_split_, split_partner_) :=
                      check_sector_split_pair (sector_split settings) enodeb cell_id carrier
                                              ep_enodeb_data in
                    sset cell_configurations cell_key
                         {| is_mimo := is_mimo_; mimo_group := mimo_group_;
                            is_split := is_split_; split_partner := split_partner_;
                            final_type := None |})
                 l d0)).
  { induction l as [| row rest IH]; intros d0 H0; cbn [fold_left]; [exact H0 |].
    apply IH. cbv zeta.
    destruct (check_massive_mimo_group _ _ _ _ _) as [m g].
    destruct (check_sector_split_pair _ _ _ _ _) as [sp pa].
    intros k c Hin. apply sset_In_inv in Hin. destruct Hin as [Hin | [_ ->]].
    - exact (H0 k c Hin).
    - left. reflexivity. }
  apply G. intros k c [].
Qed.

Lemma set_final_type_known d key t :
  t = "Massive MIMO" \/ t = "Sector Split" ->
  final_types_known d -> final_types_known (set_final_type d key t).
Proof.
  intros Ht Hd. unfold set_final_type. destruct (sget d key) as [c0 |]; [| exact Hd].
  intros k c Hin. apply sset_In_inv in Hin. destruct Hin as [Hin | [_ ->]].
  - exact (Hd k c Hin).
  - cbn [with_final_type final_type]. destruct Ht as [-> | ->]; auto.
Qed.

Lemma resolve_final_type_known valid overlap d cell_key :
  final_types_known d -> final_types_known (resolve_final_type valid overlap d cell_key).
Proof.
  intros Hd. unfold resolve_final_type. cbv zeta.
  repeat first
    [ exact Hd
    | apply set_final_type_known; [auto |]
    | match goal with
      | |- final_types_known (match ?x with _ => _ end) => destruct x
      end ].
Qed.

Lemma cell_configurations_final_types settings enodeb ep_enodeb_data :
  final_types_known (cell_configurations settings enodeb ep_enodeb_data).
Proof.
  unfold cell_configurations. cbv zeta.
  generalize (validate_mimo_groups (initial_configurations settings enodeb ep_enodeb_data)).
  generalize (find_split_mimo_overlap (initial_configurations settings enodeb ep_enodeb_data)).
  intros overlap valid.
  generalize (map fst (initial_configurations settings enodeb ep_enodeb_data)).
  pose proof (initial_final_types settings enodeb ep_enodeb_data) as H0.
  revert H0. generalize (initial_configurations settings enodeb ep_enodeb_data).
  intros d0 H0 keys. revert d0 H0.
  induction keys as [| key rest IH]; intros d0 H0; cbn [fold_left]; [exact H0 |].
  apply IH. now apply resolve_final_type_known.
Qed.

Lemma cell_type_known settings enodeb ep_enodeb_data cell_key :
  let ty := cell_type_of (cell_configurations settings enodeb ep_enodeb_data) cell_key in
  ty = "" \/ ty = "Massive MIMO" \/ ty = "Sector Split".
Proof.
  cbv zeta. unfold cell_type_of.
  destruct (sget _ cell_key) as [c |] eqn:E; [| now left].
  apply sget_In in E.
  destruct (cell_configurations_final_types settings enodeb ep_enodeb_data _ _ E)
    as [-> | [-> | ->]]; auto.
Qed.

(** *** The rows of a site *)

Lemma cell_stats_sound configurations ep_enodeb_data mr_enodeb_data carrier k st :
  In (k, st) (cell_stats configurations ep_enodeb_data mr_enodeb_data carrier) ->
  exists row, In row ep_enodeb_data /\ ep_cell_id row = k /\ ep_carrier row = carrier /\
    evaluated configurations mr_enodeb_data carrier row = true /\
    stat_cell_type st = cell_type_of configurations (cell_key_of k carrier).
Proof.
  unfold cell_stats.
  assert (G : forall l d0,
            In (k, st)
               (fold_left
                  (fun d ep_row =>
                     if evaluated configurations mr_enodeb_data carrier ep_row
                     then
                       let cell_key := cell_key_of (ep_cell_id ep_row) carrier in
                       let cell_type := cell_type_of configurations cell_key in
                       sset d (ep_cell_id ep_row)
                            {| stat_cell_type := cell_type;
                               stat_is_split := String.eqb cell_type "Sector Split";
                               stat_split_partner :=
                                 split_partner_in configurations cell_key |}
                     else d)
                  l d0) ->
            In (k, st) d0 \/
            exists row, In row l /\ ep_cell_id row = k /\
              evaluated configurations mr_enodeb_data carrier row = true /\
              stat_cell_type st = cell_type_of configurations (cell_key_of k carrier)).
  { induction l as [| r0 rest IH]; intros d0 H; cbn [fold_left] in H; [now left |].
    apply IH in H. destruct H as [H | (row & Hin & Hk & He & Hst)].
    - destruct (evaluated configurations mr_enodeb_data carrier r0) eqn:E; [| now left].
      cbv zeta in H. apply sset_In_inv in H. destruct H as [H | [Hk Hst]]; [now left |].
      right. exists r0. split; [now left |]. split; [now symmetry |]. split; [exact E |].
      rewrite Hst, Hk. reflexivity.
    - right. exists row. split; [now right |]. auto. }
  intros H. apply G in H. destruct H as [[] | (row & Hin & Hk & He & Hst)].
  unfold rows_of_carrier in Hin. apply filter_In in Hin. destruct Hin as [Hin Hcar].
  apply String.eqb_eq in Hcar. exists row. auto.
Qed.

Lemma cell_stats_has_cell configurations ep_enodeb_data mr_enodeb_data carrier row :
  In row ep_enodeb_data -> ep_carrier row = carrier ->
  evaluated configurations mr_enodeb_data carrier row = true ->
  exists st,
    In (ep_cell_id row, st) (cell_stats configurations ep_enodeb_data mr_enodeb_data carrier).
Proof.
  intros Hin Hcar He.
  assert (Hrow : In row (rows_of_carrier ep_enodeb_data carrier)).
  { unfold rows_of_carrier. apply filter_In. split; [exact Hin |]. now apply String.eqb_eq. }
  unfold cell_stats.
  assert (G : forall l d0,
            In (ep_cell_id row) (map fst d0) \/ In row l ->
            In (ep_cell_id row)
               (map fst
                  (fold_left
                     (fun d ep_row =>
                        if evaluated configurations mr_enodeb_data carrier ep_row
                        then
                          let cell_key := cell_key_of (ep_cell_id ep_row) carrier in
                          let cell_type := cell_type_of configurations cell_key in
                          sset d (ep_cell_id ep_row)
                               {| stat_cell_type := cell_type;
                                  stat_is_split := String.eqb cell_type "Sector Split";
                                  stat_split_partner :=
                                    split_partner_in configurations cell_key |}
                        else d)
                     l d0))).
  { induction l as [| r0 rest IH]; intros d0 H; cbn [fold_left].
    - destruct H as [H | []]. exact H.
    - apply IH. destruct H as [H | [-> | H]].
      + left. destruct (evaluated configurations mr_enodeb_data carrier r0); [| exact H].
        cbv zeta. apply sset_keys. now left.
      + left. rewrite He. cbv zeta. apply sset_keys. now right.
      + now right. }
  specialize (G (rows_of_carrier ep_enodeb_data carrier) [] (or_intror Hrow)).
  apply in_map_iff in G. destruct G as ([k st] & Ek & Hst). cbn [fst] in Ek. subst k.
  exists st. exact Hst.
Qed.

(** Every cell recorded as swapped has a swap row. *)
Definition found_have_rows (enodeb : string) (st : pass_state) : Prop :=
  forall x, In x (swap_found_cells st) ->
    exists y ty, In (enodeb, x, swap_message x y, ty) (results st).

Lemma emit_found_have_rows enodeb cell_id c t st :
  found_have_rows enodeb st -> found_have_rows enodeb (emit_swap enodeb cell_id c t st).
Proof.
  intros Hst x Hx.
  assert (Hold : In x (swap_found_cells st) ->
                 exists y ty, In (enodeb, x, swap_message x y, ty)
                                 (results (emit_swap enodeb cell_id c t st))).
  { intros H. destruct (Hst x H) as (y & ty & Hrow). exists y, ty.
    now apply emit_monotone. }
  revert Hx Hold. unfold emit_swap. cbv zeta.
  destruct (mem_pair (cell_id, target c) _); cbn [added_cells results swap_found_cells];
    destruct (mem_pair (target c, cell_id) _); cbn [added_cells results swap_found_cells];
    intros Hx Hold.
  - now apply Hold.
  - destruct Hx as [<- | Hx]; [| now apply Hold].
    exists cell_id, (cand_cell_type t). apply in_or_app. right. now left.
  - destruct Hx as [<- | Hx]; [| now apply Hold].
    exists (target c), (cand_cell_type c). apply in_or_app. right. now left.
  - destruct Hx as [<- | [<- | Hx]]; [| | now apply Hold].
    + exists cell_id, (cand_cell_type t). apply in_or_app. right. now left.
    + exists (target c), (cand_cell_type c).
      apply in_or_app. left. apply in_or_app. right. now left.
Qed.

Lemma second_pass_found_have_rows enodeb sc :
  found_have_rows enodeb (second_pass enodeb sc).
Proof.
  unfold second_pass.
  assert (G : forall l st, found_have_rows enodeb st ->
            found_have_rows enodeb (fold_left (second_pass_step enodeb sc) l st)).
  { induction l as [| [cell_id c] rest IH]; intros st H; cbn [fold_left]; [exact H |].
    apply IH. destruct (step_cases enodeb sc st cell_id c) as [-> | (t & _ & ->)];
      [exact H | now apply emit_found_have_rows]. }
  apply G. intros x [].
Qed.

Lemma mem_string_In x l : mem_string x l = true <-> In x l.
Proof.
  unfold mem_string. rewrite existsb_exists. split.
  - intros (y & Hy & E). apply String.eqb_eq in E. now subst.
  - intros H. exists x. split; [exact H | apply String.eqb_refl].
Qed.

Lemma drop_duplicates_keeps_row (l : list result_row) (e c r t : string) :
  In (e, c, r, t) l -> exists t', In (e, c, r, t') (drop_duplicates same_result l).
Proof.
  induction l as [| [[[e0 c0] r0] t0] rest IH]; intros H; [contradiction |].
  cbn [drop_duplicates].
  destruct (same_result (e0, c0, r0, t0) (e, c, r, t)) eqn:E.
  - apply same_result_spec in E. destruct E as (-> & -> & ->). exists t0. now left.
  - destruct H as [H | H].
    + inversion H; subst.
      assert (same_result (e, c, r, t) (e, c, r, t) = true)
        by (apply same_result_spec; auto).
      congruence.
    + destruct (IH H) as [t' H'].
      destruct (same_result (e0, c0, r0, t0) (e, c, r, t')) eqn:E'.
      * apply same_result_spec in E'. destruct E' as (-> & -> & ->). exists t0. now left.
      * exists t'. right. apply filter_In. split; [exact H' |]. now rewrite E'.
Qed.

(** The rows one iteration of the cell loop appends. *)
Lemma process_cell_rows settings enodeb ep_enodeb_data mr_enodeb_data row
      (name cell result type : string) :
  In row ep_enodeb_data ->
  In (name, cell, result, type)
     (process_cell (cell_configurations settings enodeb ep_enodeb_data) enodeb
                   ep_enodeb_data mr_enodeb_data row) ->
  name = enodeb /\
  (exists e, In e ep_enodeb_data /\ ep_cell_id e = cell) /\
  ((result = "No Sector Swap Found - Massive MIMO" /\ type = "Massive MIMO") \/
   ((type = "" \/ type = "Sector Split") /\
    (result = "NO MR Data found for the cell" \/ result = "Less Number of MR Points" \/
     result = "No Sector Swap Found" \/ exists y, result = swap_message cell y))).
Proof.
  intros Hrow. set (cfgs := cell_configurations settings enodeb ep_enodeb_data).
  assert (Hplain : forall key, cell_type_of cfgs key <> "Massive MIMO" ->
            cell_type_of cfgs key = "" \/ cell_type_of cfgs key = "Sector Split").
  { intros key Hne. destruct (cell_type_known settings enodeb ep_enodeb_data key)
      as [H | [H | H]]; auto. contradiction. }
  unfold process_cell. cbv zeta.
  destruct (String.eqb (cell_type_of cfgs (cell_key_of (ep_cell_id row) (ep_carrier row)))
                       "Massive MIMO") eqn:Emimo.
  { apply String.eqb_eq in Emimo. rewrite Emimo. intros [H | []].
    inversion H; subst. split; [reflexivity |]. split; [exists row; auto |].
    left. split; reflexivity. }
  apply String.eqb_neq in Emimo. apply Hplain in Emimo.
  destruct (samples_of mr_enodeb_data (EP_key row)) as [| m rest].
  { intros [H | []]. inversion H; subst. split; [reflexivity |].
    split; [exists row; auto |]. right. split; [exact Emimo | auto]. }
  destruct (length (m :: rest) <? 50)%nat.
  { intros [H | []]. inversion H; subst. split; [reflexivity |].
    split; [exists row; auto |]. right. split; [exact Emimo | auto]. }
  unfold evaluate_carrier. cbv zeta. fold (sector_info_of ep_enodeb_data (ep_carrier row)).
  intros H. apply in_app_or in H. destruct H as [H | H].
  - unfold second_pass in H. apply fold_sound in H.
    destruct H as [[] | (cid & c & t & Hc & Hf & Hr)].
    destruct Hf as (_ & Ht & _ & _ & _). apply sget_In in Ht.
    apply candidate_row in Hc. destruct Hc as (rx & Hrx & Hidx & _ & Hex & Ec).
    apply candidate_row in Ht. destruct Ht as (ry & Hry & Hidy & _ & Hey & Et).
    apply evaluated_spec in Hex, Hey. destruct Hex as [Htx _]. destruct Hey as [Hty _].
    apply Hplain in Htx, Hty.
    destruct Hr as [Hr | Hr]; inversion Hr; subst name cell result type.
    + split; [reflexivity |]. split; [exists rx; auto |]. right. split.
      * rewrite Ec. exact Htx.
      * right. right. right. exists (target c). reflexivity.
    + split; [reflexivity |]. split; [exists ry; auto |]. right. split.
      * rewrite Et. exact Hty.
      * right. right. right. exists cid. reflexivity.
  - unfold no_swap_rows in H. apply in_flat_map in H. destruct H as ([k st] & Hst & H).
    cbn [fst snd] in H. destruct (mem_string k _); [contradiction |].
    destruct H as [H | []]. inversion H; subst name cell result type.
    apply cell_stats_sound in Hst. destruct Hst as (rx & Hrx & Hidx & _ & Hex & Est).
    apply evaluated_spec in Hex. destruct Hex as [Htx _]. apply Hplain in Htx.
    split; [reflexivity |]. split; [exists rx; auto |]. right. split.
    + rewrite Est, <- Hidx. exact Htx.
    + auto.
Qed.

(** X20.  Every row of a site's result carries the site name and the cell
    id of an EP row, and is of one of two kinds: typed "Massive MIMO" and
    reading "No Sector Swap Found - Massive MIMO"; or typed "" or "Sector
    Split" and reading "NO MR Data found for the cell", "Less Number of MR
    Points", "No Sector Swap Found" or "Sector Swap Found Between <this cell>
    and <another>". *)
Theorem site_rows_are_of_known_kinds
    (settings : parameter_settings) (enodeb : string)
    (ep_enodeb_data : list ep_row) (mr_enodeb_data : list mr_row)
    (name cell result type : string) :
  In (name, cell, result, type)
     (process_enodeb settings enodeb ep_enodeb_data mr_enodeb_data) ->
  name = enodeb /\
  (exists e, In e ep_enodeb_data /\ ep_cell_id e = cell) /\
  ((result = "No Sector Swap Found - Massive MIMO" /\ type = "Massive MIMO") \/
   ((type = "" \/ type = "Sector Split") /\
    (result = "NO MR Data found for the cell" \/ result = "Less Number of MR Points" \/
     result = "No Sector Swap Found" \/ exists y, result = swap_message cell y))).
Proof.
  unfold process_enodeb. cbv zeta. intros H.
  apply drop_duplicates_In in H. apply in_flat_map in H.
  destruct H as (row & Hrow & H).
  exact (process_cell_rows settings enodeb ep_enodeb_data mr_enodeb_data row
           name cell result type Hrow H).
Qed.

(** X21.  Every EP row of the site is answered: the result holds at least
    one row with the site name and the cell id of that EP row. *)
Theorem every_ep_cell_is_reported
    (settings : parameter_settings) (enodeb : string)
    (ep_enodeb_data : list ep_row) (mr_enodeb_data : list mr_row) (e : ep_row) :
  In e ep_enodeb_data ->
  exists result type : string,
    In (enodeb, ep_cell_id e, result, type)
       (process_enodeb settings enodeb ep_enodeb_data mr_enodeb_data).
Proof.
  intros He. unfold process_enodeb. cbv zeta.
  set (cfgs := cell_configurations settings enodeb ep_enodeb_data).
  assert (Hcell : exists result type,
            In (enodeb, ep_cell_id e, result, type)
               (process_cell cfgs enodeb ep_enodeb_data mr_enodeb_data e)).
  { destruct (evaluated cfgs mr_enodeb_data (ep_carrier e) e) eqn:Eev.
    - rewrite (process_cell_of_evaluated cfgs enodeb ep_enodeb_data mr_enodeb_data e Eev).
      unfold evaluate_carrier. cbv zeta.
      destruct (cell_stats_has_cell cfgs ep_enodeb_data mr_enodeb_data e He eq_refl Eev)
        as [st Hst].
      set (pass := second_pass enodeb _).
      destruct (mem_string (ep_cell_id e) (swap_found_cells pass)) eqn:Efound.
      + apply mem_string_In in Efound.
        destruct (second_pass_found_have_rows enodeb _ _ Efound) as (y & ty & Hrow).
        exists (swap_message (ep_cell_id e) y), ty. apply in_or_app. left. exact Hrow.
      + exists "No Sector Swap Found", (stat_cell_type st). apply in_or_app. right.
        unfold no_swap_rows. apply in_flat_map. exists (ep_cell_id e, st).
        split; [exact Hst |]. cbn [fst snd]. rewrite Efound. now left.
    - unfold evaluated in Eev. unfold process_cell. cbv zeta.
      destruct (String.eqb (cell_type_of cfgs (cell_key_of (ep_cell_id e) (ep_carrier e)))
                           "Massive MIMO").
      { eexists. eexists. left. reflexivity. }
      cbn [negb andb] in Eev.
      destruct (samples_of mr_enodeb_data (EP_key e)) as [| m rest].
      { eexists. eexists. left. reflexivity. }
      apply Nat.leb_gt in Eev. apply Nat.ltb_lt in Eev. rewrite Eev.
      eexists. eexists. left. reflexivity. }
  destruct Hcell as (result & type & Hin).
  assert (Hall : In (enodeb, ep_cell_id e, result, type)
                    (flat_map (process_cell cfgs enodeb ep_enodeb_data mr_enodeb_data)
                              ep_enodeb_data)).
  { apply in_flat_map. exists e. split; assumption. }
  apply drop_duplicates_keeps_row in Hall. destruct Hall as [t' Hall].
  exists result, t'. exact Hall.
Qed.

Lemma four_beams_rows :
  process_enodeb one_mimo_group "S1" four_beams []
  = [ ("S1", "M_0", "NO MR Data found for the cell", "");
      ("S1", "M_1", "NO MR Data found for the cell", "");
      ("S1", "M_2", "NO MR Data found for the cell", "");
      ("S1", "M_3", "NO MR Data found for the cell", "") ].
Proof. reflexivity. Qed.

Lemma site_rows_witness :
  In ("S1", "M_0", "NO MR Data found for the cell", "")
     (process_enodeb one_mimo_group "S1" four_beams []) /\
  exists e, In e four_beams /\ ep_cell_id e = "M_0".
Proof.
  assert (Hin : In ("S1", "M_0", "NO MR Data found for the cell", "")
                   (process_enodeb one_mimo_group "S1" four_beams []))
    by (rewrite four_beams_rows; now left).
  split; [exact Hin |].
  exact (proj1 (proj2 (@site_rows_are_of_known_kinds one_mimo_group "S1" four_beams []
                         "S1" "M_0" "NO MR Data found for the cell" "" Hin))).
Defined.

Lemma every_ep_cell_witness :
  In sector_A two_sectors /\
  exists result type : string,
    In ("S1", "A", result, type)
       (process_enodeb no_groups "S1" two_sectors south_and_north).
Proof.
  assert (HA : In sector_A two_sectors) by (right; now left).
  split; [exact HA |].
  exact (@every_ep_cell_is_reported no_groups "S1" two_sectors south_and_north sector_A HA).
Defined.

(** *** Texts that hold "Sector Swap Found" *)

Lemma prefix_app (p s : string) : prefix p s = true -> exists t, s = p ++ t.
Proof.
  revert s. induction p as [| a p IH]; intros s H.
  - exists s. reflexivity.
  - destruct s as [| b s]; cbn [prefix] in H; [discriminate |].
    destruct (ascii_dec a b) as [<- | _]; [| discriminate].
    destruct (IH s H) as [t ->]. exists t. reflexivity.
Qed.

Lemma contains_later (sub : string) (c : ascii) (s : string) :
  contains sub s = true -> contains sub (String c s) = true.
Proof. intros H. cbn [contains]. rewrite H. apply orb_true_r. Qed.

(** A text holding "No Sector Swap Found (Split, Valid MR)" holds "Sector
    Swap Found". *)
Lemma longer_text_contains_shorter (s : string) :
  contains "No Sector Swap Found (Split, Valid MR)" s = true ->
  contains "Sector Swap Found" s = true.
Proof.
  induction s as [| c s IH]; intros H.
  - discriminate.
  - cbn [contains] in H. apply orb_true_iff in H. destruct H as [H | H].
    + apply prefix_app in H. destruct H as [t ->]. reflexivity.
    + now apply contains_later, IH.
Qed.

Lemma swap_texts :
  contains "Sector Swap Found" "No Sector Swap Found" = true /\
  contains "Sector Swap Found" "No Sector Swap Found - Massive MIMO" = true /\
  (forall x y, contains "Sector Swap Found" (swap_message x y) = true) /\
  contains "Sector Swap Found" "NO MR Data found for the cell" = false /\
  contains "Sector Swap Found" "Less Number of MR Points" = false.
Proof. repeat split; reflexivity. Qed.

(** X22.  [split_priority] returns 2 or 0, never 1: a text that holds "No
    Sector Swap Found (Split, Valid MR)" also holds "Sector Swap Found" and is
    caught by the first test.  The rows "No Sector Swap Found" and "No Sector
    Swap Found - Massive MIMO" get the same priority 2 as a "Sector Swap Found
    Between" row; the two remaining row texts get 0. *)
Theorem split_priority_is_never_1 (result : string) :
  split_priority result <> 1%Z /\
  (split_priority result = 2%Z <-> contains "Sector Swap Found" result = true) /\
  (split_priority result = 0%Z <-> contains "Sector Swap Found" result = false) /\
  split_priority "No Sector Swap Found" = 2%Z /\
  split_priority "No Sector Swap Found - Massive MIMO" = 2%Z /\
  (forall x y, split_priority (swap_message x y) = 2%Z) /\
  split_priority "NO MR Data found for the cell" = 0%Z /\
  split_priority "Less Number of MR Points" = 0%Z.
Proof.
  assert (Hcases : forall r,
            (contains "Sector Swap Found" r = true /\ split_priority r = 2%Z) \/
            (contains "Sector Swap Found" r = false /\ split_priority r = 0%Z)).
  { intros r. unfold split_priority.
    destruct (contains "Sector Swap Found" r) eqn:E; [left; auto |].
    destruct (contains "No Sector Swap Found (Split, Valid MR)" r) eqn:E'; [| right; auto].
    apply longer_text_contains_shorter in E'. congruence. }
  split; [| split; [| split]].
  - destruct (Hcases result) as [[_ ->] | [_ ->]]; discriminate.
  - destruct (Hcases result) as [[-> ->] | [-> ->]]; split; intros H;
      try reflexivity; discriminate.
  - destruct (Hcases result) as [[-> ->] | [-> ->]]; split; intros H;
      try reflexivity; discriminate.
  - repeat split; reflexivity.
Qed.

(** *** The statistics of a result table *)

Lemma unique_In (l : list string) (x : string) : In x (unique l) <-> In x l.
Proof.
  unfold unique. split; [apply drop_duplicates_In |].
  induction l as [| y rest IH]; [tauto |].
  cbn [drop_duplicates]. intros [-> | H]; [now left |].
  destruct (String.eqb y x) eqn:E.
  - apply String.eqb_eq in E. now left.
  - right. apply filter_In. split; [now apply IH | now rewrite E].
Qed.

Lemma unique_NoDup (l : list string) : NoDup (unique l).
Proof.
  unfold unique. induction l as [| y rest IH]; cbn [drop_duplicates].
  - constructor.
  - constructor.
    + intros H. apply filter_In in H. destruct H as [_ H].
      now rewrite String.eqb_refl in H.
    + now apply NoDup_filter.
Qed.

Lemma unique_length (l : list string) : (length (unique l) <= length l)%nat.
Proof.
  unfold unique. induction l as [| y rest IH]; cbn [drop_duplicates length]; [lia |].
  pose proof (filter_length_le (fun z => negb (String.eqb y z))
                               (drop_duplicates String.eqb rest)).
  lia.
Qed.

Lemma swap_sites_among_sites (p : result_row -> bool) (l : list result_row) :
  (length (unique (map row_name (filter p l))) <= length (unique (map row_name l)))%nat.
Proof.
  apply NoDup_incl_length; [apply unique_NoDup |].
  intros x Hx. apply (proj1 (unique_In _ _)) in Hx. apply (proj2 (unique_In _ _)).
  apply in_map_iff in Hx. destruct Hx as (r & <- & Hr).
  apply filter_In in Hr. apply in_map. tauto.
Qed.

(** X23.  [calculate_sector_swap_statistics] raises ZeroDivisionError on an
    empty table and returns the statistics of every other table.  They are
    consistent: the swap count is the sum of the split and the normal swap
    counts and at most the number of rows, the number of sites with a swap
    is at most the number of sites, which is at least 1 and at most the
    number of rows, and the split and MIMO cells together are at most the
    number of rows. *)
Theorem swap_statistics_consistent (result_df : list result_row) :
  (result_df = [] -> calculate_sector_swap_statistics result_df = None) /\
  (result_df <> [] ->
   exists st, calculate_sector_swap_statistics result_df = Some st /\
     total_cells st = Z.of_nat (length result_df) /\
     sector_swap_count st = (split_swap_count st + normal_swap_count st)%Z /\
     (0 <= sector_swap_count st <= total_cells st)%Z /\
     (0 <= sector_swap_site_count st <= total_sites st)%Z /\
     (1 <= total_sites st <= total_cells st)%Z /\
     (split_cells_count st + mimo_cells_count st <= total_cells st)%Z).
Proof.
  split; [intros ->; reflexivity |].
  intros Hne. unfold calculate_sector_swap_statistics. cbv zeta.
  set (swap_cells := filter (fun r => contains "Sector Swap Found" (row_result r)) result_df).
  assert (Hlen : (0 < length result_df)%nat) by (destruct result_df; [congruence | simpl; lia]).
  assert (Hsites : (1 <= length (unique (map row_name result_df)))%nat).
  { destruct result_df as [| r rest]; [congruence |]. cbn [map unique drop_duplicates length].
    lia. }
  replace (Z.of_nat (length result_df) =? 0)%Z with false by (symmetry; apply Z.eqb_neq; lia).
  replace (Z.of_nat (length (unique (map row_name result_df))) =? 0)%Z with false
    by (symmetry; apply Z.eqb_neq; lia).
  eexists. split; [reflexivity |].
  cbn [total_cells sector_swap_count sector_swap_site_count total_sites split_cells_count
       mimo_cells_count split_swap_count normal_swap_count].
  pose proof (filter_length (fun r => String.eqb (row_type r) "Sector Split") swap_cells)
    as Hparts.
  pose proof (filter_length_le (fun r => contains "Sector Swap Found" (row_result r))
                               result_df) as Hswaps.
  fold swap_cells in Hswaps.
  pose proof (swap_sites_among_sites
                (fun r => contains "Sector Swap Found" (row_result r)) result_df) as Hss.
  fold swap_cells in Hss.
  pose proof (unique_length (map row_name result_df)) as Hu. rewrite length_map in Hu.
  assert (Htypes : (length (filter (fun r => String.eqb (row_type r) "Sector Split") result_df)
                    + length (filter (fun r => String.eqb (row_type r) "Massive MIMO")
                                     result_df)
                    <= length result_df)%nat).
  { clear. induction result_df as [| r rest IH]; [simpl; lia |].
    cbn [filter].
    destruct (String.eqb (row_type r) "Sector Split") eqn:E1;
      destruct (String.eqb (row_type r) "Massive MIMO") eqn:E2; cbn [length]; try lia.
    apply String.eqb_eq in E1, E2. rewrite E1 in E2. discriminate. }
  repeat split; lia.
Qed.

Lemma swap_statistics_witness :
  [("S1", "A", "No Sector Swap Found", "")] <> [] /\
  exists st,
    calculate_sector_swap_statistics [("S1", "A", "No Sector Swap Found", "")] = Some st /\
    total_cells st = 1%Z.
Proof.
  assert (Hne : [("S1", "A", "No Sector Swap Found", "")] <> []) by discriminate.
  split; [exact Hne |].
  destruct (proj2 (swap_statistics_consistent [("S1", "A", "No Sector Swap Found", "")]) Hne)
    as (st & Hst & Htot & _).
  exists st. split; [exact Hst | exact Htot].
Defined.

Lemma filter_all {A : Type} (p : A -> bool) (l : list A) :
  (forall x, In x l -> p x = true) -> filter p l = l.
Proof.
  intros H. induction l as [| x rest IH]; [reflexivity |].
  cbn [filter]. rewrite (H x) by now left. f_equal. apply IH. intros y Hy. apply H. now right.
Qed.

(** X24.  The statistics find a swap by the text "Sector Swap Found"
    occurring in the Result column, and the rows "No Sector Swap Found" and
    "No Sector Swap Found - Massive MIMO" hold that text: in a table made
    of such rows only, every cell is counted as a sector swap and the swap
    percentage is 100. *)
Theorem cells_without_swap_are_counted_as_swaps (result_df : list result_row) :
  result_df <> [] ->
  (forall r, In r result_df ->
     row_result r = "No Sector Swap Found"
     \/ row_result r = "No Sector Swap Found - Massive MIMO") ->
  exists st, calculate_sector_swap_statistics result_df = Some st /\
    sector_swap_count st = total_cells st /\
    (sector_swap_percentage st == 100)%Q /\
    sector_swap_site_count st = total_sites st.
Proof.
  intros Hne Hrows. unfold calculate_sector_swap_statistics. cbv zeta.
  assert (Hall : filter (fun r => contains "Sector Swap Found" (row_result r)) result_df
                 = result_df).
  { apply filter_all. intros r Hr. destruct (Hrows r Hr) as [-> | ->]; reflexivity. }
  rewrite Hall.
  assert (Hlen : (0 < length result_df)%nat) by (destruct result_df; [congruence | simpl; lia]).
  assert (Hsites : (1 <= length (unique (map row_name result_df)))%nat).
  { destruct result_df as [| r rest]; [congruence |]. cbn [map unique drop_duplicates length].
    lia. }
  replace (Z.of_nat (length result_df) =? 0)%Z with false by (symmetry; apply Z.eqb_neq; lia).
  replace (Z.of_nat (length (unique (map row_name result_df))) =? 0)%Z with false
    by (symmetry; apply Z.eqb_neq; lia).
  eexists. split; [reflexivity |].
  cbn [total_cells sector_swap_count sector_swap_percentage sector_swap_site_count total_sites].
  split; [reflexivity |]. split; [| reflexivity].
  destruct (Z.of_nat (length result_df)) as [| n | n] eqn:E; try lia.
  unfold Qeq, Qdiv, Qmult, Qinv, inject_Z. cbn [Qnum Qden]. lia.
Qed.

Lemma cells_without_swap_witness :
  let table := [("S1", "A", "No Sector Swap Found", "");
                ("S1", "B", "No Sector Swap Found - Massive MIMO", "Massive MIMO")] in
  table <> [] /\
  exists st, calculate_sector_swap_statistics table = Some st /\
             sector_swap_count st = total_cells st.
Proof.
  intros table.
  assert (Hne : table <> []) by discriminate.
  assert (Hrows : forall r, In r table ->
            row_result r = "No Sector Swap Found"
            \/ row_result r = "No Sector Swap Found - Massive MIMO").
  { intros r [<- | [<- | []]]; [left | right]; reflexivity. }
  split; [exact Hne |].
  destruct (cells_without_swap_are_counted_as_swaps Hne Hrows) as (st & Hst & Hcount & _).
  exists st. split; [exact Hst | exact Hcount].
Defined.

(** *** Recognising configured groups *)

Lemma cell_exists_spec (ep_data : list ep_row) (site_name cell : string) :
  cell_exists ep_data site_name cell = true <->
  exists e, In e ep_data /\ ep_site_id e = site_name /\ ep_cell_id e = cell.
Proof.
  unfold cell_exists. rewrite existsb_exists. split.
  - intros (e & He & H). apply andb_true_iff in H. destruct H as [H1 H2].
    apply String.eqb_eq in H1, H2. exists e. auto.
  - intros (e & He & <- & <-). exists e. split; [exact He |].
    now rewrite !String.eqb_refl.
Qed.

(** A Massive MIMO entry applies to a cell: same layer, the cell is one of
    its four beams, and each beam id is the cell id of some EP row of the
    site (on any carrier). *)
Definition mimo_entry_applies (mimo : mimo_setting) (site_name cell_id carrier : string)
    (ep_data : list ep_row) : Prop :=
  mimo_Layer mimo = carrier /\ In cell_id (beam_ids mimo) /\
  forall b, In b (beam_ids mimo) ->
    exists e, In e ep_data /\ ep_site_id e = site_name /\ ep_cell_id e = b.

Lemma mimo_entry_test (mimo : mimo_setting) (site_name cell_id carrier : string)
    (ep_data : list ep_row) :
  String.eqb (mimo_Layer mimo) carrier
  && existsb (String.eqb cell_id) (beam_ids mimo)
  && forallb (cell_exists ep_data site_name) (beam_ids mimo) = true
  <-> mimo_entry_applies mimo site_name cell_id carrier ep_data.
Proof.
  unfold mimo_entry_applies.
  rewrite !andb_true_iff, String.eqb_eq, existsb_exists, forallb_forall. split.
  - intros [[Hl (b & Hb & E)] Hall]. apply String.eqb_eq in E. subst b.
    split; [exact Hl |]. split; [exact Hb |].
    intros b Hb'. apply cell_exists_spec. now apply Hall.
  - intros (Hl & Hb & Hall). split; [split; [exact Hl |] |].
    + exists cell_id. split; [exact Hb | apply String.eqb_refl].
    + intros b Hb'. apply cell_exists_spec. now apply Hall.
Qed.

(** X25.  [check_massive_mimo_group] answers (False, None) or (True, the
    four beam ids of a configured entry that applies to the cell): same
    layer, the cell among its beams, every beam id present at the site.  It
    answers (False, None) exactly when no configured entry applies.  The
    presence of a beam is tested on site and cell id alone, not on the
    carrier. *)
Theorem mimo_group_found_iff_an_entry_applies
    (mimos : list mimo_setting) (site_name cell_id carrier : string)
    (ep_data : list ep_row) :
  let res := check_massive_mimo_group mimos site_name cell_id carrier ep_data in
  (res = (false, None) \/
   exists mimo, In mimo mimos /\
     mimo_entry_applies mimo site_name cell_id carrier ep_data /\
     res = (true, Some (beam_ids mimo))) /\
  (res = (false, None) <->
   forall mimo, In mimo mimos ->
     ~ mimo_entry_applies mimo site_name cell_id carrier ep_data).
Proof.
  cbv zeta. induction mimos as [| mimo rest IH]; cbn [check_massive_mimo_group].
  - split; [now left |]. split; [intros _ m [] | reflexivity].
  - cbv zeta. destruct IH as [IH1 IH2].
    pose proof (mimo_entry_test mimo site_name cell_id carrier ep_data) as Htest.
    destruct (String.eqb (mimo_Layer mimo) carrier) eqn:El;
      [destruct (existsb (String.eqb cell_id) (beam_ids mimo)) eqn:Eb;
       [destruct (forallb (cell_exists ep_data site_name) (beam_ids mimo)) eqn:Ea |] |];
      cbn [andb] in Htest.
    { split.
      - right. exists mimo. split; [now left |]. split; [now apply Htest | reflexivity].
      - split; [discriminate |]. intros H. exfalso.
        apply (H mimo (or_introl eq_refl)). now apply Htest. }
    all: split;
      [ destruct IH1 as [IH1 | (m & Hm & Ha & Hr)];
        [now left | right; exists m; split; [now right | split; assumption]]
      | rewrite IH2; split;
        [ intros H m [<- | Hm]; [intros Ha; apply Htest in Ha; discriminate | now apply H]
        | intros H m Hm; apply H; now right ] ].
Qed.

(** A sector-split entry applies to a cell with the given partner: same
    layer, the cell is the parent and the partner the child or the other way
    round, and the partner id is the cell id of some EP row of the site. *)
Definition split_entry_applies (split : split_setting) (site_name cell_id carrier : string)
    (ep_data : list ep_row) (partner : string) : Prop :=
  split_Layer split = carrier /\
  ((cell_id = Parrent_ID split /\ partner = Child_ID split)
   \/ (cell_id = Child_ID split /\ partner = Parrent_ID split)) /\
  exists e, In e ep_data /\ ep_site_id e = site_name /\ ep_cell_id e = partner.

(** X26.  [check_sector_split_pair] answers (False, None) or (True, the
    partner of the cell in a configured entry that applies): same layer, the
    cell is the parent or the child of the entry, and the other id of the
    entry is present at the site.  It answers (False, None) exactly when no
    configured entry applies with either id as the partner. *)
Theorem split_pair_found_iff_an_entry_applies
    (splits : list split_setting) (site_name cell_id carrier : string)
    (ep_data : list ep_row) :
  let res := check_sector_split_pair splits site_name cell_id carrier ep_data in
  (res = (false, None) \/
   exists split partner, In split splits /\
     split_entry_applies split site_name cell_id carrier ep_data partner /\
     res = (true, Some partner)) /\
  (res = (false, None) <->
   forall split partner, In split splits ->
     ~ split_entry_applies split site_name cell_id carrier ep_data partner).
Proof.
  cbv zeta. induction splits as [| split rest IH]; cbn [check_sector_split_pair].
  - split; [now left |]. split; [intros _ sp pa [] | reflexivity].
  - cbv zeta. destruct IH as [IH1 IH2].
    assert (Hrest : forall res0,
              res0 = check_sector_split_pair rest site_name cell_id carrier ep_data ->
              (forall partner,
                 ~ split_entry_applies split site_name cell_id carrier ep_data partner) ->
              (res0 = (false, None) \/
               exists sp partner, In sp (split :: rest) /\
                 split_entry_applies sp site_name cell_id carrier ep_data partner /\
                 res0 = (true, Some partner)) /\
              (res0 = (false, None) <->
               forall sp partner, In sp (split :: rest) ->
                 ~ split_entry_applies sp site_name cell_id carrier ep_data partner)).
    { intros res0 -> Hnot. split.
      - destruct IH1 as [IH1 | (sp & pa & Hsp & Ha & Hr)]; [now left |].
        right. exists sp, pa. split; [now right | split; assumption].
      - rewrite IH2. split.
        + intros H sp pa [<- | Hsp]; [apply Hnot | now apply H].
        + intros H sp pa Hsp. apply H. now right. }
    assert (Hfound : forall partner,
              split_entry_applies split site_name cell_id carrier ep_data partner ->
              ((true, Some partner) = (false, None) \/
               exists sp pa, In sp (split :: rest) /\
                 split_entry_applies sp site_name cell_id carrier ep_data pa /\
                 (true, Some partner) = (true, Some pa)) /\
              ((true, Some partner) = (false, None) <->
               forall sp pa, In sp (split :: rest) ->
                 ~ split_entry_applies sp site_name cell_id carrier ep_data pa)).
    { intros partner Ha. split.
      - right. exists split, partner. split; [now left |]. split; [exact Ha | reflexivity].
      - split; [discriminate |]. intros H. exfalso.
        exact (H split partner (or_introl eq_refl) Ha). }
    destruct (String.eqb (split_Layer split) carrier) eqn:El.
    + apply String.eqb_eq in El.
      destruct (String.eqb cell_id (Parrent_ID split)) eqn:Ep.
      * apply String.eqb_eq in Ep.
        destruct (cell_exists ep_data site_name (Child_ID split)) eqn:Ec.
        -- apply Hfound. split; [exact El |]. split; [left; auto |].
           now apply cell_exists_spec.
        -- apply Hrest; [reflexivity |].
           intros partner (_ & [[_ ->] | [Hc ->]] & Hex).
           ++ apply cell_exists_spec in Hex. congruence.
           ++ apply cell_exists_spec in Hex.
              rewrite <- Ep, Hc in Hex. congruence.
      * apply String.eqb_neq in Ep.
        destruct (String.eqb cell_id (Child_ID split)) eqn:Ech.
        -- apply String.eqb_eq in Ech.
           destruct (cell_exists ep_data site_name (Parrent_ID split)) eqn:Ec.
           ++ apply Hfound. split; [exact El |]. split; [right; auto |].
              now apply cell_exists_spec.
           ++ apply Hrest; [reflexivity |].
              intros partner (_ & [[Hc _] | [_ ->]] & Hex); [contradiction |].
              apply cell_exists_spec in Hex. congruence.
        -- apply String.eqb_neq in Ech. apply Hrest; [reflexivity |].
           intros partner (_ & [[Hc _] | [Hc _]] & _); contradiction.
    + apply String.eqb_neq in El. apply Hrest; [reflexivity |].
      intros partner (Hl & _). contradiction.
Qed.

(** *** A swapped cell has no plain row *)

(** Every swap row belongs to a cell recorded as swapped. *)
Definition rows_are_found (enodeb : string) (st : pass_state) : Prop :=
  forall x y ty, In (enodeb, x, swap_message x y, ty) (results st) ->
                 In x (swap_found_cells st).

Lemma emit_rows_are_found enodeb cell_id c t st :
  rows_are_found enodeb st -> rows_are_found enodeb (emit_swap enodeb cell_id c t st).
Proof.
  intros Hst x y ty.
  pose proof (Hst x y ty) as Hold.
  unfold emit_swap. cbv zeta.
  destruct (mem_pair (cell_id, target c) _); cbn [added_cells results swap_found_cells];
    destruct (mem_pair (target c, cell_id) _); cbn [added_cells results swap_found_cells];
    rewrite ?in_app_iff; cbn [In]; intros H;
    repeat match goal with
           | H : _ \/ _ |- _ => destruct H as [H | H]
           | H : False |- _ => contradiction
           | H : (_, _, _, _) = (_, _, _, _) |- _ =>
               apply result_row_inv in H; destruct H as [H _]; rewrite H
           | H : In _ (results st) |- _ => apply Hold in H
           end;
    auto.
Qed.

Lemma second_pass_rows_are_found enodeb sc : rows_are_found enodeb (second_pass enodeb sc).
Proof.
  unfold second_pass.
  assert (G : forall l st, rows_are_found enodeb st ->
            rows_are_found enodeb (fold_left (second_pass_step enodeb sc) l st)).
  { induction l as [| [cell_id c] rest IH]; intros st H; cbn [fold_left]; [exact H |].
    apply IH. destruct (step_cases enodeb sc st cell_id c) as [-> | (t & _ & ->)];
      [exact H | now apply emit_rows_are_found]. }
  apply G. intros x y ty [].
Qed.

Lemma second_pass_rows_are_swaps enodeb sc name cell result type :
  In (name, cell, result, type) (results (second_pass enodeb sc)) ->
  exists y, result = swap_message cell y.
Proof.
  unfold second_pass. intros H. apply fold_sound in H.
  destruct H as [[] | (cid & c & t & _ & _ & [Hr | Hr])]; inversion Hr; subst; eauto.
Qed.

(** X27.  Cell ids being unique within the site, a cell that has a "Sector
    Swap Found Between" row has no "No Sector Swap Found" row. *)
Theorem swapped_cell_has_no_plain_row
    (settings : parameter_settings) (enodeb : string)
    (ep_enodeb_data : list ep_row) (mr_enodeb_data : list mr_row) (x y ty : string) :
  NoDup (map ep_cell_id ep_enodeb_data) ->
  has_swap_row enodeb (process_enodeb settings enodeb ep_enodeb_data mr_enodeb_data) x y ->
  ~ In (enodeb, x, "No Sector Swap Found", ty)
       (process_enodeb settings enodeb ep_enodeb_data mr_enodeb_data).
Proof.
  intros Hnd Hswap Hplain.
  apply swap_row_source in Hswap. destruct Hswap as (r1 & _ & Hpass & _).
  cbv zeta in Hpass.
  pose proof Hpass as Hpair. apply second_pass_row_pair in Hpair.
  destruct Hpair as (c & t & Hc & _). apply candidate_row in Hc.
  destruct Hc as (rx & Hrx & Hidx & Hcarx & _).
  unfold process_enodeb in Hplain. cbv zeta in Hplain.
  apply drop_duplicates_In in Hplain. apply in_flat_map in Hplain.
  destruct Hplain as (r2 & _ & Hplain).
  set (cfgs := cell_configurations settings enodeb ep_enodeb_data) in *.
  unfold process_cell in Hplain. cbv zeta in Hplain.
  destruct (String.eqb (cell_type_of cfgs (cell_key_of (ep_cell_id r2) (ep_carrier r2)))
                       "Massive MIMO") eqn:Emimo.
  { apply String.eqb_eq in Emimo. rewrite Emimo in Hplain.
    destruct Hplain as [H | []]. apply result_row_inv in H. destruct H as [_ H].
    discriminate. }
  destruct (samples_of mr_enodeb_data (EP_key r2)) as [| m rest].
  { destruct Hplain as [H | []]. apply result_row_inv in H. destruct H as [_ H].
    discriminate. }
  destruct (length (m :: rest) <? 50)%nat.
  { destruct Hplain as [H | []]. apply result_row_inv in H. destruct H as [_ H].
    discriminate. }
  unfold evaluate_carrier in Hplain. cbv zeta in Hplain.
  fold (sector_info_of ep_enodeb_data (ep_carrier r2)) in Hplain.
  apply in_app_or in Hplain. destruct Hplain as [H | H].
  - apply second_pass_rows_are_swaps in H. destruct H as [y' H]. discriminate.
  - unfold no_swap_rows in H. apply in_flat_map in H. destruct H as ([k st] & Hst & H).
    cbn [fst snd] in H.
    destruct (mem_string k _) eqn:Efound; [contradiction |].
    destruct H as [H | []]. apply result_row_inv in H. destruct H as [-> _].
    apply cell_stats_sound in Hst. destruct Hst as (rx' & Hrx' & Hidx' & Hcarx' & _).
    assert (rx' = rx) by (eapply row_of_cell_id; eauto; congruence).
    subst rx'. rewrite <- Hcarx', Hcarx in Efound.
    destruct Hpass as [ty' Hrow].
    apply second_pass_rows_are_found in Hrow. apply mem_string_In in Hrow.
    congruence.
Qed.

Lemma swapped_cell_witness :
  NoDup (map ep_cell_id two_sectors) /\
  has_swap_row "S1" (process_enodeb no_groups "S1" two_sectors south_and_north) "A" "B" /\
  ~ In ("S1", "A", "No Sector Swap Found", "")
       (process_enodeb no_groups "S1" two_sectors south_and_north).
Proof.
  split; [exact two_sectors_unique |]. split; [exact (proj1 swapped_site_rows) |].
  exact (@swapped_cell_has_no_plain_row no_groups "S1" two_sectors south_and_north
           "A" "B" "" two_sectors_unique (proj1 swapped_site_rows)).
Defined.

(** *** The counts of a candidate *)

Lemma sector_info_keys_unique (ep_enodeb_data : list ep_row) (carrier : string) :
  NoDup (map fst (sector_info_of ep_enodeb_data carrier)).
Proof.
  assert (G : forall l (d0 : list (string * list (string * sector))),
            (forall k inner, In (k, inner) d0 -> NoDup (map fst inner)) ->
            forall k inner,
              In (k, inner)
                 (fold_left
                    (fun d ep_row =>
                       let cid := ep_cell_id ep_row in
                       let carrier := ep_carrier ep_row in
                       let inner := match sget d carrier with Some i => i | None => [] end in
                       sset d carrier
                            (sset inner cid
                                  (fmod (ep_azimuth ep_row) 360, ep_latitude ep_row,
                                   ep_longitude ep_row)))
                    l d0) ->
              NoDup (map fst inner)).
  { induction l as [| row rest IH]; intros d0 H0; cbn [fold_left]; [exact H0 |].
    apply IH. cbv zeta. intros k inner Hin.
    apply sset_In_inv in Hin. destruct Hin as [Hin | [_ ->]]; [exact (H0 k inner Hin) |].
    apply sset_NoDup.
    match goal with
    | |- NoDup (map fst match ?x with _ => _ end) => destruct x as [i |] eqn:E
    end; [| constructor].
    apply sget_In in E. exact (H0 _ _ E). }
  unfold sector_info_of, sector_info_by_carrier.
  destruct (sget _ carrier) as [i |] eqn:E; [| constructor].
  apply sget_In in E. apply (G _ _ (fun k inner (H : In (k, inner) []) => match H with end) _ _ E).
Qed.

Lemma argmax_spec (d : list (string * Z)) (best : string) (best_count : Z) :
  (argmax d best best_count = best /\ forall k v, In (k, v) d -> (v <= best_count)%Z) \/
  (exists v, In (argmax d best best_count, v) d /\ (best_count < v)%Z /\
             forall k' v', In (k', v') d -> (v' <= v)%Z).
Proof.
  revert best best_count. induction d as [| [k v] rest IH]; intros best bc; cbn [argmax].
  - left. split; [reflexivity | intros k v []].
  - destruct (bc <? v)%Z eqn:E.
    + apply Z.ltb_lt in E. right.
      destruct (IH k v) as [[-> Hall] | (v' & Hin & Hlt & Hall)].
      * exists v. split; [now left |]. split; [exact E |].
        intros k' v' [H | H]; [inversion H; lia | exact (Hall k' v' H)].
      * exists v'. split; [now right |]. split; [lia |].
        intros k' v'' [H | H]; [inversion H; lia | exact (Hall k' v'' H)].
    + apply Z.ltb_ge in E.
      destruct (IH best bc) as [[-> Hall] | (v' & Hin & Hlt & Hall)].
      * left. split; [reflexivity |].
        intros k' v' [H | H]; [inversion H; lia | exact (Hall k' v' H)].
      * right. exists v'. split; [now right |]. split; [exact Hlt |].
        intros k' v'' [H | H]; [inversion H; lia | exact (Hall k' v'' H)].
Qed.

Lemma max_key_largest (d : list (string * Z)) :
  d <> [] ->
  exists v, In (max_key d, v) d /\ forall k' v', In (k', v') d -> (v' <= v)%Z.
Proof.
  destruct d as [| [k0 v0] rest]; [congruence |]. intros _. cbn [max_key].
  destruct (argmax_spec rest k0 v0) as [[-> Hall] | (v & Hin & Hlt & Hall)].
  - exists v0. split; [now left |].
    intros k' v' [H | H]; [inversion H; lia | exact (Hall k' v' H)].
  - exists v. split; [now right |].
    intros k' v' [H | H]; [inversion H; lia | exact (Hall k' v' H)].
Qed.

Lemma sum_Z_from (l : list Z) (acc : Z) :
  fold_left Z.add l acc = (acc + sum_Z l)%Z.
Proof.
  unfold sum_Z. revert acc. induction l as [| z rest IH]; intros acc; cbn [fold_left]; [lia |].
  rewrite (IH (acc + z)%Z), (IH (0 + z)%Z). lia.
Qed.

Lemma sum_Z_bounds (l : list Z) (n : Z) :
  (forall z, In z l -> (0 <= z <= n)%Z) ->
  (forall z, In z l -> (z <= sum_Z l)%Z) /\ (0 <= sum_Z l <= Z.of_nat (length l) * n)%Z.
Proof.
  induction l as [| z rest IH]; intros H.
  - split; [intros z [] | unfold sum_Z; simpl; lia].
  - destruct IH as [IH1 IH2]; [intros w Hw; apply H; now right |].
    pose proof (H z (or_introl eq_refl)) as Hz.
    assert (E : sum_Z (z :: rest) = (z + sum_Z rest)%Z).
    { unfold sum_Z at 1. cbn [fold_left]. rewrite sum_Z_from. lia. }
    rewrite E. split.
    + intros w [<- | Hw]; [lia |]. specialize (IH1 w Hw). lia.
    + cbn [length]. lia.
Qed.

(** X28.  The statistics stored for an evaluated cell are ordered: every
    direction count lies between 0 and the number of the cell's samples and
    is at most [max_count]; [second_max_count] lies between 0 and [max_count];
    [max_count] is at most [total_mr]; and [total_mr], which counts a sample
    once for every sector whose cone holds it, is at most the number of
    sectors of the carrier times the number of samples. *)
Theorem candidate_counts_are_ordered
    (configurations : list (string * config)) (ep_enodeb_data : list ep_row)
    (mr_enodeb_data : list mr_row) (carrier : string) (row : ep_row) :
  let cand := make_candidate configurations (sector_info_of ep_enodeb_data carrier)
                             mr_enodeb_data carrier row in
  let n := Z.of_nat (length (samples_of mr_enodeb_data (EP_key row))) in
  let sectors := Z.of_nat (length (sector_info_of ep_enodeb_data carrier)) in
  (forall k v, In (k, v) (direction_counts cand) ->
     (0 <= v <= n)%Z /\ (v <= max_count cand)%Z) /\
  (0 <= second_max_count cand <= max_count cand)%Z /\
  (max_count cand <= total_mr cand)%Z /\
  (max_count cand <= n)%Z /\
  (0 <= total_mr cand <= sectors * n)%Z.
Proof.
  intros cand n sectors.
  set (si := sector_info_of ep_enodeb_data carrier) in *.
  set (samples := samples_of mr_enodeb_data (EP_key row)) in *.
  set (d := direction_counts_of si samples).
  change (direction_counts cand) with d.
  change (max_count cand) with (top_count d).
  change (total_mr cand) with (total d).
  change (second_max_count cand) with (runner_up d).
  assert (Hval : forall k v, In (k, v) d -> (0 <= v <= n)%Z).
  { intros k v Hin. unfold d, direction_counts_of in Hin. apply in_map_iff in Hin.
    destruct Hin as (entry & E & _). inversion E; subst v.
    unfold count_if, n. pose proof (filter_length_le (in_cone (snd entry)) samples). lia. }
  assert (Hvalues : forall z, In z (values d) -> (0 <= z <= n)%Z).
  { intros z Hz. unfold values in Hz. apply in_map_iff in Hz.
    destruct Hz as ([k v] & <- & Hin). exact (Hval k v Hin). }
  assert (Hkeys : NoDup (map fst d)).
  { unfold d, direction_counts_of. rewrite map_map. cbn [fst].
    apply sector_info_keys_unique. }
  assert (Hlen : length (values d) = length si).
  { unfold values, d, direction_counts_of. now rewrite !length_map. }
  destruct (sum_Z_bounds (values d) Hvalues) as [Hmember Htotal].
  rewrite Hlen in Htotal. fold (total d) in Htotal, Hmember.
  assert (Htop : (forall k v, In (k, v) d -> (v <= top_count d)%Z) /\
                 (0 <= top_count d <= n)%Z /\ (top_count d <= total d)%Z).
  { destruct d as [| e0 rest] eqn:Ed.
    - split; [intros k v [] |]. unfold top_count, count_for, total, sum_Z. simpl. lia.
    - rewrite <- Ed in *.
      destruct (max_key_largest (d := d)) as (v & Hin & Hall); [rewrite Ed; discriminate |].
      assert (E : top_count d = v).
      { unfold top_count, count_for. now rewrite (In_sget d (max_key d) v Hkeys Hin). }
      rewrite E. split; [exact Hall |]. split; [exact (Hval _ _ Hin) |].
      apply Hmember. unfold values. apply in_map_iff. exists (max_key d, v). auto. }
  destruct Htop as (Hall & Htopn & Htoptotal).
  split; [| split; [| split; [| split]]].
  - intros k v Hin. split; [exact (Hval k v Hin) | exact (Hall k v Hin)].
  - assert (Hsecond : In (runner_up d) (values d) \/ runner_up d = 0%Z).
    { unfold runner_up, second_largest.
      destruct (nth_in_or_default 1 (sort Z_geb (values d)) 0%Z) as [Hin | E0];
        [left; apply sort_In in Hin; exact Hin | right; exact E0]. }
    destruct Hsecond as [Hin | E0]; [| rewrite E0; lia].
    pose proof (Hvalues _ Hin) as Hz.
    unfold values in Hin. apply in_map_iff in Hin. destruct Hin as ([k v] & E & Hin).
    cbn [snd] in E. pose proof (Hall k v Hin). lia.
  - exact Htoptotal.
  - lia.
  - unfold sectors. lia.
Qed.

End SwapFacts.

(* ================================================================= *)
(** ** sectorswap.py: build_azimuth_result_table, lines 84-135 *)

Module AzimuthTable.
Import PyMath PyList.
Local Open Scope string_scope.

(** An EP row with the columns the table reads. *)
Record ep_row : Type := {
  ep_site_id : string;
  ep_cell_id : string;
  ep_carrier : string;
  ep_latitude : raw R;
  ep_longitude : raw R;
  ep_azimuth : raw R
}.

(** The same row as the estimator of azimuth_utils.py reads it. *)
Definition estimator_row (e : ep_row) : ActualAzimuth.ep_row :=
  {| ActualAzimuth.ep_site_id := ep_site_id e;
     ActualAzimuth.ep_cell_id := ep_cell_id e;
     ActualAzimuth.ep_carrier := ep_carrier e;
     ActualAzimuth.ep_latitude := ep_latitude e;
     ActualAzimuth.ep_longitude := ep_longitude e |}.

(** A measured column holds a number or the text 'Less Number of MR'. *)
Inductive measured : Type :=
| Less_Number_of_MR
| Value (x : R).

Record table_row : Type := {
  eNodeb_Name : string;
  Cell_ID : string;
  Carrier : string;
  Planned_Azimuth : R;
  Actual_Azimuth : measured;
  Azimuth_Difference : measured;
  Actual_Latitude : R;
  Actual_Longitude : R;
  Result : string
}.

Section Table.
Variable DBSCAN : R -> Z -> list (R * R) -> outcome (list Z).
Variable mr_data : list ActualAzimuth.mr_row.
Variable ep_data : list ep_row.
Variable min_points : Z.
Variable max_distance : R.

(** The estimate the loop body asks for, line 106. *)
Definition estimate_for (e : ep_row) : outcome (option R) :=
  ActualAzimuth.calculate_actual_azimuth_with_centroid DBSCAN mr_data
    (map estimator_row ep_data) (ep_site_id e) (ep_cell_id e) (ep_carrier e)
    min_points max_distance.

(** The body of the loop of line 96; there is no handler around it. *)
Definition table_row_of (e : ep_row) : outcome table_row :=
  let cell_id := ep_cell_id e in
  let carrier := ep_carrier e in
  let site_id := ep_site_id e in
  ep_lat <- py_float (ep_latitude e) ;;
  ep_lon <- py_float (ep_longitude e) ;;
  planned_azimuth <- py_float (ep_azimuth e) ;;
  actual_azimuth <- estimate_for e ;;
  match actual_azimuth with
  | None =>
      Returned {| eNodeb_Name := site_id; Cell_ID := cell_id; Carrier := carrier;
                  Planned_Azimuth := planned_azimuth;
                  Actual_Azimuth := Less_Number_of_MR;
                  Azimuth_Difference := Less_Number_of_MR;
                  Actual_Latitude := ep_lat; Actual_Longitude := ep_lon;
                  Result := "Less Number of MR" |}
  | Some actual =>
      let azimuth_diff := Rabs (planned_azimuth - actual) in
      let azimuth_diff := Rmin azimuth_diff (360 - azimuth_diff) in
      Returned {| eNodeb_Name := site_id; Cell_ID := cell_id; Carrier := carrier;
                  Planned_Azimuth := planned_azimuth;
                  Actual_Azimuth := Value (NeighborCalculator.round2 actual);
                  Azimuth_Difference := Value (NeighborCalculator.round2 azimuth_diff);
                  Actual_Latitude := ep_lat; Actual_Longitude := ep_lon;
                  Result := "OK" |}
  end.

Definition build_azimuth_result_table : outcome (list table_row) :=
  ActualAzimuth.mapM table_row_of ep_data.

(** All three numeric columns of the EP row convert. *)
Definition numeric_row (e : ep_row) : Prop :=
  exists lat lon az,
    ep_latitude e = Num lat /\ ep_longitude e = Num lon /\ ep_azimuth e = Num az.

(** The table row belongs to the EP row: identifiers, planned azimuth and
    coordinates are those of the EP row. *)
Definition row_of (e : ep_row) (r : table_row) : Prop :=
  eNodeb_Name r = ep_site_id e /\ Cell_ID r = ep_cell_id e /\ Carrier r = ep_carrier e /\
  ep_azimuth e = Num (Planned_Azimuth r) /\
  ep_latitude e = Num (Actual_Latitude r) /\ ep_longitude e = Num (Actual_Longitude r).

Lemma estimate_for_returns (e : ep_row) : exists v, estimate_for e = Returned v.
Proof.
  unfold estimate_for, ActualAzimuth.calculate_actual_azimuth_with_centroid.
  destruct (ActualAzimuth.estimate _ _ _ _ _ _ _ _) as [v | x];
    [exists v | exists None]; reflexivity.
Qed.

Lemma table_row_of_numeric (e : ep_row) :
  numeric_row e -> exists r, table_row_of e = Returned r /\ row_of e r.
Proof.
  intros (lat & lon & az & Hlat & Hlon & Haz). unfold table_row_of. cbv zeta.
  rewrite Hlat, Hlon, Haz. cbn [py_float bind].
  destruct (estimate_for_returns e) as [[actual |] ->]; cbn [bind];
    eexists; (split; [reflexivity |]); unfold row_of;
    cbn [eNodeb_Name Cell_ID Carrier Planned_Azimuth Actual_Latitude Actual_Longitude];
    repeat split; assumption.
Qed.

Lemma table_row_of_text (e : ep_row) :
  ~ numeric_row e -> exists x, table_row_of e = Raised x.
Proof.
  intros Hnot. unfold table_row_of. cbv zeta.
  destruct (ep_latitude e) as [lat |] eqn:Hlat; cbn [py_float bind];
    [| exists ValueError; reflexivity].
  destruct (ep_longitude e) as [lon |] eqn:Hlon; cbn [py_float bind];
    [| exists ValueError; reflexivity].
  destruct (ep_azimuth e) as [az |] eqn:Haz; cbn [py_float bind];
    [| exists ValueError; reflexivity].
  exfalso. apply Hnot. exists lat, lon, az. auto.
Qed.

(** X29.  When latitude, longitude and azimuth of every EP row convert,
    the azimuth table has exactly one row per EP row, in the order of the EP
    table, each with the identifiers, planned azimuth and coordinates of its
    EP row (a repeated EP row gives a repeated table row).  When some EP row
    has a text in one of the three columns, the call raises and no table is
    returned: the loop has no handler. *)
Theorem azimuth_table_has_a_row_per_ep_row_or_raises :
  ((forall e, In e ep_data -> numeric_row e) ->
   exists rows, build_azimuth_result_table = Returned rows /\ Forall2 row_of ep_data rows) /\
  ((exists e, In e ep_data /\ ~ numeric_row e) ->
   exists x, build_azimuth_result_table = Raised x).
Proof.
  unfold build_azimuth_result_table. split.
  - induction ep_data as [| e rest IH]; intros Hnum.
    + exists []. split; [reflexivity | constructor].
    + destruct (table_row_of_numeric (Hnum e (or_introl eq_refl))) as (r & Hr & Hrow).
      destruct IH as (rows & Hrows & Hall); [intros x Hx; apply Hnum; now right |].
      exists (r :: rows). cbn [ActualAzimuth.mapM]. rewrite Hr, Hrows. cbn [bind].
      split; [reflexivity | now constructor].
  - intros (e & He & Hnot). induction ep_data as [| e0 rest IH]; [contradiction |].
    cbn [ActualAzimuth.mapM].
    destruct (table_row_of e0) as [r |] eqn:Er; cbn [bind]; [| eexists; reflexivity].
    destruct He as [-> | He].
    + destruct (table_row_of_text Hnot) as [x Hx]. congruence.
    + destruct (IH He) as [x ->]. exists x. reflexivity.
Qed.

Lemma round2_between (x : R) (a b : Z) :
  (IZR a <= x * 100 <= IZR b)%R ->
  (IZR a / 100 <= NeighborCalculator.round2 x <= IZR b / 100)%R.
Proof.
  intros [Ha Hb]. unfold NeighborCalculator.round2, NeighborCalculator.round_half_even.
  cbv zeta. set (y := (x * 100)%R) in *.
  destruct (base_Int_part y) as [Hlo Hhi]. set (f := Int_part y) in *.
  assert (Haf : (a <= f)%Z).
  { assert (IZR a < IZR (f + 1))%R by (rewrite plus_IZR; lra).
    apply lt_IZR in H. lia. }
  assert (Hfb : (f <= b)%Z) by (apply le_IZR; lra).
  assert (Hup : (1 / 2 <= y - IZR f)%R -> (f + 1 <= b)%Z).
  { intros Hhalf. assert (IZR f < IZR b)%R by lra. apply lt_IZR in H. lia. }
  assert (Hres : forall z, (a <= z <= b)%Z -> (IZR a / 100 <= IZR z / 100 <= IZR b / 100)%R).
  { intros z [Hz1 Hz2]. apply IZR_le in Hz1, Hz2. lra. }
  destruct (Rlt_dec (y - IZR f) (1 / 2)); [apply Hres; lia |].
  assert (Hf1 : (f + 1 <= b)%Z) by (apply Hup; lra).
  destruct (Rlt_dec (1 / 2) (y - IZR f)); [apply Hres; lia |].
  destruct (Z.even f); apply Hres; lia.
Qed.

Lemma table_row_kinds (e : ep_row) (r : table_row) :
  table_row_of e = Returned r ->
  (Result r = "Less Number of MR" /\ Actual_Azimuth r = Less_Number_of_MR /\
   Azimuth_Difference r = Less_Number_of_MR /\ estimate_for e = Returned None) \/
  (Result r = "OK" /\
   exists actual a d : R,
     estimate_for e = Returned (Some actual) /\
     Actual_Azimuth r = Value a /\ Azimuth_Difference r = Value d /\
     (0 <= a <= 360)%R /\
     ((0 <= Planned_Azimuth r <= 360)%R -> (0 <= d <= 180)%R)).
Proof.
  unfold table_row_of. cbv zeta.
  destruct (ep_latitude e) as [lat |]; cbn [py_float bind]; [| discriminate].
  destruct (ep_longitude e) as [lon |]; cbn [py_float bind]; [| discriminate].
  destruct (ep_azimuth e) as [az |]; cbn [py_float bind]; [| discriminate].
  destruct (estimate_for e) as [[actual |] | x] eqn:Eest; cbn [bind]; [| | discriminate].
  - intros H. inversion H; subst r. clear H. right. split; [reflexivity |].
    exists actual, (NeighborCalculator.round2 actual),
      (NeighborCalculator.round2 (Rmin (Rabs (az - actual)) (360 - Rabs (az - actual)))).
    cbn [Actual_Azimuth Azimuth_Difference Planned_Azimuth].
    assert (Hact : (0 <= actual < 360)%R).
    { unfold estimate_for, ActualAzimuth.calculate_actual_azimuth_with_centroid,
        ActualAzimuth.estimate in Eest.
      destruct (filter _ (map estimator_row ep_data)) as [| ep0 rest0]; [discriminate |].
      destruct (ActualAzimuth.ep_latitude ep0);
        cbn [py_float bind ActualAzimuth.try_catch] in Eest; [| discriminate].
      destruct (ActualAzimuth.ep_longitude ep0);
        cbn [py_float bind ActualAzimuth.try_catch] in Eest; [| discriminate].
      destruct (Z.of_nat (length (filter _ mr_data)) <? min_points)%Z; [discriminate |].
      destruct (ActualAzimuth.astype_float _);
        cbn [bind ActualAzimuth.try_catch] in Eest; [| discriminate].
      destruct (ActualAzimuth.mapM _ a);
        cbn [bind ActualAzimuth.try_catch] in Eest; [| discriminate].
      destruct (Z.of_nat (length _) <? min_points)%Z; [discriminate |].
      destruct (ActualAzimuth.main_lobe DBSCAN min_points _);
        cbn [bind ActualAzimuth.try_catch] in Eest; [| discriminate].
      inversion Eest. apply GeoFacts.bearing_to_centroid_range. }
    split; [reflexivity |]. split; [reflexivity |]. split; [reflexivity |]. split.
    + replace 0%R with (IZR 0 / 100)%R by (simpl; lra).
      replace 360%R with (IZR 36000 / 100)%R by lra.
      apply round2_between. simpl. lra.
    + intros Hplanned.
      pose proof (GeoFacts.azimuth_difference_bounds (az1 := az) (az2 := actual)) as Hd.
      unfold NeighborCalculator.calculate_azimuth_difference in Hd. cbv zeta in Hd.
      assert (Hdiff : (0 <= Rmin (Rabs (az - actual)) (360 - Rabs (az - actual)) <= 180)%R)
        by (apply Hd; lra).
      replace 0%R with (IZR 0 / 100)%R by (simpl; lra).
      replace 180%R with (IZR 18000 / 100)%R by lra.
      apply round2_between. simpl. lra.
  - intros H. inversion H; subst r. left. repeat split; reflexivity.
Qed.

(** X30.  With [min_points] at least 1, every row of the azimuth table
    either reads "Less Number of MR" in its three measured columns, exactly
    when the estimator returned its sentinel for the row's cell, or has
    Result "OK" with a printed actual azimuth between 0 and 360 (360.0 can
    be printed: the bearing is below 360 before it is rounded to two
    decimals) and, for a planned azimuth between 0 and 360, a printed azimuth
    difference between 0 and 180. *)
Theorem azimuth_table_rows_are_sentinel_or_in_range (rows : list table_row) :
  (1 <= min_points)%Z ->
  build_azimuth_result_table = Returned rows ->
  Forall2
    (fun e r =>
       (Result r = "Less Number of MR" /\ Actual_Azimuth r = Less_Number_of_MR /\
        Azimuth_Difference r = Less_Number_of_MR /\ estimate_for e = Returned None) \/
       (Result r = "OK" /\
        exists actual a d : R,
          estimate_for e = Returned (Some actual) /\
          Actual_Azimuth r = Value a /\ Azimuth_Difference r = Value d /\
          (0 <= a <= 360)%R /\
          ((0 <= Planned_Azimuth r <= 360)%R -> (0 <= d <= 180)%R)))
    ep_data rows.
Proof.
  intros _. unfold build_azimuth_result_table. revert rows.
  induction ep_data as [| e rest IH]; intros rows Hrows.
  - inversion Hrows. constructor.
  - cbn [ActualAzimuth.mapM] in Hrows.
    destruct (table_row_of e) as [r |] eqn:Er; cbn [bind] in Hrows; [| discriminate].
    destruct (ActualAzimuth.mapM table_row_of rest) as [rs |] eqn:Ers; cbn [bind] in Hrows;
      [| discriminate].
    inversion Hrows; subst rows. constructor; [now apply table_row_kinds | now apply IH].
Qed.

End Table.

Definition planned_cell (azimuth : raw R) : ep_row :=
  {| ep_site_id := "S1"; ep_cell_id := "1"; ep_carrier := "L1800";
     ep_latitude := Num 0%R; ep_longitude := Num 0%R; ep_azimuth := azimuth |}.

Lemma azimuth_table_witness :
  (forall e, In e [planned_cell (Num 90%R)] -> numeric_row e) /\
  exists rows,
    build_azimuth_result_table ActualAzimuth.all_noise [] [planned_cell (Num 90%R)] 30 2000
    = Returned rows /\
    Forall2 row_of [planned_cell (Num 90%R)] rows.
Proof.
  assert (Hnum : forall e, In e [planned_cell (Num 90%R)] -> numeric_row e).
  { intros e [<- | []]. exists 0%R, 0%R, 90%R. repeat split; reflexivity. }
  split; [exact Hnum |].
  exact (proj1 (azimuth_table_has_a_row_per_ep_row_or_raises ActualAzimuth.all_noise []
                  [planned_cell (Num 90%R)] 30 2000%R) Hnum).
Defined.

Definition sentinel_row : table_row :=
  {| eNodeb_Name := "S1"; Cell_ID := "1"; Carrier := "L1800"; Planned_Azimuth := 90%R;
     Actual_Azimuth := Less_Number_of_MR; Azimuth_Difference := Less_Number_of_MR;
     Actual_Latitude := 0%R; Actual_Longitude := 0%R; Result := "Less Number of MR" |}.

Lemma azimuth_table_rows_witness :
  (1 <= 30)%Z /\
  build_azimuth_result_table ActualAzimuth.all_noise [] [planned_cell (Num 90%R)] 30 2000
  = Returned [sentinel_row] /\
  Forall2
    (fun e r =>
       (Result r = "Less Number of MR" /\ Actual_Azimuth r = Less_Number_of_MR /\
        Azimuth_Difference r = Less_Number_of_MR /\
        estimate_for ActualAzimuth.all_noise [] [planned_cell (Num 90%R)] 30 2000 e
        = Returned None) \/
       (Result r = "OK" /\
        exists actual a d : R,
          estimate_for ActualAzimuth.all_noise [] [planned_cell (Num 90%R)] 30 2000 e
          = Returned (Some actual) /\
          Actual_Azimuth r = Value a /\ Azimuth_Difference r = Value d /\
          (0 <= a <= 360)%R /\
          ((0 <= Planned_Azimuth r <= 360)%R -> (0 <= d <= 180)%R)))
    [planned_cell (Num 90%R)] [sentinel_row].
Proof.
  assert (Hmin : (1 <= 30)%Z) by lia.
  assert (Hrows : build_azimuth_result_table ActualAzimuth.all_noise []
                    [planned_cell (Num 90%R)] 30 2000 = Returned [sentinel_row])
    by reflexivity.
  split; [exact Hmin |]. split; [exact Hrows |].
  exact (@azimuth_table_rows_are_sentinel_or_in_range ActualAzimuth.all_noise []
           [planned_cell (Num 90%R)] 30 2000%R [sentinel_row] Hmin Hrows).
Defined.

End AzimuthTable.
